(** * Doctor appointment booking backend (server.js): booking, lifecycle and
    expiry sweep over the [slots] and [appointments] tables.

    The Express handlers of server.js are embedded as functions over the two
    tables.  A handler takes the request, the database clock ([NOW()]) and an
    oracle that says which of its SQL statements fails, and returns the HTTP
    response together with the committed tables.

    What is taken from PostgreSQL and the pg driver rather than from
    server.js: a table is the list of its rows in insertion order; an
    [UPDATE ... WHERE] rewrites every row that matches; a transaction that is
    rolled back leaves the tables as committed and keeps the sequence values
    it drew; a [SERIAL] sequence ends at 2147483647; a parameter reaches the
    server as text, which has to be UTF-8 without a zero byte, and is read
    by the input function of its column, as PostgreSQL 16 and later do;
    [SELECT ... FOR UPDATE] locks the rows it returns until the transaction
    ends. *)

From Stdlib Require Import ZArith List Bool String Ascii Lia DecimalString.
From Stdlib Require Import DecimalPos Sorted Permutation.
Import ListNotations.
Open Scope string_scope.
Open Scope list_scope.
Open Scope Z_scope.

(** ** Values of a parsed JSON body *)

(** [req.body] after [express.json()].  [JNum n] is the number written as
    the integer [n]; a text is the list of the bytes of its UTF-8 encoding.
    An array, an object or a number that is not an integer is kept as
    [JOther t], [t] being the text the pg driver binds for it: such a value
    is always truthy. *)
Inductive JValue : Type :=
| JUndefined
| JNull
| JBool (b : bool)
| JNum (n : Z)
| JStr (s : string)
| JOther (text : string).

(** JavaScript truthiness, the test behind [!x]. *)
Definition truthy (v : JValue) : bool :=
  match v with
  | JUndefined | JNull => false
  | JBool b => b
  | JNum n => negb (n =? 0)
  | JStr s => negb (s =? "")%string
  | JOther _ => true
  end.

Definition falsy (v : JValue) : bool := negb (truthy v).

(** ** Parameter binding and column input *)

(** *** [Number.prototype.toString]

    A number of the body is a double.  [JNum n] is the double [JSON.parse]
    makes of the integer literal [n]: [n] itself below 2^53, beyond that
    the nearest double, Infinity from 2^1024 on.  Its text is the decimal
    with the fewest digits that reads back as that double, in exponent form
    from 10^21 on. *)

(** The decimal text of an integer. *)
Definition decimal (n : Z) : string :=
  NilZero.string_of_int (Z.to_int n).

(** Up to here every integer is a double. *)
Definition SAFE : Z := 2 ^ 53.

(** The double nearest to a positive integer, ties to the even mantissa;
    [None] is Infinity. *)
Definition nearest_double (a : Z) : option Z :=
  if a <? SAFE then Some a
  else
    let e := Z.log2 a - 52 in
    let q := a / 2 ^ e in
    let r := a mod 2 ^ e in
    let q' :=
      if (2 ^ (e - 1) <? r) || ((r =? 2 ^ (e - 1)) && Z.odd q)
      then q + 1 else q in
    if q' * 2 ^ e <? 2 ^ 1024 then Some (q' * 2 ^ e) else None.

(** [c] reads back as the double [v], [v] being at least 2^53: it lies
    between the midpoints to the neighbours of [v], which belong to [v]
    when its mantissa is even.  Everything is taken four times, the lower
    midpoint of 2^53 being a half. *)
Definition rounds_to (v c : Z) : bool :=
  let e := Z.log2 v - 52 in
  let below := if v =? 2 ^ Z.log2 v then 2 ^ e else 2 ^ (e + 1) in
  let above := 2 ^ (e + 1) in
  if Z.even (v / 2 ^ e)
  then (4 * v - below <=? 4 * c) && (4 * c <=? 4 * v + above)
  else (4 * v - below <? 4 * c) && (4 * c <? 4 * v + above).

(** The integer with the fewest significant digits that reads back as [v],
    the nearest to [v] among those; [k] is the number of digits tried and
    [p] the number of digits of [v]. *)
Fixpoint shortest (fuel : nat) (k p v : Z) : Z :=
  match fuel with
  | O => v
  | S fuel' =>
      let scale := 10 ^ (p - k) in
      let down := v / scale * scale in
      let up := down + scale in
      match rounds_to v down, rounds_to v up with
      | true, true =>
          if v - down <? up - v then down
          else if up - v <? v - down then up
          else if Z.even (down / scale) then down else up
      | true, false => down
      | false, true => up
      | false, false => shortest fuel' (k + 1) p v
      end
  end.

Fixpoint strip_zeros (s : string) : string :=
  match s with
  | String c r =>
      match strip_zeros r with
      | EmptyString => if (c =? "0")%char then EmptyString else String c ""
      | r' => String c r'
      end
  | EmptyString => EmptyString
  end.

(** [d.ddde+x], the form of a number from 10^21 on. *)
Definition exponent_form (w : Z) : string :=
  match decimal w with
  | String d rest =>
      String d
        (match strip_zeros rest with
         | EmptyString => ""
         | fraction => "." ++ fraction
         end
         ++ "e+" ++ decimal (Z.of_nat (String.length rest)))
  | EmptyString => ""
  end.

Definition number_to_string (n : Z) : string :=
  if Z.abs n <? SAFE then decimal n
  else
    let sign := if n <? 0 then "-" else "" in
    match nearest_double (Z.abs n) with
    | None => sign ++ "Infinity"
    | Some v =>
        let w :=
          shortest 17 1 (Z.of_nat (String.length (decimal v))) v in
        if w <? 10 ^ 21 then decimal (Z.sgn n * w)
        else sign ++ exponent_form w
    end.


(** The text the driver sends for a bound parameter; [None] is SQL NULL. *)
Definition prepareValue (v : JValue) : option string :=
  match v with
  | JUndefined | JNull => None
  | JBool true => Some "true"
  | JBool false => Some "false"
  | JNum n => Some (number_to_string n)
  | JStr s => Some s
  | JOther t => Some t
  end.

(** *** Input of the column types

    The database encoding is taken to be UTF8, and a text is the list of
    its bytes. *)

Definition code_of (c : ascii) : Z := Z.of_nat (nat_of_ascii c).

Definition between (lo hi : Z) (c : ascii) : bool :=
  (lo <=? code_of c) && (code_of c <=? hi).

(** A byte that continues a character of more than one byte. *)
Definition continues (c : ascii) : bool := between 128 191 c.

(** The text is UTF-8 and holds no zero byte: what the server asks of
    every text it is sent. *)
Fixpoint utf8_ok (s : string) : bool :=
  match s with
  | EmptyString => true
  | String c r =>
      if between 1 127 c then utf8_ok r
      else if between 194 223 c
      then match r with
           | String c1 r1 => continues c1 && utf8_ok r1
           | _ => false
           end
      else if between 224 239 c
      then match r with
           | String c1 (String c2 r2) =>
               (if code_of c =? 224 then between 160 191 c1
                else if code_of c =? 237 then between 128 159 c1
                else continues c1)
               && continues c2 && utf8_ok r2
           | _ => false
           end
      else if between 240 244 c
      then match r with
           | String c1 (String c2 (String c3 r3)) =>
               (if code_of c =? 240 then between 144 191 c1
                else if code_of c =? 244 then between 128 143 c1
                else continues c1)
               && continues c2 && continues c3 && utf8_ok r3
           | _ => false
           end
      else false
  end.

(** Input of a [TEXT]. *)
Definition textin (s : string) : option string :=
  if utf8_ok s then Some s else None.

(** The first [n] characters of a text, and what follows them. *)
Fixpoint split_chars (n : nat) (s : string) : string * string :=
  match s with
  | EmptyString => (EmptyString, EmptyString)
  | String c r =>
      if continues c
      then let '(h, t) := split_chars n r in (String c h, t)
      else match n with
           | O => (EmptyString, s)
           | S m => let '(h, t) := split_chars m r in (String c h, t)
           end
  end.

Fixpoint all_spaces (s : string) : bool :=
  match s with
  | String c r => (nat_of_ascii c =? 32)%nat && all_spaces r
  | EmptyString => true
  end.

(** Input of a [VARCHAR(n)]: a text of more than [n] characters is refused
    unless every character past the limit is a space, and is then cut to
    the limit. *)
Definition varcharin (n : nat) (s : string) : option string :=
  match textin s with
  | Some _ =>
      let '(kept, excess) := split_chars n s in
      if all_spaces excess then Some kept else None
  | None => None
  end.

Definition is_space (c : ascii) : bool :=
  let n := nat_of_ascii c in
  (n =? 32)%nat || ((9 <=? n)%nat && (n <=? 13)%nat).

(** The value of a digit in a radix of at most 16. *)
Definition digit_in (radix : Z) (c : ascii) : option Z :=
  let d :=
    if between 48 57 c then code_of c - 48
    else if between 97 102 c then code_of c - 87
    else if between 65 70 c then code_of c - 55
    else radix in
  if d <? radix then Some d else None.

Fixpoint skip_spaces (s : string) : string :=
  match s with
  | String c r => if is_space c then skip_spaces r else s
  | EmptyString => s
  end.

(** Digits, an underscore being allowed before a digit; [None] when an
    underscore is followed by something else. *)
Fixpoint read_digits (radix acc : Z) (s : string) : option (Z * string) :=
  match s with
  | String c r =>
      match digit_in radix c with
      | Some d => read_digits radix (radix * acc + d) r
      | None =>
          if (c =? "_")%char
          then match r with
               | String c' _ =>
                   match digit_in radix c' with
                   | Some _ => read_digits radix acc r
                   | None => None
                   end
               | EmptyString => None
               end
          else Some (acc, s)
      end
  | EmptyString => Some (acc, s)
  end.

(** [0x], [0o] or [0b] in front of the digits. *)
Definition radix_of (c : ascii) : option Z :=
  if (c =? "x")%char || (c =? "X")%char then Some 16
  else if (c =? "o")%char || (c =? "O")%char then Some 8
  else if (c =? "b")%char || (c =? "B")%char then Some 2
  else None.

Definition radix_prefix (s : string) : option (Z * string) :=
  match s with
  | String c0 s' =>
      if (c0 =? "0")%char
      then match s' with
           | String c1 r =>
               match radix_of c1 with
               | Some radix => Some (radix, r)
               | None => None
               end
           | EmptyString => None
           end
      else None
  | EmptyString => None
  end.

(** The digits of an integer: at least one, the first of a decimal number
    not an underscore. *)
Definition read_magnitude (s : string) : option (Z * string) :=
  match radix_prefix s with
  | Some (radix, r) =>
      match r with
      | String c _ =>
          match digit_in radix c with
          | Some _ => read_digits radix 0 r
          | None => if (c =? "_")%char then read_digits radix 0 r else None
          end
      | EmptyString => None
      end
  | None =>
      match s with
      | String c _ =>
          match digit_in 10 c with
          | Some _ => read_digits 10 0 s
          | None => None
          end
      | EmptyString => None
      end
  end.

Definition INT4_MIN : Z := - 2147483648.
Definition INT4_MAX : Z := 2147483647.

(** Input of an [INTEGER] from text, as PostgreSQL 16 and later read it:
    blanks, an optional sign, digits (decimal, or hexadecimal, octal or
    binary after [0x], [0o] or [0b]; underscores between digits), blanks.
    [None] when the server raises (bad syntax, out of range).  Before
    version 16 only the plain decimal form is read. *)
Definition int4in (s : string) : option Z :=
  let s1 := skip_spaces s in
  let '(neg, s2) :=
    match s1 with
    | String c r =>
        if (c =? "-")%char then (true, r)
        else if (c =? "+")%char then (false, r)
        else (false, s1)
    | EmptyString => (false, s1)
    end in
  match read_magnitude s2 with
  | Some (v, rest) =>
      let v := if neg then - v else v in
      match skip_spaces rest with
      | EmptyString =>
          if (INT4_MIN <=? v) && (v <=? INT4_MAX) then Some v else None
      | _ => None
      end
  | None => None
  end.

(** A parameter bound to a [NOT NULL] column of the given type. *)
Definition bind_int4 (v : JValue) : option Z :=
  match prepareValue v with
  | Some t => int4in t
  | None => None
  end.

Definition bind_varchar (n : nat) (v : JValue) : option string :=
  match prepareValue v with
  | Some t => varcharin n t
  | None => None
  end.

Definition bind_text (v : JValue) : option string :=
  match prepareValue v with
  | Some t => textin t
  | None => None
  end.

(** ** The tables *)

(** [CONSTRAINT valid_status]. *)
Inductive Status : Type := PENDING | CONFIRMED | FAILED | CANCELLED.

Definition Status_eqb (a b : Status) : bool :=
  match a, b with
  | PENDING, PENDING | CONFIRMED, CONFIRMED
  | FAILED, FAILED | CANCELLED, CANCELLED => true
  | _, _ => false
  end.

(** Timestamps are microseconds on the database clock. *)
Definition Timestamp : Type := Z.

Module Slot.
Record t : Type := mk {
    id : Z;
    doctor_id : Z;
    slot_date : string;
    start_time : string;
    end_time : string;
    is_booked : bool;
    created_at : Timestamp
  }.

Definition set_is_booked (b : bool) (s : t) : t :=
    mk (id s) (doctor_id s) (slot_date s) (start_time s) (end_time s) b
       (created_at s).
End Slot.

Module Appointment.
Record t : Type := mk {
    id : Z;
    slot_id : Z;
    patient_name : string;
    patient_email : string;
    patient_phone : string;
    patient_age : Z;
    reason_for_visit : string;
    status : Status;
    booking_time : Timestamp;
    confirmation_time : option Timestamp
  }.

Definition set_status (st : Status) (a : t) : t :=
    mk (id a) (slot_id a) (patient_name a) (patient_email a)
       (patient_phone a) (patient_age a) (reason_for_visit a) st
       (booking_time a) (confirmation_time a).

Definition set_confirmation_time (ts : option Timestamp) (a : t) : t :=
    mk (id a) (slot_id a) (patient_name a) (patient_email a)
       (patient_phone a) (patient_age a) (reason_for_visit a) (status a)
       (booking_time a) ts.
End Appointment.

(** The committed contents of the database the handlers work on.
    [appointments_id_seq] is the sequence behind [appointments.id SERIAL]:
    the value its next [nextval] hands out. *)
Record DB : Type := mkDB {
  slots : list Slot.t;
  appointments : list Appointment.t;
  appointments_id_seq : Z
}.

Definition with_slots (l : list Slot.t) (db : DB) : DB :=
  mkDB l (appointments db) (appointments_id_seq db).

Definition with_appointments (l : list Appointment.t) (db : DB) : DB :=
  mkDB (slots db) l (appointments_id_seq db).

(** ** Requests and responses *)

Module Body.
Record t : Type := mk {
  slot_id : JValue;
  patient_name : JValue;
  patient_email : JValue;
  patient_phone : JValue;
  patient_age : JValue;
  reason_for_visit : JValue
}.
End Body.

(** [res.status(code).json({ success, message, data })]. *)
Record Response : Type := mkResponse {
  code : Z;
  success : bool;
  message : string;
  data : option Appointment.t
}.

Definition failure (c : Z) (msg : string) : Response :=
  mkResponse c false msg None.

(** The error kinds of the interface, as the handlers send them. *)
Definition ValidationFailed : Response :=
  failure 400 "All fields are required".
Definition SlotNotFound : Response :=
  failure 404 "Slot not found".
Definition Conflict : Response :=
  failure 409 "Slot is already booked! Please select another slot.".
Definition NotFoundOrAlreadyProcessed : Response :=
  failure 404 "Appointment not found or already processed".
Definition AppointmentNotFound : Response :=
  failure 404 "Appointment not found".
Definition ErrorBooking : Response :=
  failure 500 "Error booking appointment".
Definition ErrorConfirming : Response :=
  failure 500 "Error confirming appointment".
Definition ErrorCancelling : Response :=
  failure 500 "Error cancelling appointment".

Definition Booked (a : Appointment.t) : Response :=
  mkResponse 201 true "Appointment booked successfully!" (Some a).
Definition Confirmed (a : Appointment.t) : Response :=
  mkResponse 200 true "Appointment confirmed!" (Some a).
Definition Cancelled : Response :=
  mkResponse 200 true "Appointment cancelled successfully" None.

(** ** Statements, failures and transactions *)

(** The statements the three handlers and the sweeper send. *)
Inductive Stmt : Type :=
| BEGIN
| COMMIT
| SELECT_SLOT_FOR_UPDATE
| INSERT_APPOINTMENT
| UPDATE_SLOT_BOOKED
| UPDATE_CONFIRM
| SELECT_APPOINTMENT
| UPDATE_CANCELLED
| UPDATE_SLOT_FREE
| EXPIRE_PENDING.

(** Which statements fail for a reason outside the tables (connection lost,
    server unavailable).  [ROLLBACK] is taken to succeed. *)
Definition Oracle : Type := Stmt -> bool.

Definition no_faults : Oracle := fun _ => false.

(** The body of a [try] block over the working copy of the tables: it
    returns a value or throws. *)
Inductive Result (A : Type) : Type :=
| Returned (a : A) (work : DB)
| Thrown (work : DB).
Arguments Returned {A} a work.
Arguments Thrown {A} work.

Definition Tx (A : Type) : Type := DB -> Result A.

Definition ret {A : Type} (a : A) : Tx A := fun w => Returned a w.

Definition bind {A B : Type} (m : Tx A) (k : A -> Tx B) : Tx B :=
  fun w =>
    match m w with
    | Returned a w' => k a w'
    | Thrown w' => Thrown w'
    end.

Notation "x <- m ;; k" := (bind m (fun x => k))
  (at level 61, m at next level, right associativity).
Notation "m ;;; k" := (bind m (fun _ => k))
  (at level 61, right associativity).

(** [await client.query(...)]: the statement fails when the oracle says so
    or when the server refuses it ([None]). *)
Definition query {A : Type} (fails : Oracle) (st : Stmt)
    (run : DB -> option (A * DB)) : Tx A :=
  fun w =>
    if fails st then Thrown w
    else match run w with
         | Some (a, w') => Returned a w'
         | None => Thrown w
         end.

(** [ROLLBACK] gives the tables back as they were committed; the sequence
    keeps the values it handed out. *)
Definition rollback_to (committed work : DB) : DB :=
  mkDB (slots committed) (appointments committed) (appointments_id_seq work).

Definition ROLLBACK (committed : DB) : Tx unit :=
  fun w => Returned tt (rollback_to committed w).

(** ** The SQL statements *)

(** [SELECT * FROM slots WHERE id = $1 FOR UPDATE]. *)
Definition select_slot (sid : Z) (w : DB) : list Slot.t :=
  filter (fun s => Slot.id s =? sid) (slots w).

(** The row of [INSERT INTO appointments (...) VALUES ($1, ..., $6,
    'PENDING')]: [id] from the sequence, [booking_time] from its default
    [CURRENT_TIMESTAMP], [confirmation_time] NULL; [None] when a parameter
    does not fit its column or the sequence, which ends at 2147483647, has
    no value left. *)
Definition new_appointment (now : Timestamp) (body : Body.t) (id : Z)
    : option Appointment.t :=
  match bind_int4 (Body.slot_id body),
        bind_varchar 255 (Body.patient_name body),
        bind_varchar 255 (Body.patient_email body),
        bind_varchar 20 (Body.patient_phone body),
        bind_int4 (Body.patient_age body),
        bind_text (Body.reason_for_visit body) with
  | Some sid, Some name, Some email, Some phone, Some age, Some reason =>
      if id <=? INT4_MAX
      then Some (Appointment.mk id sid name email phone age reason PENDING
                   now None)
      else None
  | _, _, _, _, _, _ => None
  end.

(** [INSERT INTO appointments ... RETURNING *]. *)
Definition insert_appointment (now : Timestamp) (body : Body.t) (w : DB)
    : option (Appointment.t * DB) :=
  match new_appointment now body (appointments_id_seq w) with
  | Some row =>
      Some (row, mkDB (slots w) (appointments w ++ [row])
                   (appointments_id_seq w + 1))
  | None => None
  end.

(** [UPDATE slots SET is_booked = b WHERE id = $1]. *)
Definition update_slot_is_booked (b : bool) (sid : Z) (w : DB) : DB :=
  with_slots
    (map (fun s => if Slot.id s =? sid then Slot.set_is_booked b s else s)
       (slots w)) w.

(** [UPDATE appointments SET status = 'CONFIRMED', confirmation_time = NOW()
    WHERE id = $1 AND status = 'PENDING' RETURNING *]. *)
Definition confirmable (id : Z) (a : Appointment.t) : bool :=
  (Appointment.id a =? id) && Status_eqb (Appointment.status a) PENDING.

Definition confirm_row (now : Timestamp) (a : Appointment.t)
    : Appointment.t :=
  Appointment.set_confirmation_time (Some now)
    (Appointment.set_status CONFIRMED a).

Definition update_confirm (now : Timestamp) (id : Z) (w : DB)
    : list Appointment.t * DB :=
  (map (confirm_row now) (filter (confirmable id) (appointments w)),
   with_appointments
     (map (fun a => if confirmable id a then confirm_row now a else a)
        (appointments w)) w).

(** [SELECT * FROM appointments WHERE id = $1]. *)
Definition select_appointment (id : Z) (w : DB) : list Appointment.t :=
  filter (fun a => Appointment.id a =? id) (appointments w).

(** [UPDATE appointments SET status = 'CANCELLED' WHERE id = $1]. *)
Definition update_cancelled (id : Z) (w : DB) : DB :=
  with_appointments
    (map (fun a => if Appointment.id a =? id
                   then Appointment.set_status CANCELLED a else a)
       (appointments w)) w.

(** [INTERVAL '2 minutes']. *)
Definition PENDING_GRACE : Z := 2 * 60 * 1000000.

(** [status = 'PENDING' AND booking_time < NOW() - INTERVAL '2 minutes']. *)
Definition expired (now : Timestamp) (a : Appointment.t) : bool :=
  Status_eqb (Appointment.status a) PENDING
  && (Appointment.booking_time a <? now - PENDING_GRACE).

(** The sweeper's statement: the [WITH expired_appointments AS (UPDATE
    appointments ... RETURNING slot_id) UPDATE slots SET is_booked = FALSE
    WHERE id IN (SELECT slot_id FROM expired_appointments)].  The first
    component is its [rowCount], the number of slot rows updated. *)
Definition expire_pending (now : Timestamp) (w : DB) : nat * DB :=
  let expired_appointments :=
    map Appointment.slot_id (filter (expired now) (appointments w)) in
  let hit s := existsb (Z.eqb (Slot.id s)) expired_appointments in
  (List.length (filter hit (slots w)),
   mkDB
     (map (fun s => if hit s then Slot.set_is_booked false s else s)
        (slots w))
     (map (fun a => if expired now a
                    then Appointment.set_status FAILED a else a)
        (appointments w))
     (appointments_id_seq w)).

(** ** The handlers *)

(** [!slot_id || !patient_name || !patient_email || !patient_phone ||
    !patient_age || !reason_for_visit]. *)
Definition missing_field (body : Body.t) : bool :=
  falsy (Body.slot_id body) || falsy (Body.patient_name body)
  || falsy (Body.patient_email body) || falsy (Body.patient_phone body)
  || falsy (Body.patient_age body) || falsy (Body.reason_for_visit body).

(** [POST /api/appointments], from the connection in hand: the [try] block,
    then the [catch]. *)
Definition book_try (fails : Oracle) (now : Timestamp) (body : Body.t)
    (committed : DB) : Tx Response :=
  if missing_field body
  then ret ValidationFailed
  else
    query fails BEGIN (fun w => Some (tt, w)) ;;;
    slotCheck <- query fails SELECT_SLOT_FOR_UPDATE (fun w =>
      match bind_int4 (Body.slot_id body) with
      | Some sid => Some (select_slot sid w, w)
      | None => None
      end) ;;
    match slotCheck with
    | [] => ROLLBACK committed ;;; ret SlotNotFound
    | slot :: _ =>
        if Slot.is_booked slot
        then ROLLBACK committed ;;; ret Conflict
        else
          appointmentResult <-
            query fails INSERT_APPOINTMENT (insert_appointment now body) ;;
          query fails UPDATE_SLOT_BOOKED (fun w =>
            match bind_int4 (Body.slot_id body) with
            | Some sid => Some (tt, update_slot_is_booked true sid w)
            | None => None
            end) ;;;
          query fails COMMIT (fun w => Some (tt, w)) ;;;
          ret (Booked appointmentResult)
    end.

Definition book (fails : Oracle) (now : Timestamp) (body : Body.t)
    (db : DB) : Response * DB :=
  match book_try fails now body db db with
  | Returned r w => (r, w)
  | Thrown w => (ErrorBooking, rollback_to db w)
  end.

(** [POST /api/appointments/:id/confirm]; [id] is the path segment. *)
Definition confirm (fails : Oracle) (now : Timestamp) (id : string)
    (db : DB) : Response * DB :=
  match query fails UPDATE_CONFIRM (fun w =>
          match int4in id with
          | Some n => Some (update_confirm now n w)
          | None => None
          end) db with
  | Returned [] w => (NotFoundOrAlreadyProcessed, w)
  | Returned (row :: _) w => (Confirmed row, w)
  | Thrown _ => (ErrorConfirming, db)
  end.

(** [POST /api/appointments/:id/cancel]. *)
Definition cancel_try (fails : Oracle) (id : string) (committed : DB)
    : Tx Response :=
  query fails BEGIN (fun w => Some (tt, w)) ;;;
  appointmentResult <- query fails SELECT_APPOINTMENT (fun w =>
    match int4in id with
    | Some n => Some (select_appointment n w, w)
    | None => None
    end) ;;
  match appointmentResult with
  | [] => ROLLBACK committed ;;; ret AppointmentNotFound
  | appointment :: _ =>
      query fails UPDATE_CANCELLED (fun w =>
        match int4in id with
        | Some n => Some (tt, update_cancelled n w)
        | None => None
        end) ;;;
      query fails UPDATE_SLOT_FREE (fun w =>
        Some (tt, update_slot_is_booked false
                    (Appointment.slot_id appointment) w)) ;;;
      query fails COMMIT (fun w => Some (tt, w)) ;;;
      ret Cancelled
  end.

Definition cancel (fails : Oracle) (id : string) (db : DB)
    : Response * DB :=
  match cancel_try fails id db db with
  | Returned r w => (r, w)
  | Thrown w => (ErrorCancelling, rollback_to db w)
  end.

(** What a tick of the sweeper writes to the console. *)
Inductive TickLog : Type :=
| Quiet
| ExpiredBookings (rowCount : nat)
| ErrorExpiring.

(** One run of the [setInterval] callback. *)
Definition sweep_tick (fails : Oracle) (now : Timestamp) (db : DB)
    : TickLog * DB :=
  match query fails EXPIRE_PENDING (fun w => Some (expire_pending now w))
          db with
  | Returned rowCount w =>
      (if (0 <? rowCount)%nat then ExpiredBookings rowCount else Quiet, w)
  | Thrown _ => (ErrorExpiring, db)
  end.

(** ** The process environment and what the server takes from it *)

Definition Env : Type := string -> option string.

(** [process.env.X || d]: the default also stands in for an empty value. *)
Definition env_or (env : Env) (name d : string) : string :=
  match env name with
  | Some v => if (v =? "")%string then d else v
  | None => d
  end.

Record Server : Type := mkServer {
  PORT : string;
  CORS_ORIGIN : string;
  DATABASE_URL : option string;
  sweep_every_ms : Z
}.

(** The server as started under [env]: [PORT], the CORS origin and the
    connection string come from the environment, the sweeper's period is
    the literal handed to [setInterval]. *)
Definition server (env : Env) : Server :=
  mkServer (env_or env "PORT" "5000") (env_or env "CORS_ORIGIN" "*")
    (env "DATABASE_URL") 60000.

(** The tick run by the server started under [env]. *)
Definition server_tick (env : Env) (fails : Oracle) (now : Timestamp)
    (db : DB) : TickLog * DB :=
  sweep_tick fails now db.

(** ** Concurrent [book] calls

    Each call runs on its own connection; one step of a call is one awaited
    statement.  The tables are the committed ones; what a call has written
    and not yet committed lives in its program counter.  The row lock of
    [SELECT ... FOR UPDATE] is held from the statement that returned the row
    to the [COMMIT] or [ROLLBACK] of the call, and a call asking for a row
    that another call holds does not move. *)

Inductive PC : Type :=
| AtStart
| AfterBegin
| Selected (slotCheck : list Slot.t)
| Inserted (appointmentResult : Appointment.t)
| Updated (appointmentResult : Appointment.t)
| Done (r : Response).

Record Call : Type := mkCall {
  call_fails : Oracle;
  call_now : Timestamp;
  call_body : Body.t;
  pc : PC
}.

Definition at_pc (p : PC) (c : Call) : Call :=
  mkCall (call_fails c) (call_now c) (call_body c) p.

(** The call is between the statement that locked its slot rows and its
    [COMMIT] or [ROLLBACK]. *)
Definition locking (c : Call) : bool :=
  match pc c with
  | Selected (_ :: _) | Inserted _ | Updated _ => true
  | _ => false
  end.

(** The call holds the lock on the slot row [sid]. *)
Definition holds (sid : Z) (c : Call) : bool :=
  locking c
  && match bind_int4 (Body.slot_id (call_body c)) with
     | Some s => s =? sid
     | None => false
     end.

(** The next statement of a call; [held sid] says that another call holds
    the row [sid].  [None]: the call waits for the lock, or has answered. *)
Definition call_step (held : Z -> bool) (c : Call) (db : DB)
    : option (PC * DB) :=
  let fails := call_fails c in
  let body := call_body c in
  let caught := Some (Done ErrorBooking, db) in
  match pc c with
  | AtStart =>
      if missing_field body then Some (Done ValidationFailed, db)
      else if fails BEGIN then caught
      else Some (AfterBegin, db)
  | AfterBegin =>
      if fails SELECT_SLOT_FOR_UPDATE then caught
      else match bind_int4 (Body.slot_id body) with
           | None => caught
           | Some sid =>
               match select_slot sid db with
               | [] => Some (Selected [], db)
               | rows => if held sid then None else Some (Selected rows, db)
               end
           end
  | Selected [] => Some (Done SlotNotFound, db)
  | Selected (slot :: _) =>
      if Slot.is_booked slot then Some (Done Conflict, db)
      else if fails INSERT_APPOINTMENT then caught
      else match new_appointment (call_now c) body (appointments_id_seq db)
           with
           | Some row =>
               Some (Inserted row,
                     mkDB (slots db) (appointments db)
                       (appointments_id_seq db + 1))
           | None => caught
           end
  | Inserted row =>
      if fails UPDATE_SLOT_BOOKED then caught
      else match bind_int4 (Body.slot_id body) with
           | Some _ => Some (Updated row, db)
           | None => caught
           end
  | Updated row =>
      if fails COMMIT then caught
      else Some (Done (Booked row),
                 mkDB (slots (update_slot_is_booked true
                                (Appointment.slot_id row) db))
                   (appointments db ++ [row]) (appointments_id_seq db))
  | Done _ => None
  end.

Record World : Type := mkWorld {
  committed : DB;
  calls : list Call
}.

Definition others (i : nat) (l : list Call) : list Call :=
  firstn i l ++ skipn (S i) l.

(** The scheduler lets call [i] send its next statement; nothing moves when
    there is no such call, when it waits or when it has answered. *)
Definition sched_step (W : World) (i : nat) : World :=
  match nth_error (calls W) i with
  | Some c =>
      match call_step (fun sid => existsb (holds sid) (others i (calls W)))
              c (committed W) with
      | Some (p, db) =>
          mkWorld db
            (firstn i (calls W) ++ at_pc p c :: skipn (S i) (calls W))
      | None => W
      end
  | None => W
  end.

(** An interleaving is the list of the calls' turns. *)
Definition exec (W : World) (schedule : list nat) : World :=
  fold_left sched_step schedule W.

Definition start (fails : Oracle) (nb : Timestamp * Body.t) : Call :=
  mkCall fails (fst nb) (snd nb) AtStart.

Definition answered (c : Call) : bool :=
  match pc c with Done _ => true | _ => false end.

Definition answer_is (p : Response -> bool) (c : Call) : bool :=
  match pc c with Done r => p r | _ => false end.

Definition is_Booked (r : Response) : bool := code r =? 201.
Definition is_Conflict (r : Response) : bool := code r =? 409.

Definition count {A : Type} (p : A -> bool) (l : list A) : nat :=
  List.length (filter p l).

(** ** The cross-table invariant *)

Definition active (a : Appointment.t) : bool :=
  match Appointment.status a with
  | PENDING | CONFIRMED => true
  | FAILED | CANCELLED => false
  end.

Definition claims (sid : Z) (a : Appointment.t) : bool :=
  (Appointment.slot_id a =? sid) && active a.

Definition pending_on (sid : Z) (a : Appointment.t) : bool :=
  (Appointment.slot_id a =? sid)
  && Status_eqb (Appointment.status a) PENDING.

(** A slot is booked exactly when an appointment in PENDING or CONFIRMED
    refers to it, and at most one such appointment does. *)
Definition slot_consistent (apps : list Appointment.t) (s : Slot.t)
    : Prop :=
  (Slot.is_booked s = true <->
   exists a, In a apps /\ Appointment.slot_id a = Slot.id s
             /\ active a = true)
  /\ (count (claims (Slot.id s)) apps <= 1)%nat.

Definition Consistent (db : DB) : Prop :=
  forall s, In s (slots db) -> slot_consistent (appointments db) s.

Definition slot_consistentb (apps : list Appointment.t) (s : Slot.t)
    : bool :=
  let n := count (claims (Slot.id s)) apps in
  Bool.eqb (Slot.is_booked s) (0 <? n)%nat && (n <=? 1)%nat.

Definition consistentb (db : DB) : bool :=
  forallb (slot_consistentb (appointments db)) (slots db).

(** ** Calls for one slot *)

(** The calls of a set of requests, none of whose statements fails, before
    any of them has moved. *)
Definition init (db : DB) (reqs : list (Timestamp * Body.t)) : World :=
  mkWorld db (map (start no_faults) reqs).

(** The request passes validation and its parameters fit their columns. *)
Definition well_formed (body : Body.t) : bool :=
  negb (missing_field body)
  && match new_appointment 0 body 0 with Some _ => true | None => false end.

(** A call for the slot [sid] with a well-formed body and no failing
    statement. *)
Definition clean (sid : Z) (c : Call) : Prop :=
  (forall st, call_fails c st = false)
  /\ well_formed (call_body c) = true
  /\ bind_int4 (Body.slot_id (call_body c)) = Some sid.

(** The call has written and not yet committed. *)
Definition writing (c : Call) : bool :=
  match pc c with Inserted _ | Updated _ => true | _ => false end.



(** What holds of the row [sid] and of the calls for it in every state the
    calls can reach; [seq0] is the value of the id sequence before the
    calls. *)
Record lock_invariant (seq0 : Z) (sid : Z) (db : DB) (cs : list Call)
    : Prop :=
  mk_lock_invariant {
    inv_target :
      Forall (fun c => bind_int4 (Body.slot_id (call_body c)) = Some sid)
        cs;
    inv_slot : select_slot sid db <> [];
    inv_lock : (count (holds sid) cs <= 1)%nat;
    inv_rows :
      Forall (fun c => forall rows, pc c = Selected rows ->
                                    rows = select_slot sid db) cs;
    inv_new :
      Forall (fun c => forall a, pc c = Inserted a \/ pc c = Updated a ->
                                 Appointment.slot_id a = sid
                                 /\ Appointment.status a = PENDING) cs;
    inv_state :
      exists b,
        Forall (fun s => Slot.is_booked s = b) (select_slot sid db)
        /\ if b
           then count (answer_is is_Booked) cs = 1%nat
                /\ count (pending_on sid) (appointments db) = 1%nat
                /\ count writing cs = 0%nat
           else count (answer_is is_Booked) cs = 0%nat
                /\ count (pending_on sid) (appointments db) = 0%nat
                /\ count (answer_is is_Conflict) cs = 0%nat;
    inv_answers :
      seq0 <= INT4_MAX -> Forall (clean sid) cs ->
      Forall (fun c => forall r, pc c = Done r ->
                       r = Conflict \/ exists a, r = Booked a) cs;
    inv_booked :
      Forall (fun c => forall a, pc c = Done (Booked a) ->
                       In a (appointments db)
                       /\ Appointment.slot_id a = sid
                       /\ Appointment.status a = PENDING) cs;
    inv_seq :
      Forall (clean sid) cs ->
      appointments_id_seq db
      <= seq0 + Z.of_nat (count writing cs
                          + count (answer_is is_Booked) cs)
  }.

(** ** Sequences of core operations *)

Inductive Op : Type :=
| OpBook (fails : Oracle) (now : Timestamp) (body : Body.t)
| OpConfirm (fails : Oracle) (now : Timestamp) (id : string)
| OpCancel (fails : Oracle) (id : string)
| OpSweep (fails : Oracle) (now : Timestamp).

Definition apply_op (db : DB) (o : Op) : DB :=
  match o with
  | OpBook fails now body => snd (book fails now body db)
  | OpConfirm fails now id => snd (confirm fails now id db)
  | OpCancel fails id => snd (cancel fails id db)
  | OpSweep fails now => snd (sweep_tick fails now db)
  end.

Definition run (db : DB) (ops : list Op) : DB := fold_left apply_op ops db.

Definition is_cancel (o : Op) : bool :=
  match o with OpCancel _ _ => true | _ => false end.

(** ** The outcomes of [book] *)

(** Every way [book] can end: the answer and the tables it leaves. *)
Inductive book_outcome (now : Timestamp) (body : Body.t) (db : DB)
    : Response -> DB -> Prop :=
| book_invalid :
    missing_field body = true ->
    book_outcome now body db ValidationFailed db
| book_no_slot (sid : Z) :
    bind_int4 (Body.slot_id body) = Some sid ->
    select_slot sid db = [] ->
    book_outcome now body db SlotNotFound db
| book_conflict (sid : Z) (slot : Slot.t) (rest : list Slot.t) :
    bind_int4 (Body.slot_id body) = Some sid ->
    select_slot sid db = slot :: rest ->
    Slot.is_booked slot = true ->
    book_outcome now body db Conflict db
| book_error (seq : Z) :
    book_outcome now body db ErrorBooking
      (mkDB (slots db) (appointments db) seq)
| book_booked (sid : Z) (slot : Slot.t) (rest : list Slot.t)
    (a : Appointment.t) :
    missing_field body = false ->
    bind_int4 (Body.slot_id body) = Some sid ->
    select_slot sid db = slot :: rest ->
    Slot.is_booked slot = false ->
    new_appointment now body (appointments_id_seq db) = Some a ->
    book_outcome now body db (Booked a)
      (update_slot_is_booked true sid
         (mkDB (slots db) (appointments db ++ [a])
            (appointments_id_seq db + 1))).

(** ** Words of the interface *)

(** Timestamps count microseconds. *)
Definition second : Z := 1000000.
Definition minute : Z := 60 * second.

(** A field that is absent or falsy: missing, [null], [false], [0] or the
    empty string. *)
Definition absent_or_falsy (v : JValue) : Prop :=
  v = JUndefined \/ v = JNull \/ v = JBool false \/ v = JNum 0
  \/ v = JStr "".

(** An appointment with this id that [confirm] may still confirm. *)
Definition pending_with_id (n : Z) (db : DB) : Prop :=
  exists a, In a (appointments db) /\ Appointment.id a = n
            /\ Appointment.status a = PENDING.

(** The rows a tick selects: PENDING and booked before [now] minus the
    two-minute grace window. *)
Definition stale (now : Timestamp) (a : Appointment.t) : Prop :=
  Appointment.status a = PENDING
  /\ Appointment.booking_time a < now - 2 * minute.

(** ** Sample data *)

(** The three bytes of the full-width digit one. *)
Definition wide_one : string :=
  String "239" (String "188" (String "145" "")).

Definition slot1 : Slot.t :=
  Slot.mk 1 1 "2025-01-15" "10:00" "10:30" false 0.

Definition db_free : DB := mkDB [slot1] [] 1.

Definition patientA : Body.t :=
  Body.mk (JNum 1) (JStr "John Doe") (JStr "john@example.com")
    (JStr "+1234567890") (JNum 35) (JStr "Regular checkup").

Definition patientB : Body.t :=
  Body.mk (JNum 1) (JStr "Jane Roe") (JStr "jane@example.com")
    (JStr "+1987654321") (JNum 41) (JStr "Follow-up").

Definition newborn : Body.t :=
  Body.mk (JNum 1) (JStr "Baby Doe") (JStr "john@example.com")
    (JStr "+1234567890") (JNum 0) (JStr "First visit").

(** A reason that holds a zero byte. *)
Definition zero_byte_reason : Body.t :=
  Body.mk (JNum 1) (JStr "John Doe") (JStr "john@example.com")
    (JStr "+1234567890") (JNum 35) (JStr (String "000" "checkup")).

(** A phone number of eleven full-width digits: 33 bytes, 11 characters. *)
Definition wide_phone : Body.t :=
  Body.mk (JNum 1) (JStr "John Doe") (JStr "john@example.com")
    (JStr (String.concat "" (repeat wide_one 11))) (JNum 35)
    (JStr "Regular checkup").

(** The row [patientA]'s booking of slot 1 at time 0 inserts. *)
Definition appointmentA : Appointment.t :=
  Appointment.mk 1 1 "John Doe" "john@example.com" "+1234567890" 35
    "Regular checkup" PENDING 0 None.

(** [patientA] has booked slot 1 at time 0. *)
Definition db_pending : DB := snd (book no_faults 0 patientA db_free).

(** Slot 1 was booked by [patientA], whose booking expired, and then by
    [patientB]: appointment 1 is FAILED, appointment 2 is PENDING. *)
Definition history_stale : list Op :=
  [OpBook no_faults 0 patientA; OpSweep no_faults (3 * minute);
   OpBook no_faults (4 * minute) patientB].

Definition db_stale : DB := run db_free history_stale.

(** An environment that sets the two options of the interface. *)
Definition env_custom : Env :=
  fun name =>
    if (name =? "sweepIntervalSeconds")%string then Some "10"
    else if (name =? "pendingGraceSeconds")%string then Some "300"
    else None.

Definition env_empty : Env := fun _ => None.

(** The connection is lost when the slot is to be marked booked. *)
Definition update_fails : Oracle :=
  fun st => match st with UPDATE_SLOT_BOOKED => true | _ => false end.

(** Two patients ask for slot 1 at the same time; the scheduler lets them
    take turns, [patientB] first. *)
Definition rush : list (Timestamp * Body.t) :=
  [(0, patientA); (1, patientB)].


(** Slot 1 is booked by [patientA], refused to [patientB], confirmed,
    cancelled and then booked by [patientB]. *)
Definition history_rebook : list Op :=
  [OpBook no_faults 0 patientA; OpBook no_faults second patientB;
   OpConfirm no_faults (2 * second) "1"; OpCancel no_faults "1";
   OpBook no_faults (3 * second) patientB].

(** ** What the core operations keep *)

(** The primary key of [appointments] and the sequence that feeds it: ids
    are distinct and below the next value of the sequence. *)
Definition keys_ok (db : DB) : Prop :=
  NoDup (map Appointment.id (appointments db))
  /\ Forall (fun a => Appointment.id a < appointments_id_seq db)
       (appointments db).

(** The columns of an appointment that say who booked what and when. *)
Definition same_booking (a a' : Appointment.t) : Prop :=
  Appointment.id a' = Appointment.id a
  /\ Appointment.slot_id a' = Appointment.slot_id a
  /\ Appointment.patient_name a' = Appointment.patient_name a
  /\ Appointment.patient_email a' = Appointment.patient_email a
  /\ Appointment.patient_phone a' = Appointment.patient_phone a
  /\ Appointment.patient_age a' = Appointment.patient_age a
  /\ Appointment.reason_for_visit a' = Appointment.reason_for_visit a
  /\ Appointment.booking_time a' = Appointment.booking_time a.

(** The changes of status the statements of server.js can add up to:
    PENDING to anything, CONFIRMED and FAILED to themselves or to
    CANCELLED, CANCELLED to itself. *)
Definition moves (s s' : Status) : bool :=
  match s, s' with
  | PENDING, _ => true
  | CONFIRMED, (CONFIRMED | CANCELLED) => true
  | FAILED, (FAILED | CANCELLED) => true
  | CANCELLED, CANCELLED => true
  | _, _ => false
  end.

(** The later table holds the rows of the earlier one, in place and related
    by [R], followed by the rows inserted since. *)
Definition grows (R : Appointment.t -> Appointment.t -> Prop)
    (apps apps' : list Appointment.t) : Prop :=
  exists kept more, apps' = kept ++ more /\ Forall2 R apps kept.

(** [confirmation_time] against [status]: NULL while PENDING or FAILED, set
    while CONFIRMED. *)
Definition stamped (a : Appointment.t) : Prop :=
  match Appointment.status a with
  | PENDING | FAILED => Appointment.confirmation_time a = None
  | CONFIRMED => Appointment.confirmation_time a <> None
  | CANCELLED => True
  end.

(** A slot row with nothing changed but, perhaps, its flag. *)
Definition same_slot (s s' : Slot.t) : Prop :=
  s' = Slot.set_is_booked (Slot.is_booked s') s.

(** What one statement of a handler or of the sweeper does to a row of
    [appointments]. *)
Inductive row_step : Appointment.t -> Appointment.t -> Prop :=
| row_same (a : Appointment.t) : row_step a a
| row_confirmed (a : Appointment.t) (now : Timestamp) :
    Appointment.status a = PENDING -> row_step a (confirm_row now a)
| row_cancelled (a : Appointment.t) :
    row_step a (Appointment.set_status CANCELLED a)
| row_failed (a : Appointment.t) :
    Appointment.status a = PENDING ->
    row_step a (Appointment.set_status FAILED a).


(** [patientA] has booked slot 1 and confirmed. *)
Definition db_confirmed : DB :=
  snd (confirm no_faults minute "1" db_pending).

(** The row of the confirmed booking. *)
Definition appointmentA_confirmed : Appointment.t :=
  confirm_row minute appointmentA.

(** Ticks, a refused booking and a repeated confirmation. *)
Definition history_quiet : list Op :=
  [OpSweep no_faults (5 * minute); OpBook no_faults (6 * minute) patientB;
   OpConfirm no_faults (7 * minute) "1"; OpSweep no_faults (9 * minute)].

(** ** The client (services/api.ts, pages/MyAppointments.tsx) *)

(** The range of an [INTEGER]. *)
Definition in_int4 (v : Z) : bool := (INT4_MIN <=? v) && (v <=? INT4_MAX).

(** [confirmAppointment(appointmentId)]: the id is spliced into the path
    [/api/appointments/${appointmentId}/confirm]; the route hands the
    segment to the handler. *)
Definition confirmAppointment (fails : Oracle) (now : Timestamp)
    (appointmentId : Z) (db : DB) : Response * DB :=
  confirm fails now (number_to_string appointmentId) db.

(** [cancelAppointment(appointmentId)]. *)
Definition cancelAppointment (fails : Oracle) (appointmentId : Z) (db : DB)
    : Response * DB :=
  cancel fails (number_to_string appointmentId) db.

(** The text of a status as the server stores and sends it. *)
Definition status_text (s : Status) : string :=
  match s with
  | PENDING => "PENDING"
  | CONFIRMED => "CONFIRMED"
  | FAILED => "FAILED"
  | CANCELLED => "CANCELLED"
  end.

(** [getStatusColor]. *)
Definition getStatusColor (status : string) : string :=
  if (status =? "CONFIRMED")%string then "status-confirmed"
  else if (status =? "PENDING")%string then "status-pending"
  else if (status =? "CANCELLED")%string then "status-cancelled"
  else if (status =? "FAILED")%string then "status-failed"
  else "".

(** What the card of an appointment shows under its details. *)
Inductive Action : Type :=
| ConfirmButton
| CancelButton
| ExpiredNotice.

(** The three conditional blocks of [appointment-actions]. *)
Definition actions (status : string) : list Action :=
  (if (status =? "PENDING")%string then [ConfirmButton; CancelButton]
   else [])
  ++ (if (status =? "CONFIRMED")%string then [CancelButton] else [])
  ++ (if (status =? "FAILED")%string then [ExpiredNotice] else []).

(** Two calls for slot 1; the connection of the first is lost when it
    marks the slot. *)
Definition rush_with_failure : list Call :=
  [mkCall update_fails 0 patientA AtStart;
   mkCall no_faults 1 patientB AtStart].

(** The first call runs until it has answered, then the second. *)
Definition one_after_the_other : list nat :=
  [0%nat; 0%nat; 0%nat; 0%nat; 1%nat; 1%nat; 1%nat; 1%nat; 1%nat].

(** A booking that is rolled back, one that goes through and is
    confirmed and cancelled, and a third. *)
Definition history_mixed : list Op :=
  [OpBook update_fails 0 patientB; OpBook no_faults minute patientA;
   OpConfirm no_faults (2 * minute) "2"; OpCancel no_faults "2";
   OpBook no_faults (3 * minute) patientB].

(** ** The catalogue and the read endpoints of server.js *)

Module Doctor.
Record t : Type := mk {
  id : Z;
  name : string;
  email : string;
  specialty : string;
  consultation_fee : Z;
  created_at : Timestamp
}.
End Doctor.

(** The whole database: the [doctors] table, the sequences behind
    [doctors.id] and [slots.id], and the two tables of the core.
    [consultation_fee DECIMAL(10,2)] is held in hundredths. *)
Record Store : Type := mkStore {
  doctors : list Doctor.t;
  doctors_id_seq : Z;
  slots_id_seq : Z;
  core : DB
}.

Definition with_core (db : DB) (st : Store) : Store :=
  mkStore (doctors st) (doctors_id_seq st) (slots_id_seq st) db.

(** A handler of the core, run on the whole database. *)
Definition on_core {R : Type} (handler : DB -> R * DB) (st : Store)
    : R * Store :=
  (fst (handler (core st)), with_core (snd (handler (core st))) st).

(** [res.status(code).json({ success, message, data })] of the remaining
    endpoints ([res.json] answers 200); the [error] text that two of the
    500 answers carry is left out. *)
Record Reply (A : Type) : Type := mkReply {
  reply_code : Z;
  reply_success : bool;
  reply_message : option string;
  reply_data : option A
}.
Arguments mkReply {A} _ _ _ _.
Arguments reply_code {A} _.
Arguments reply_success {A} _.
Arguments reply_message {A} _.
Arguments reply_data {A} _.

Definition refused {A : Type} (c : Z) (msg : string) : Reply A :=
  mkReply c false (Some msg) None.

Module DoctorBody.
Record t : Type := mk {
  name : JValue;
  email : JValue;
  specialty : JValue;
  consultation_fee : JValue
}.
End DoctorBody.

Module SlotBody.
Record t : Type := mk {
  doctor_id : JValue;
  slot_date : JValue;
  start_time : JValue;
  end_time : JValue
}.
End SlotBody.

(** A row of [GET /api/slots/available]: [s.*] and the three columns of
    the doctor. *)
Record SlotRow : Type := mkSlotRow {
  row_slot : Slot.t;
  slot_doctor_name : string;
  slot_specialty : string;
  slot_consultation_fee : Z
}.

(** A row of [GET /api/appointments]: [a.*], three columns of the slot and
    three of the doctor. *)
Record AppointmentRow : Type := mkAppointmentRow {
  row_appointment : Appointment.t;
  row_slot_date : string;
  row_start_time : string;
  row_end_time : string;
  row_doctor_name : string;
  row_specialty : string;
  row_consultation_fee : Z
}.

(** The row of [GET /api/dashboard/stats]. *)
Record Stats : Type := mkStats {
  total_doctors : nat;
  available_slots : nat;
  pending_appointments : nat;
  confirmed_appointments : nat
}.

(** [ORDER BY]: insertion of the rows one by one, each before the first
    row it does not come after. *)
Fixpoint insert_by {A : Type} (le : A -> A -> bool) (x : A) (l : list A)
    : list A :=
  match l with
  | [] => [x]
  | y :: r => if le x y then x :: l else y :: insert_by le x r
  end.

Definition order_by {A : Type} (le : A -> A -> bool) (l : list A)
    : list A :=
  fold_right (insert_by le) [] l.

(** [FROM slots s JOIN doctors d ON s.doctor_id = d.id]. *)
Definition slots_with_doctors (st : Store) : list SlotRow :=
  flat_map
    (fun s =>
       map (fun d => mkSlotRow s (Doctor.name d) (Doctor.specialty d)
                       (Doctor.consultation_fee d))
         (filter (fun d => Slot.doctor_id s =? Doctor.id d) (doctors st)))
    (slots (core st)).

(** [FROM appointments a JOIN slots s ON a.slot_id = s.id JOIN doctors d
    ON s.doctor_id = d.id]. *)
Definition appointments_with_slots (st : Store) : list AppointmentRow :=
  flat_map
    (fun a =>
       flat_map
         (fun s =>
            map (fun d =>
                   mkAppointmentRow a (Slot.slot_date s) (Slot.start_time s)
                     (Slot.end_time s) (Doctor.name d) (Doctor.specialty d)
                     (Doctor.consultation_fee d))
              (filter (fun d => Slot.doctor_id s =? Doctor.id d)
                 (doctors st)))
         (filter (fun s => Appointment.slot_id a =? Slot.id s)
            (slots (core st))))
    (appointments (core st)).

(** [ORDER BY a.booking_time DESC]. *)
Definition newest_first (r1 r2 : AppointmentRow) : bool :=
  Appointment.booking_time (row_appointment r2)
  <=? Appointment.booking_time (row_appointment r1).

(** [GET /api/appointments]; [patient_email] is [req.query.patient_email];
    [fails] says that the query fails for a reason outside the tables.  A
    parameter the server does not take as text makes it fail as well. *)
Definition getAppointments (fails : bool) (patient_email : JValue)
    (st : Store) : Reply (list AppointmentRow) :=
  if fails then refused 500 "Error fetching appointments"
  else
    if truthy patient_email
    then match bind_text patient_email with
         | Some e =>
             mkReply 200 true None
               (Some (order_by newest_first
                        (filter (fun r =>
                                   (Appointment.patient_email
                                      (row_appointment r) =? e)%string)
                           (appointments_with_slots st))))
         | None => refused 500 "Error fetching appointments"
         end
    else mkReply 200 true None
           (Some (order_by newest_first (appointments_with_slots st))).

Section Catalogue.

(** Taken from PostgreSQL: the input of a [DECIMAL(10,2)] (in hundredths),
    of a [DATE] and of a [TIME] (each to the one text that stands for the
    value), and the orders of dates, of times and of names under the
    collation of the database. *)
Variable numeric_in : string -> option Z.
Variable date_in : string -> option string.
Variable time_in : string -> option string.
Variable date_leb : string -> string -> bool.
Variable time_leb : string -> string -> bool.
Variable name_leb : string -> string -> bool.

(** [s.is_booked = FALSE AND s.slot_date >= CURRENT_DATE]. *)
Definition bookable (today : string) (s : Slot.t) : bool :=
  negb (Slot.is_booked s) && date_leb today (Slot.slot_date s).

(** [ORDER BY s.slot_date ASC, s.start_time ASC]. *)
Definition earliest_first (r1 r2 : SlotRow) : bool :=
  let d1 := Slot.slot_date (row_slot r1) in
  let d2 := Slot.slot_date (row_slot r2) in
  if date_leb d1 d2
  then if date_leb d2 d1
       then time_leb (Slot.start_time (row_slot r1))
              (Slot.start_time (row_slot r2))
       else true
  else false.

(** [GET /api/slots/available]; [doctor_id] is [req.query.doctor_id],
    [today] is [CURRENT_DATE]. *)
Definition getAvailableSlots (fails : bool) (today : string)
    (doctor_id : JValue) (st : Store) : Reply (list SlotRow) :=
  if fails then refused 500 "Error fetching slots"
  else
    let open_rows :=
      filter (fun r => bookable today (row_slot r))
        (slots_with_doctors st) in
    if truthy doctor_id
    then match bind_int4 doctor_id with
         | Some n =>
             mkReply 200 true (Some "Available slots retrieved")
               (Some (order_by earliest_first
                        (filter (fun r => Slot.doctor_id (row_slot r) =? n)
                           open_rows)))
         | None => refused 500 "Error fetching slots"
         end
    else mkReply 200 true (Some "Available slots retrieved")
           (Some (order_by earliest_first open_rows)).

(** [GET /api/dashboard/stats]. *)
Definition getDashboardStats (fails : bool) (today : string) (st : Store)
    : Reply Stats :=
  if fails then refused 500 "Error fetching stats"
  else
    mkReply 200 true None
      (Some
         (mkStats (List.length (doctors st))
            (count (bookable today) (slots (core st)))
            (count (fun a => Status_eqb (Appointment.status a) PENDING)
               (appointments (core st)))
            (count (fun a => Status_eqb (Appointment.status a) CONFIRMED)
               (appointments (core st))))).

(** [POST /api/doctors]: the row is refused when a parameter does not fit
    its column, when the sequence of ids has no value left or when [email]
    is taken ([UNIQUE]); a refused row that reached the table has drawn its
    id. *)
Definition createDoctor (fails : bool) (now : Timestamp)
    (body : DoctorBody.t) (st : Store) : Reply Doctor.t * Store :=
  if falsy (DoctorBody.name body) || falsy (DoctorBody.email body)
     || falsy (DoctorBody.specialty body)
     || falsy (DoctorBody.consultation_fee body)
  then (refused 400 "All fields are required", st)
  else if fails then (refused 500 "Error creating doctor", st)
  else
    match bind_varchar 255 (DoctorBody.name body),
          bind_varchar 255 (DoctorBody.email body),
          bind_varchar 100 (DoctorBody.specialty body),
          match bind_text (DoctorBody.consultation_fee body) with
          | Some t => numeric_in t
          | None => None
          end with
    | Some name, Some email, Some specialty, Some fee =>
        let burnt :=
          mkStore (doctors st) (doctors_id_seq st + 1) (slots_id_seq st)
            (core st) in
        if INT4_MAX <? doctors_id_seq st
        then (refused 500 "Error creating doctor", st)
        else if existsb (fun d => (Doctor.email d =? email)%string)
                  (doctors st)
        then (refused 500 "Error creating doctor", burnt)
        else
          let row :=
            Doctor.mk (doctors_id_seq st) name email specialty fee now in
          (mkReply 201 true (Some "Doctor created successfully") (Some row),
           mkStore (doctors st ++ [row]) (doctors_id_seq st + 1)
             (slots_id_seq st) (core st))
    | _, _, _, _ => (refused 500 "Error creating doctor", st)
    end.

(** [GET /api/doctors]. *)
Definition getAllDoctors (fails : bool) (st : Store)
    : Reply (list Doctor.t) :=
  if fails then refused 500 "Error fetching doctors"
  else
    mkReply 200 true (Some "Doctors retrieved successfully")
      (Some (order_by
               (fun d1 d2 => name_leb (Doctor.name d1) (Doctor.name d2))
               (doctors st))).

(** [GET /api/doctors/:id]. *)
Definition getDoctorById (fails : bool) (id : string) (st : Store)
    : Reply Doctor.t :=
  if fails then refused 500 "Error fetching doctor"
  else
    match int4in id with
    | Some n =>
        match filter (fun d => Doctor.id d =? n) (doctors st) with
        | [] => refused 404 "Doctor not found"
        | row :: _ => mkReply 200 true None (Some row)
        end
    | None => refused 500 "Error fetching doctor"
    end.

(** [POST /api/slots]: the row is refused when a parameter does not fit
    its column, when the sequence of ids has no value left, when no doctor
    has the id ([REFERENCES doctors]) or when the doctor already has a slot
    at that date and start time ([UNIQUE]). *)
Definition createSlot (fails : bool) (now : Timestamp) (body : SlotBody.t)
    (st : Store) : Reply Slot.t * Store :=
  if falsy (SlotBody.doctor_id body) || falsy (SlotBody.slot_date body)
     || falsy (SlotBody.start_time body) || falsy (SlotBody.end_time body)
  then (refused 400 "All fields are required", st)
  else if fails then (refused 500 "Error creating slot", st)
  else
    match bind_int4 (SlotBody.doctor_id body),
          match bind_text (SlotBody.slot_date body) with
          | Some t => date_in t
          | None => None
          end,
          match bind_text (SlotBody.start_time body) with
          | Some t => time_in t
          | None => None
          end,
          match bind_text (SlotBody.end_time body) with
          | Some t => time_in t
          | None => None
          end with
    | Some doctor, Some date, Some start, Some finish =>
        let burnt :=
          mkStore (doctors st) (doctors_id_seq st) (slots_id_seq st + 1)
            (core st) in
        if INT4_MAX <? slots_id_seq st
        then (refused 500 "Error creating slot", st)
        else if negb (existsb (fun d => Doctor.id d =? doctor) (doctors st))
           || existsb
                (fun s => (Slot.doctor_id s =? doctor)
                          && (Slot.slot_date s =? date)%string
                          && (Slot.start_time s =? start)%string)
                (slots (core st))
        then (refused 500 "Error creating slot", burnt)
        else
          let row :=
            Slot.mk (slots_id_seq st) doctor date start finish false now in
          (mkReply 201 true (Some "Slot created successfully") (Some row),
           mkStore (doctors st) (doctors_id_seq st) (slots_id_seq st + 1)
             (with_slots (slots (core st) ++ [row]) (core st)))
    | _, _, _, _ => (refused 500 "Error creating slot", st)
    end.

(** A request that writes: one of the two of the catalogue (with the
    failure of its statement) or one of the core. *)
Inductive Request : Type :=
| CreateDoctor (fails : bool) (now : Timestamp) (body : DoctorBody.t)
| CreateSlot (fails : bool) (now : Timestamp) (body : SlotBody.t)
| Core (o : Op).

Definition is_core (r : Request) : bool :=
  match r with Core _ => true | _ => false end.

Definition serve (st : Store) (r : Request) : Store :=
  match r with
  | CreateDoctor fails now body => snd (createDoctor fails now body st)
  | CreateSlot fails now body => snd (createSlot fails now body st)
  | Core o => with_core (apply_op (core st) o) st
  end.

End Catalogue.

(** [REFERENCES doctors(id)] and [REFERENCES slots(id)]: every slot has its
    doctor and every appointment its slot. *)
Definition references_ok (st : Store) : Prop :=
  (forall s, In s (slots (core st)) ->
     exists d, In d (doctors st) /\ Slot.doctor_id s = Doctor.id d)
  /\ (forall a, In a (appointments (core st)) ->
        exists s, In s (slots (core st))
                  /\ Appointment.slot_id a = Slot.id s).

(** [PRIMARY KEY] of [doctors] and of [slots], with ids drawn from the
    sequences, and [UNIQUE] of [doctors.email]. *)
Definition catalogue_keys_ok (st : Store) : Prop :=
  NoDup (map Doctor.id (doctors st))
  /\ Forall (fun d => Doctor.id d < doctors_id_seq st) (doctors st)
  /\ NoDup (map Doctor.email (doctors st))
  /\ NoDup (map Slot.id (slots (core st)))
  /\ Forall (fun s => Slot.id s < slots_id_seq st) (slots (core st)).

Definition store_ok (st : Store) : Prop :=
  references_ok st /\ catalogue_keys_ok st /\ keys_ok (core st).

(** Sample input functions: a fee in whole units, a date and a time taken
    as written, dates and times compared as text. *)
Definition whole_amount (t : string) : option Z :=
  match int4in t with
  | Some n => Some (100 * n)
  | None => None
  end.

Definition as_written (t : string) : option string := Some t.

Definition doctor1 : Doctor.t :=
  Doctor.mk 1 "Dr. Sarah Johnson" "sarah.johnson@hospital.com" "Cardiology"
    50000 0.

Definition store_free : Store := mkStore [doctor1] 2 2 db_free.

Definition slot2 : Slot.t :=
  Slot.mk 2 1 "2025-01-16" "11:00" "11:30" false 0.

Definition store_two : Store :=
  mkStore [doctor1] 2 3 (mkDB [slot1; slot2] [] 1).

Definition store_pending : Store := with_core db_pending store_free.

Definition doctor_form : DoctorBody.t :=
  DoctorBody.mk (JStr "Dr. Raj Patel") (JStr "raj.patel@hospital.com")
    (JStr "Neurology") (JNum 750).

Definition slot_form : SlotBody.t :=
  SlotBody.mk (JNum 1) (JStr "2025-01-16") (JStr "11:00") (JStr "11:30").

(** A doctor and a slot are added, slot 1 is booked and the booking is
    cancelled; a second doctor with the same email is refused. *)
Definition requests_mixed : list Request :=
  [CreateDoctor false 5 doctor_form; CreateSlot false 6 slot_form;
   Core (OpBook no_faults 7 patientA); CreateDoctor false 8 doctor_form;
   Core (OpCancel no_faults "1")].

(** ** The doctor search (pages/UserDashboard.tsx) *)

(** [hay.includes(needle)]. *)
Fixpoint includes (needle hay : string) : bool :=
  match hay with
  | EmptyString => prefix needle hay
  | String _ rest => prefix needle hay || includes needle rest
  end.

(** [new Set(...)], read back with [Array.from]: each value once, in the
    order of its first occurrence. *)
Definition set_add (seen : list string) (s : string) : list string :=
  if existsb (String.eqb s) seen then seen else seen ++ [s].

Definition specialties (doctors : list Doctor.t) : list string :=
  fold_left set_add (map Doctor.specialty doctors) [].

Section Search.

(** [String.prototype.toLowerCase]. *)
Variable toLowerCase : string -> string.

Definition filteredDoctors (searchTerm selectedSpecialty : string)
    (doctors : list Doctor.t) : list Doctor.t :=
  filter
    (fun doctor =>
       let matchesSearch :=
         includes (toLowerCase searchTerm) (toLowerCase (Doctor.name doctor))
         || includes (toLowerCase searchTerm)
              (toLowerCase (Doctor.specialty doctor)) in
       let matchesSpecialty :=
         (selectedSpecialty =? "")%string
         || (Doctor.specialty doctor =? selectedSpecialty)%string in
       matchesSearch && matchesSpecialty)
    doctors.

End Search.

(** Lower case of the letters A to Z, a sample of [toLowerCase]. *)
Definition lower_ascii (c : ascii) : ascii :=
  let n := nat_of_ascii c in
  if ((65 <=? n) && (n <=? 90))%nat then ascii_of_nat (n + 32) else c.

Fixpoint lower (s : string) : string :=
  match s with
  | EmptyString => EmptyString
  | String c rest => String (lower_ascii c) (lower rest)
  end.

Definition doctor2 : Doctor.t :=
  Doctor.mk 2 "Dr. Raj Patel" "raj.patel@hospital.com" "Neurology" 75000 5.

Definition doctor3 : Doctor.t :=
  Doctor.mk 3 "Dr. Amy Chen" "amy.chen@hospital.com" "Cardiology" 60000 9.

(** ** Evaluation of the input functions *)

Example int4in_plain : int4in "42" = Some 42.
Proof. reflexivity. Qed.

Example int4in_blank_sign : int4in "  -7 " = Some (-7).
Proof. reflexivity. Qed.

Example int4in_word : int4in "abc" = None.
Proof. reflexivity. Qed.

Example int4in_range : int4in "2147483648" = None.
Proof. reflexivity. Qed.

Example bind_int4_num : bind_int4 (JNum 12) = Some 12.
Proof. reflexivity. Qed.

Example bind_int4_negative : bind_int4 (JNum (-3)) = Some (-3).
Proof. reflexivity. Qed.

Example bind_int4_text : bind_int4 (JStr "1") = Some 1.
Proof. reflexivity. Qed.

Example bind_int4_other : bind_int4 (JOther "{1,2}") = None.
Proof. reflexivity. Qed.

Example int4in_hexadecimal : int4in " 0x1F" = Some 31.
Proof. reflexivity. Qed.

Example int4in_binary_octal :
  int4in "-0b101" = Some (-5) /\ int4in "0o17" = Some 15.
Proof. split; reflexivity. Qed.

Example int4in_underscores :
  int4in "1_000" = Some 1000 /\ int4in "1_" = None /\ int4in "_1" = None
  /\ int4in "1__0" = None /\ int4in "0x_1" = Some 1 /\ int4in "0x" = None.
Proof. repeat split; reflexivity. Qed.

Example int4in_exponent_text : int4in "1e3" = None.
Proof. reflexivity. Qed.

Example varcharin_long : varcharin 3 "abcd" = None.
Proof. reflexivity. Qed.

Example varcharin_padded : varcharin 3 "abc  " = Some "abc".
Proof. reflexivity. Qed.

(** Two characters of three bytes each fit a [VARCHAR(2)]; a third one
    does not. *)
Example varcharin_characters :
  varcharin 2 (wide_one ++ wide_one)%string
  = Some (wide_one ++ wide_one)%string
  /\ varcharin 2 (wide_one ++ wide_one ++ wide_one)%string = None
  /\ varcharin 2 (wide_one ++ wide_one ++ " ")%string
     = Some (wide_one ++ wide_one)%string.
Proof. repeat split; reflexivity. Qed.

Example textin_zero_byte :
  textin (String "000" "a") = None /\ varcharin 5 (String "000" "a") = None
  /\ bind_text (JStr (String "000" "a")) = None.
Proof. repeat split; reflexivity. Qed.

Example textin_not_utf8 : textin (String "192" (String "128" "")) = None.
Proof. reflexivity. Qed.

Example number_to_string_values :
  number_to_string (-35) = "-35"
  /\ number_to_string (2 ^ 53 + 1) = "9007199254740992"
  /\ number_to_string (2 ^ 60) = "1152921504606847000"
  /\ number_to_string (10 ^ 21 - 1) = "1e+21"
  /\ number_to_string (2 ^ 70) = "1.1805916207174113e+21"
  /\ number_to_string (- 2 ^ 1024) = "-Infinity".
Proof. repeat split; vm_compute; reflexivity. Qed.

Example bind_varchar_large_number :
  bind_varchar 20 (JNum (10 ^ 21)) = Some "1e+21".
Proof. vm_compute. reflexivity. Qed.

Example book_free_slot :
  book no_faults 0 patientA db_free
  = (Booked (Appointment.mk 1 1 "John Doe" "john@example.com" "+1234567890"
               35 "Regular checkup" PENDING 0 None),
     mkDB [Slot.set_is_booked true slot1]
       [Appointment.mk 1 1 "John Doe" "john@example.com" "+1234567890" 35
          "Regular checkup" PENDING 0 None] 2).
Proof. reflexivity. Qed.

Example book_taken_slot :
  book no_faults second patientB db_pending = (Conflict, db_pending).
Proof. reflexivity. Qed.

Example book_zero_byte :
  well_formed zero_byte_reason = false
  /\ book no_faults 0 zero_byte_reason db_free = (ErrorBooking, db_free).
Proof. split; reflexivity. Qed.

Example book_wide_phone :
  well_formed wide_phone = true
  /\ code (fst (book no_faults 0 wide_phone db_free)) = 201.
Proof. split; reflexivity. Qed.

Example book_sequence_exhausted :
  book no_faults 0 patientA (mkDB [slot1] [] 2147483648)
  = (ErrorBooking, mkDB [slot1] [] 2147483648).
Proof. reflexivity. Qed.

Example confirm_hexadecimal_id :
  code (fst (confirm no_faults minute "0x1" db_pending)) = 200.
Proof. reflexivity. Qed.

(** ** Validation *)

Lemma absent_or_falsy_falsy (v : JValue) :
  absent_or_falsy v -> falsy v = true.
Proof.
  intros [H | [H | [H | [H | H]]]]; subst v; reflexivity.
Qed.

Lemma book_missing_field (fails : Oracle) (now : Timestamp) (body : Body.t)
    (db : DB) :
  missing_field body = true ->
  book fails now body db = (ValidationFailed, db).
Proof.
  intros H. unfold book, book_try. rewrite H. reflexivity.
Qed.

(** C10. [book] answers ValidationFailed whenever the slot id or a patient
    field is absent or falsy (a [patient_age] of 0 and an empty string
    count as missing).  The answer and the tables are the same whatever
    statement would fail: no statement is sent, the transaction is not
    opened and neither table is touched. *)
Theorem book_rejects_absent_or_falsy (fails : Oracle) (now : Timestamp)
    (body : Body.t) (db : DB) :
  absent_or_falsy (Body.slot_id body)
  \/ absent_or_falsy (Body.patient_name body)
  \/ absent_or_falsy (Body.patient_email body)
  \/ absent_or_falsy (Body.patient_phone body)
  \/ absent_or_falsy (Body.patient_age body)
  \/ absent_or_falsy (Body.reason_for_visit body) ->
  book fails now body db = (ValidationFailed, db).
Proof.
  intros H. apply book_missing_field. unfold missing_field.
  repeat rewrite orb_true_iff.
  destruct H as [H | [H | [H | [H | [H | H]]]]];
    apply absent_or_falsy_falsy in H; tauto.
Qed.

Lemma book_rejects_absent_or_falsy_witness :
  absent_or_falsy (Body.patient_age newborn)
  /\ book (fun _ => true) 0 newborn db_free = (ValidationFailed, db_free).
Proof.
  assert (H : absent_or_falsy (Body.patient_age newborn)).
  { right. right. right. left. reflexivity. }
  split; [exact H |].
  apply book_rejects_absent_or_falsy. do 4 right. left. exact H.
Defined.

(** ** Rows of an [UPDATE ... WHERE] *)

Lemma map_where_none {A : Type} (p : A -> bool) (f : A -> A) (l : list A) :
  (forall a, In a l -> p a = false) ->
  map (fun a => if p a then f a else a) l = l.
Proof.
  induction l as [| a l IH]; intros H; simpl; [reflexivity |].
  rewrite (H a (or_introl eq_refl)). f_equal.
  apply IH. intros b Hb. apply H. right. exact Hb.
Qed.

Lemma filter_none {A : Type} (p : A -> bool) (l : list A) :
  (forall a, In a l -> p a = false) -> filter p l = [].
Proof.
  induction l as [| a l IH]; intros H; simpl; [reflexivity |].
  rewrite (H a (or_introl eq_refl)).
  apply IH. intros b Hb. apply H. right. exact Hb.
Qed.

Lemma filter_some {A : Type} (p : A -> bool) (l : list A) (a : A) :
  In a l -> p a = true -> exists b rest, filter p l = b :: rest.
Proof.
  intros Hin Hp.
  destruct (filter p l) as [| b rest] eqn:E.
  - assert (Hf : In a (filter p l)) by (apply filter_In; auto).
    rewrite E in Hf. destruct Hf.
  - eauto.
Qed.

Lemma Status_eqb_eq (a b : Status) : Status_eqb a b = true <-> a = b.
Proof. destruct a, b; simpl; split; congruence. Qed.

Lemma confirmable_iff (n : Z) (a : Appointment.t) :
  confirmable n a = true
  <-> Appointment.id a = n /\ Appointment.status a = PENDING.
Proof.
  unfold confirmable. rewrite andb_true_iff, Z.eqb_eq, Status_eqb_eq.
  tauto.
Qed.

Lemma not_pending_with_id (n : Z) (db : DB) :
  ~ pending_with_id n db ->
  forall a, In a (appointments db) -> confirmable n a = false.
Proof.
  intros H a Ha. destruct (confirmable n a) eqn:E; [| reflexivity].
  exfalso. apply H. apply confirmable_iff in E. exists a. tauto.
Qed.

Lemma with_appointments_same (db : DB) :
  with_appointments (appointments db) db = db.
Proof. destruct db; reflexivity. Qed.

(** ** confirm *)

Lemma confirm_rejected (now : Timestamp) (id : string) (n : Z) (db : DB) :
  int4in id = Some n -> ~ pending_with_id n db ->
  confirm no_faults now id db = (NotFoundOrAlreadyProcessed, db).
Proof.
  intros Hid Hno. unfold confirm, query, update_confirm. simpl.
  rewrite Hid.
  pose proof (not_pending_with_id n db Hno) as Hnone.
  rewrite (filter_none _ _ Hnone), (map_where_none _ _ _ Hnone). simpl.
  rewrite with_appointments_same. reflexivity.
Qed.

Lemma confirm_accepted (now : Timestamp) (id : string) (n : Z) (db : DB) :
  int4in id = Some n -> pending_with_id n db ->
  exists a,
    In a (appointments db) /\ Appointment.id a = n
    /\ Appointment.status a = PENDING
    /\ confirm no_faults now id db
       = (Confirmed (confirm_row now a),
          with_appointments
            (map (fun b => if confirmable n b then confirm_row now b else b)
               (appointments db)) db).
Proof.
  intros Hid (a & Ha & Hn & Hst).
  destruct (filter_some (confirmable n) (appointments db) a Ha) as
    (b & rest & E).
  { apply confirmable_iff. tauto. }
  assert (Hb : In b (filter (confirmable n) (appointments db))).
  { rewrite E. left. reflexivity. }
  apply filter_In in Hb. destruct Hb as [Hb Hc].
  apply confirmable_iff in Hc.
  exists b. repeat split; try tauto.
  unfold confirm, query, update_confirm. simpl. rewrite Hid, E.
  reflexivity.
Qed.

(** C5. For an integer id and a statement that does not fail, [confirm]
    succeeds exactly when an appointment with that id is PENDING.  It then
    answers with that row, now CONFIRMED with [confirmation_time = now],
    sets exactly the PENDING rows with that id to CONFIRMED and leaves every
    other row, every slot and the sequence as they were.  Otherwise (no such
    id, or a status other than PENDING) it answers
    NotFoundOrAlreadyProcessed and returns the tables unchanged. *)
Theorem confirm_iff_pending (now : Timestamp) (id : string) (n : Z)
    (db : DB) :
  int4in id = Some n ->
  let r := fst (confirm no_faults now id db) in
  let db' := snd (confirm no_faults now id db) in
  (success r = true <-> pending_with_id n db)
  /\ (pending_with_id n db ->
      (exists a, In a (appointments db) /\ Appointment.id a = n
                 /\ Appointment.status a = PENDING
                 /\ r = Confirmed (confirm_row now a)
                 /\ Appointment.status (confirm_row now a) = CONFIRMED
                 /\ Appointment.confirmation_time (confirm_row now a)
                    = Some now)
      /\ Forall2
           (fun a a' =>
              (Appointment.id a = n /\ Appointment.status a = PENDING ->
               a' = confirm_row now a)
              /\ (~ (Appointment.id a = n /\ Appointment.status a = PENDING)
                  -> a' = a))
           (appointments db) (appointments db')
      /\ slots db' = slots db
      /\ appointments_id_seq db' = appointments_id_seq db)
  /\ (~ pending_with_id n db ->
      r = NotFoundOrAlreadyProcessed /\ db' = db).
Proof.
  intros Hid r db'. subst r db'.
  assert (Hdec : pending_with_id n db \/ ~ pending_with_id n db).
  { destruct (existsb (confirmable n) (appointments db)) eqn:E.
    - left. apply existsb_exists in E. destruct E as (a & Ha & Hc).
      apply confirmable_iff in Hc. exists a. tauto.
    - right. intros (a & Ha & Hn & Hst).
      assert (Ht : existsb (confirmable n) (appointments db) = true).
      { apply existsb_exists. exists a. split; [exact Ha |].
        apply confirmable_iff. tauto. }
      congruence. }
  split; [| split].
  - destruct Hdec as [Hyes | Hno].
    + destruct (confirm_accepted now id n db Hid Hyes) as (a & _ & _ & _ & E).
      rewrite E. simpl. tauto.
    + rewrite (confirm_rejected now id n db Hid Hno). simpl.
      split; [discriminate | tauto].
  - intros Hyes.
    destruct (confirm_accepted now id n db Hid Hyes) as
      (a & Ha & Hn & Hst & E).
    rewrite E. simpl. split; [| split; [| split]]; try reflexivity.
    + exists a. repeat split; assumption.
    + clear. induction (appointments db) as [| b l IH]; simpl;
        constructor; [| exact IH].
      split; intros H.
      * apply confirmable_iff in H. rewrite H. reflexivity.
      * destruct (confirmable n b) eqn:E; [| reflexivity].
        apply confirmable_iff in E. tauto.
  - intros Hno. rewrite (confirm_rejected now id n db Hid Hno). simpl.
    split; reflexivity.
Qed.

Lemma confirm_iff_pending_witness :
  int4in "1" = Some 1
  /\ pending_with_id 1 db_pending
  /\ fst (confirm no_faults minute "1" db_pending)
     = Confirmed
         (Appointment.mk 1 1 "John Doe" "john@example.com" "+1234567890" 35
            "Regular checkup" CONFIRMED 0 (Some minute))
  /\ ~ pending_with_id 2 db_pending
  /\ confirm no_faults minute "2" db_pending
     = (NotFoundOrAlreadyProcessed, db_pending).
Proof.
  assert (Hp : pending_with_id 1 db_pending).
  { eexists. split; [left; reflexivity |]. split; reflexivity. }
  assert (Hn : ~ pending_with_id 2 db_pending).
  { intros (a & [Ha | []] & Hid & _). subst a. discriminate Hid. }
  split; [reflexivity |]. split; [exact Hp |].
  split; [| split; [exact Hn |]].
  - destruct (confirm_iff_pending minute "1" 1 db_pending eq_refl) as
      (_ & Hyes & _).
    destruct (Hyes Hp) as ((a & Ha & _ & _ & Hr & _) & _).
    destruct Ha as [Ha | []]. subst a. exact Hr.
  - destruct (confirm_iff_pending minute "2" 2 db_pending eq_refl) as
      (_ & _ & Hno).
    destruct (Hno Hn) as [Hr Hdb].
    rewrite (surjective_pairing (confirm no_faults minute "2" db_pending)).
    rewrite Hr, Hdb. reflexivity.
Defined.

Lemma confirm_storage_failure (fails : Oracle) (now : Timestamp)
    (id : string) (db : DB) :
  fails UPDATE_CONFIRM = true ->
  confirm fails now id db = (ErrorConfirming, db).
Proof. intros H. unfold confirm, query. rewrite H. reflexivity. Qed.

Lemma confirm_not_an_integer (fails : Oracle) (now : Timestamp)
    (id : string) (db : DB) :
  int4in id = None -> confirm fails now id db = (ErrorConfirming, db).
Proof.
  intros H. unfold confirm, query. rewrite H.
  destruct (fails UPDATE_CONFIRM); reflexivity.
Qed.

(** ** cancel *)

Lemma rollback_to_same (db : DB) : rollback_to db db = db.
Proof. destruct db; reflexivity. Qed.

Lemma cancel_missing (id : string) (n : Z) (db : DB) :
  int4in id = Some n -> select_appointment n db = [] ->
  cancel no_faults id db = (AppointmentNotFound, db).
Proof.
  intros Hid Hsel. unfold cancel, cancel_try, bind, query, ROLLBACK, ret.
  simpl. rewrite Hid, Hsel. rewrite rollback_to_same. reflexivity.
Qed.

Lemma cancel_existing (id : string) (n : Z) (db : DB) (a : Appointment.t)
    (rest : list Appointment.t) :
  int4in id = Some n -> select_appointment n db = a :: rest ->
  cancel no_faults id db
  = (Cancelled,
     update_slot_is_booked false (Appointment.slot_id a)
       (update_cancelled n db)).
Proof.
  intros Hid Hsel. unfold cancel, cancel_try, bind, query, ret.
  simpl. rewrite Hid, Hsel. reflexivity.
Qed.

Lemma select_by_key {A : Type} (key : A -> Z) (l : list A) (a : A) :
  NoDup (map key l) -> In a l ->
  filter (fun b => key b =? key a) l = [a].
Proof.
  induction l as [| b l IH]; intros Hnd Hin; [destruct Hin |].
  simpl in Hnd. inversion Hnd as [| k ks Hnotin Hnd']; subst.
  simpl. destruct Hin as [Heq | Hin].
  - subst b. rewrite Z.eqb_refl. f_equal.
    apply filter_none. intros c Hc.
    apply Z.eqb_neq. intros Hk. apply Hnotin. rewrite <- Hk.
    apply in_map. exact Hc.
  - assert (Hne : key b <> key a).
    { intros Hk. apply Hnotin. rewrite Hk. apply in_map. exact Hin. }
    apply Z.eqb_neq in Hne. rewrite Hne. apply IH; assumption.
Qed.

Lemma Forall2_singleton {A : Type} (R : A -> A -> Prop) (a : A)
    (l' : list A) :
  Forall2 R [a] l' -> exists a', l' = [a'] /\ R a a'.
Proof.
  intros H. inversion H as [| x a' l m HR Hrest]; subst.
  inversion Hrest; subst. exists a'. split; [reflexivity | exact HR].
Qed.

Lemma Forall2_map_where {A : Type} (p : A -> bool) (f : A -> A)
    (l : list A) :
  Forall2 (fun a a' => (p a = true -> a' = f a) /\ (p a = false -> a' = a))
    l (map (fun a => if p a then f a else a) l).
Proof.
  induction l as [| a l IH]; simpl; constructor; [| exact IH].
  destruct (p a); split; congruence.
Qed.

(** C9. [cancel] has no guard on the status: for every appointment of the
    table ([id] is its primary key), whatever its status, a [cancel] whose
    statements do not fail answers success, sets that appointment to
    CANCELLED and sets [is_booked] to false on the slot it refers to.
    Every other appointment is left as it was, so one that is PENDING or
    CONFIRMED on the same slot still is while the slot is free. *)
Theorem cancel_any_status (id : string) (db : DB) (a : Appointment.t) :
  NoDup (map Appointment.id (appointments db)) ->
  In a (appointments db) ->
  int4in id = Some (Appointment.id a) ->
  let r := fst (cancel no_faults id db) in
  let db' := snd (cancel no_faults id db) in
  r = Cancelled
  /\ Forall2
       (fun b b' =>
          (Appointment.id b = Appointment.id a ->
           b' = Appointment.set_status CANCELLED b)
          /\ (Appointment.id b <> Appointment.id a -> b' = b))
       (appointments db) (appointments db')
  /\ Forall2
       (fun s s' =>
          (Slot.id s = Appointment.slot_id a ->
           s' = Slot.set_is_booked false s)
          /\ (Slot.id s <> Appointment.slot_id a -> s' = s))
       (slots db) (slots db').
Proof.
  intros Hnd Hin Hid r db'. subst r db'.
  pose proof (select_by_key Appointment.id _ a Hnd Hin) as Hsel.
  rewrite (cancel_existing id _ db a [] Hid Hsel). simpl.
  split; [reflexivity |]. split.
  - eapply Forall2_impl; [| apply Forall2_map_where].
    intros b b' [H1 H2]. split; intros H.
    + apply H1. apply Z.eqb_eq. exact H.
    + apply H2. apply Z.eqb_neq. exact H.
  - eapply Forall2_impl; [| apply Forall2_map_where].
    intros s s' [H1 H2]. split; intros H.
    + apply H1. apply Z.eqb_eq. exact H.
    + apply H2. apply Z.eqb_neq. exact H.
Qed.

Lemma cancel_any_status_witness :
  map Appointment.status (appointments db_stale) = [FAILED; PENDING]
  /\ map Slot.is_booked (slots db_stale) = [true]
  /\ fst (cancel no_faults "1" db_stale) = Cancelled
  /\ map Appointment.status
       (appointments (snd (cancel no_faults "1" db_stale)))
     = [CANCELLED; PENDING]
  /\ map Slot.is_booked (slots (snd (cancel no_faults "1" db_stale)))
     = [false].
Proof.
  split; [reflexivity |]. split; [reflexivity |].
  assert (Hnd : NoDup (map Appointment.id (appointments db_stale))).
  { vm_compute. repeat constructor; simpl; intuition discriminate. }
  destruct (cancel_any_status "1" db_stale
              (Appointment.mk 1 1 "John Doe" "john@example.com"
                 "+1234567890" 35 "Regular checkup" FAILED 0 None)
              Hnd (or_introl eq_refl) eq_refl) as (Hr & _ & _).
  split; [exact Hr |]. split; reflexivity.
Defined.

(** C4, on the code: [cancel] of an appointment that is FAILED succeeds.
    In [db_stale] appointment 1 is FAILED and appointment 2 holds slot 1 in
    PENDING; [cancel] of appointment 1 answers success, rewrites the FAILED
    row to CANCELLED and frees the slot that appointment 2 still claims. *)
Theorem cancel_failed_appointment_succeeds :
  map Appointment.status (select_appointment 1 db_stale) = [FAILED]
  /\ fst (cancel no_faults "1" db_stale) = Cancelled
  /\ map Appointment.status
       (appointments (snd (cancel no_faults "1" db_stale)))
     = [CANCELLED; PENDING]
  /\ map Slot.is_booked (slots (snd (cancel no_faults "1" db_stale)))
     = [false].
Proof. repeat split; reflexivity. Qed.

Lemma cancel_unknown_id :
  cancel no_faults "7" db_stale = (AppointmentNotFound, db_stale).
Proof. reflexivity. Qed.

(** ** The invariant, decided *)

Lemma count_pos_iff {A : Type} (p : A -> bool) (l : list A) :
  (0 < count p l)%nat <-> exists a, In a l /\ p a = true.
Proof.
  unfold count. split.
  - intros H. destruct (filter p l) as [| a rest] eqn:E;
      [simpl in H; lia |].
    exists a. apply filter_In. rewrite E. left. reflexivity.
  - intros (a & Ha & Hp).
    destruct (filter_some p l a Ha Hp) as (b & rest & E).
    rewrite E. simpl. lia.
Qed.

Lemma claims_iff (sid : Z) (a : Appointment.t) :
  claims sid a = true <-> Appointment.slot_id a = sid /\ active a = true.
Proof. unfold claims. rewrite andb_true_iff, Z.eqb_eq. tauto. Qed.

Lemma slot_consistentb_spec (apps : list Appointment.t) (s : Slot.t) :
  slot_consistentb apps s = true <-> slot_consistent apps s.
Proof.
  unfold slot_consistentb, slot_consistent.
  rewrite andb_true_iff, Nat.leb_le, eqb_true_iff.
  assert (Hex : (exists a, In a apps /\ Appointment.slot_id a = Slot.id s
                           /\ active a = true)
                <-> (0 < count (claims (Slot.id s)) apps)%nat).
  { rewrite count_pos_iff. split; intros (a & Ha & H); exists a;
      (split; [exact Ha |]); apply claims_iff; exact H. }
  rewrite Hex, <- Nat.ltb_lt.
  destruct (Slot.is_booked s), (0 <? count (claims (Slot.id s)) apps)%nat;
    intuition congruence.
Qed.

Lemma consistentb_spec (db : DB) : consistentb db = true <-> Consistent db.
Proof.
  unfold consistentb, Consistent. rewrite forallb_forall.
  split; intros H s Hs; apply slot_consistentb_spec, H, Hs.
Qed.

(** C2, on the code: the invariant holds of the empty schedule with one free
    slot and after a booking, its expiry and a second booking, and [cancel]
    of the expired appointment breaks it: slot 1 is free while appointment 2
    is PENDING on it. *)
Theorem cancel_breaks_invariant :
  Consistent db_free
  /\ Consistent (run db_free history_stale)
  /\ ~ Consistent
       (run db_free (history_stale ++ [OpCancel no_faults "1"])).
Proof.
  split; [| split].
  - apply consistentb_spec. reflexivity.
  - apply consistentb_spec. reflexivity.
  - intros H. apply consistentb_spec in H. vm_compute in H. discriminate H.
Qed.

(** ** The sweeper *)

Lemma expired_iff (now : Timestamp) (a : Appointment.t) :
  expired now a = true <-> stale now a.
Proof.
  unfold expired, stale. rewrite andb_true_iff, Status_eqb_eq, Z.ltb_lt.
  reflexivity.
Qed.

Lemma expired_false_iff (now : Timestamp) (a : Appointment.t) :
  expired now a = false <-> ~ stale now a.
Proof.
  rewrite <- expired_iff. destruct (expired now a); intuition congruence.
Qed.

Lemma sweep_tick_ok (now : Timestamp) (db : DB) :
  snd (sweep_tick no_faults now db) = snd (expire_pending now db).
Proof. reflexivity. Qed.

Lemma sweep_tick_fault (fails : Oracle) (now : Timestamp) (db : DB) :
  fails EXPIRE_PENDING = true ->
  sweep_tick fails now db = (ErrorExpiring, db).
Proof. intros H. unfold sweep_tick, query. rewrite H. reflexivity. Qed.

Lemma sweep_tick_all_or_nothing (fails : Oracle) (now : Timestamp)
    (db : DB) :
  snd (sweep_tick fails now db) = snd (sweep_tick no_faults now db)
  \/ snd (sweep_tick fails now db) = db.
Proof.
  destruct (fails EXPIRE_PENDING) eqn:E.
  - right. rewrite (sweep_tick_fault fails now db E). reflexivity.
  - left. unfold sweep_tick, query. rewrite E. reflexivity.
Qed.

Lemma slot_hit_iff (now : Timestamp) (apps : list Appointment.t)
    (s : Slot.t) :
  existsb (Z.eqb (Slot.id s))
    (map Appointment.slot_id (filter (expired now) apps)) = true
  <-> exists a, In a apps /\ stale now a
                /\ Appointment.slot_id a = Slot.id s.
Proof.
  rewrite existsb_exists. split.
  - intros (k & Hk & Heq). apply in_map_iff in Hk.
    destruct Hk as (a & Hka & Ha). apply filter_In in Ha.
    destruct Ha as [Ha He]. apply Z.eqb_eq in Heq.
    exists a. rewrite <- expired_iff. repeat split; congruence.
  - intros (a & Ha & Hst & Hs). exists (Appointment.slot_id a). split.
    + apply in_map. apply filter_In. rewrite expired_iff. tauto.
    + apply Z.eqb_eq. congruence.
Qed.

(** C6. A tick whose statement does not fail sets every appointment that
    is PENDING and was booked before [now] minus two minutes to FAILED,
    every other column of the row staying as it was, and leaves every other
    appointment (PENDING and not that old, or in another status) exactly as
    it was; it sets [is_booked] to false on every slot such an appointment
    refers to, every other column of the slot staying as it was, and leaves
    the other slots alone.  It is one statement: a tick either does all of
    this or, when the statement fails, changes nothing. *)
Theorem sweep_tick_expires_stale_pending (now : Timestamp) (db : DB) :
  let db' := snd (sweep_tick no_faults now db) in
  Forall2
    (fun a a' =>
       (stale now a ->
        Appointment.status a' = FAILED
        /\ a' = Appointment.mk (Appointment.id a) (Appointment.slot_id a)
                  (Appointment.patient_name a) (Appointment.patient_email a)
                  (Appointment.patient_phone a) (Appointment.patient_age a)
                  (Appointment.reason_for_visit a) FAILED
                  (Appointment.booking_time a)
                  (Appointment.confirmation_time a))
       /\ (~ stale now a -> a' = a))
    (appointments db) (appointments db')
  /\ Forall2
       (fun s s' =>
          ((exists a, In a (appointments db) /\ stale now a
                      /\ Appointment.slot_id a = Slot.id s) ->
           Slot.is_booked s' = false
           /\ s' = Slot.mk (Slot.id s) (Slot.doctor_id s) (Slot.slot_date s)
                     (Slot.start_time s) (Slot.end_time s) false
                     (Slot.created_at s))
          /\ (~ (exists a, In a (appointments db) /\ stale now a
                           /\ Appointment.slot_id a = Slot.id s) ->
              s' = s))
       (slots db) (slots db')
  /\ (forall fails,
        snd (sweep_tick fails now db) = db'
        \/ snd (sweep_tick fails now db) = db).
Proof.
  intros db'. subst db'. rewrite sweep_tick_ok. simpl.
  split; [| split].
  - eapply Forall2_impl; [| apply Forall2_map_where].
    intros a a' [H1 H2]. split; intros H.
    + rewrite (H1 (proj2 (expired_iff now a) H)). split; reflexivity.
    + apply H2. apply expired_false_iff. exact H.
  - eapply Forall2_impl; [| apply Forall2_map_where].
    intros s s' [H1 H2]. split; intros H.
    + rewrite H1 by (apply slot_hit_iff; exact H). split; reflexivity.
    + apply H2. apply not_true_is_false. rewrite slot_hit_iff. exact H.
  - intros fails. exact (sweep_tick_all_or_nothing fails now db).
Qed.

Lemma sweep_tick_expires_stale_pending_witness :
  stale (2 * minute + 1) appointmentA
  /\ appointments (snd (sweep_tick no_faults (2 * minute + 1) db_pending))
     = [Appointment.mk 1 1 "John Doe" "john@example.com" "+1234567890" 35
          "Regular checkup" FAILED 0 None]
  /\ slots (snd (sweep_tick no_faults (2 * minute + 1) db_pending))
     = [Slot.mk 1 1 "2025-01-15" "10:00" "10:30" false 0].
Proof.
  assert (Hs : stale (2 * minute + 1) appointmentA)
    by (split; reflexivity).
  split; [exact Hs |].
  destruct (sweep_tick_expires_stale_pending (2 * minute + 1) db_pending)
    as (Happ & Hslots & _).
  destruct (Forall2_singleton _ appointmentA _ Happ) as (a' & E & H1 & _).
  destruct (Forall2_singleton _ (Slot.set_is_booked true slot1) _ Hslots)
    as (s' & Es & H2 & _).
  rewrite E, Es. destruct (H1 Hs) as [_ Ha]. rewrite Ha.
  destruct H2 as [_ Hslot].
  { exists appointmentA. split; [left; reflexivity |].
    split; [exact Hs | reflexivity]. }
  rewrite Hslot. split; reflexivity.
Defined.

Example sweep_tick_boundary :
  snd (sweep_tick no_faults (2 * minute) db_pending) = db_pending.
Proof. reflexivity. Qed.

Example sweep_tick_frees_slot :
  map Slot.is_booked
    (slots (snd (sweep_tick no_faults (2 * minute + 1) db_pending)))
  = [false].
Proof. reflexivity. Qed.

Lemma expire_pending_nothing_stale (now : Timestamp) (db : DB) :
  (forall a, In a (appointments db) -> expired now a = false) ->
  snd (expire_pending now db) = db.
Proof.
  intros H. unfold expire_pending. cbn [snd].
  rewrite (filter_none _ _ H).
  rewrite (map_where_none (expired now) _ _ H).
  rewrite map_where_none by (intros; reflexivity).
  destruct db; reflexivity.
Qed.

Lemma expire_pending_leaves_none_stale (now : Timestamp) (db : DB)
    (a : Appointment.t) :
  In a (appointments (snd (expire_pending now db))) ->
  expired now a = false.
Proof.
  unfold expire_pending. simpl. intros H. apply in_map_iff in H.
  destruct H as (b & Hb & _). destruct (expired now b) eqn:E; subst a.
  - reflexivity.
  - exact E.
Qed.

Lemma sweep_tick_twice (now1 now2 : Timestamp) (db : DB) :
  let db1 := snd (sweep_tick no_faults now1 db) in
  (forall a, In a (appointments db1) -> expired now2 a = false) ->
  snd (sweep_tick no_faults now2 db1) = db1.
Proof.
  intros db1 H. rewrite sweep_tick_ok.
  apply expire_pending_nothing_stale. exact H.
Qed.

(** C7, as stated, fails: a second tick at a later time is not idle.  A
    booking made at time 0 survives a tick after one minute and is set to
    FAILED by the next tick, two minutes later. *)
Lemma second_tick_later_changes_state :
  1 * minute <= 3 * minute
  /\ snd (sweep_tick no_faults (3 * minute)
            (snd (sweep_tick no_faults (1 * minute) db_pending)))
     <> snd (sweep_tick no_faults (1 * minute) db_pending).
Proof.
  split; [discriminate |].
  intros H. apply (f_equal appointments) in H.
  apply (f_equal (map Appointment.status)) in H.
  vm_compute in H. discriminate H.
Qed.

(** C7, amended.  A second tick (neither statement failing) leaves the
    state of the first tick as it is when it runs at the same time, or at
    another time at which no appointment left by the first tick is PENDING
    and older than the grace window. *)
Theorem sweep_tick_idempotent (now1 now2 : Timestamp) (db : DB) :
  let db1 := snd (sweep_tick no_faults now1 db) in
  now2 = now1
  \/ (forall a, In a (appointments db1) -> ~ stale now2 a) ->
  snd (sweep_tick no_faults now2 db1) = db1.
Proof.
  intros db1 H. apply sweep_tick_twice. fold db1. intros a Ha.
  destruct H as [H | H].
  - subst now2. subst db1. rewrite sweep_tick_ok in Ha.
    exact (expire_pending_leaves_none_stale now1 db a Ha).
  - apply expired_false_iff. apply H. exact Ha.
Qed.

Lemma sweep_tick_idempotent_witness :
  snd (sweep_tick no_faults (3 * minute)
         (snd (sweep_tick no_faults (3 * minute) db_pending)))
  = snd (sweep_tick no_faults (3 * minute) db_pending)
  /\ snd (sweep_tick no_faults (2 * minute)
            (snd (sweep_tick no_faults (1 * minute) db_pending)))
     = snd (sweep_tick no_faults (1 * minute) db_pending).
Proof.
  split.
  - apply (sweep_tick_idempotent (3 * minute) (3 * minute) db_pending).
    left. reflexivity.
  - apply (sweep_tick_idempotent (1 * minute) (2 * minute) db_pending).
    right. intros a [Ha | []]. subst a. intros [_ Hlt].
    discriminate Hlt.
Defined.

(** ** The sweeper's settings *)

(** C8, as stated, fails: with [sweepIntervalSeconds] set to 10 and
    [pendingGraceSeconds] set to 300 the server still runs the sweeper every
    60000 ms, and its tick still fails a booking that is 121 seconds old. *)
Lemma sweeper_ignores_options :
  env_custom "sweepIntervalSeconds" = Some "10"
  /\ env_custom "pendingGraceSeconds" = Some "300"
  /\ sweep_every_ms (server env_custom) <> 10 * 1000
  /\ Appointment.booking_time appointmentA = 0
  /\ appointments (snd (server_tick env_custom no_faults (121 * second)
                          db_pending))
     = [Appointment.set_status FAILED appointmentA].
Proof.
  split; [reflexivity |]. split; [reflexivity |].
  split; [discriminate |]. split; reflexivity.
Qed.

(** C8, amended.  The sweeper's period and grace window are fixed: under
    every environment the server runs the tick every 60 seconds, the tick
    is the one run under the empty environment, and it selects the PENDING
    appointments booked more than 120 seconds before [now]. *)
Theorem sweeper_settings_fixed (env : Env) :
  sweep_every_ms (server env) = 60 * 1000
  /\ (forall fails now db,
        server_tick env fails now db = server_tick env_empty fails now db)
  /\ (forall now a,
        expired now a = true
        <-> Appointment.status a = PENDING
            /\ Appointment.booking_time a < now - 120 * second).
Proof.
  split; [reflexivity |]. split; [reflexivity |].
  intros now a. apply expired_iff.
Qed.

(** ** book *)

Lemma new_appointment_fields (now : Timestamp) (body : Body.t) (id : Z)
    (a : Appointment.t) :
  new_appointment now body id = Some a ->
  Appointment.id a = id
  /\ bind_int4 (Body.slot_id body) = Some (Appointment.slot_id a)
  /\ Appointment.status a = PENDING
  /\ Appointment.booking_time a = now
  /\ Appointment.confirmation_time a = None.
Proof.
  unfold new_appointment. intros H.
  destruct (bind_int4 (Body.slot_id body)); [| discriminate].
  destruct (bind_varchar 255 (Body.patient_name body)); [| discriminate].
  destruct (bind_varchar 255 (Body.patient_email body)); [| discriminate].
  destruct (bind_varchar 20 (Body.patient_phone body)); [| discriminate].
  destruct (bind_int4 (Body.patient_age body)); [| discriminate].
  destruct (bind_text (Body.reason_for_visit body)); [| discriminate].
  destruct (id <=? INT4_MAX); [| discriminate].
  inversion H. subst a. simpl. repeat split.
Qed.

Lemma book_outcomes (fails : Oracle) (now : Timestamp) (body : Body.t)
    (db : DB) :
  book_outcome now body db (fst (book fails now body db))
    (snd (book fails now body db)).
Proof.
  unfold book, book_try.
  destruct (missing_field body) eqn:Hv; [apply book_invalid; exact Hv |].
  unfold bind, query, ROLLBACK, ret, insert_appointment.
  destruct (fails BEGIN); [apply book_error |].
  destruct (fails SELECT_SLOT_FOR_UPDATE); [apply book_error |].
  destruct (bind_int4 (Body.slot_id body)) as [sid |] eqn:Hsid;
    [| apply book_error].
  destruct (select_slot sid db) as [| slot rest] eqn:Hsel.
  { simpl. rewrite rollback_to_same.
    eapply book_no_slot; eassumption. }
  destruct (Slot.is_booked slot) eqn:Hb.
  { simpl. rewrite rollback_to_same.
    eapply book_conflict; eassumption. }
  destruct (fails INSERT_APPOINTMENT); [apply book_error |].
  destruct (new_appointment now body (appointments_id_seq db)) as [a |]
    eqn:Hnew; [| apply book_error].
  destruct (fails UPDATE_SLOT_BOOKED); [apply book_error |].
  destruct (fails COMMIT); [apply book_error |].
  simpl. eapply book_booked; eassumption.
Qed.

Lemma update_slot_sets (b : bool) (sid : Z) (db : DB) (s : Slot.t) :
  In s (slots (update_slot_is_booked b sid db)) -> Slot.id s = sid ->
  Slot.is_booked s = b.
Proof.
  unfold update_slot_is_booked. simpl. intros Hin Hid.
  apply in_map_iff in Hin. destruct Hin as (s0 & Hs & _).
  destruct (Slot.id s0 =? sid) eqn:E; subst s; [reflexivity |].
  apply Z.eqb_neq in E. contradiction.
Qed.

Lemma update_slot_keeps (b : bool) (sid : Z) (db : DB) (s : Slot.t) :
  In s (slots db) -> Slot.id s = sid ->
  In (Slot.set_is_booked b s) (slots (update_slot_is_booked b sid db)).
Proof.
  unfold update_slot_is_booked. simpl. intros Hin Hid.
  apply in_map_iff. exists s. split; [| exact Hin].
  apply Z.eqb_eq in Hid. rewrite Hid. reflexivity.
Qed.

(** C3. [book] is all or nothing, whichever statement fails.  When it
    answers success, the appointments are the old ones followed by exactly
    one new row, that row is PENDING, booked at [now] on the requested slot,
    the slot is in the table and every row of that slot has [is_booked]
    true.  When it does not, the answer is ValidationFailed, SlotNotFound,
    Conflict or the storage error, and the appointments and the slots (with
    their flags) are those from before the call. *)
Theorem book_all_or_nothing (fails : Oracle) (now : Timestamp)
    (body : Body.t) (db : DB) :
  let r := fst (book fails now body db) in
  let db' := snd (book fails now body db) in
  (success r = true ->
   exists a,
     r = Booked a
     /\ appointments db' = appointments db ++ [a]
     /\ Appointment.status a = PENDING
     /\ Appointment.booking_time a = now
     /\ bind_int4 (Body.slot_id body) = Some (Appointment.slot_id a)
     /\ (exists s, In s (slots db')
                   /\ Slot.id s = Appointment.slot_id a)
     /\ (forall s, In s (slots db') ->
                   Slot.id s = Appointment.slot_id a ->
                   Slot.is_booked s = true))
  /\ (success r = false ->
      (r = ValidationFailed \/ r = SlotNotFound \/ r = Conflict
       \/ r = ErrorBooking)
      /\ appointments db' = appointments db
      /\ slots db' = slots db).
Proof.
  intros r db'. subst r db'.
  destruct (book_outcomes fails now body db)
    as [Hv | sid Hsid Hsel | sid slot rest Hsid Hsel Hb | seq
        | sid slot rest a Hv Hsid Hsel Hb Hnew];
    (split; [intros Hs | intros Hf]); try discriminate;
    try (split; [tauto | split; reflexivity]).
  destruct (new_appointment_fields _ _ _ _ Hnew)
    as (_ & Hslot & Hst & Ht & _).
  assert (Hsame : Appointment.slot_id a = sid) by congruence.
  exists a. simpl. repeat split; try assumption.
  - exists (Slot.set_is_booked true slot). split; [| simpl].
    + apply update_slot_keeps.
      * assert (Hin : In slot (select_slot sid db)).
        { rewrite Hsel. left. reflexivity. }
        apply filter_In in Hin. tauto.
      * assert (Hin : In slot (select_slot sid db)).
        { rewrite Hsel. left. reflexivity. }
        apply filter_In in Hin. apply Z.eqb_eq. tauto.
    + assert (Hin : In slot (select_slot sid db)).
      { rewrite Hsel. left. reflexivity. }
      apply filter_In in Hin. destruct Hin as [_ Hin].
      apply Z.eqb_eq in Hin. congruence.
  - intros s Hin Hid. eapply update_slot_sets; [exact Hin | congruence].
Qed.

Lemma book_all_or_nothing_witness :
  success (fst (book no_faults 0 patientA db_free)) = true
  /\ (exists a, fst (book no_faults 0 patientA db_free) = Booked a
                /\ Appointment.status a = PENDING)
  /\ success
       (fst (book update_fails 0 patientA db_free)) = false
  /\ slots
       (snd (book update_fails 0 patientA db_free))
     = slots db_free.
Proof.
  split; [reflexivity |]. split; [| split; [reflexivity |]].
  - destruct (book_all_or_nothing no_faults 0 patientA db_free) as [H _].
    destruct (H eq_refl) as (a & Hr & _ & Hst & _).
    exists a. split; assumption.
  - destruct (book_all_or_nothing update_fails 0 patientA db_free) as [_ H].
    destruct (H eq_refl) as (_ & _ & Hslots). exact Hslots.
Defined.

(** ** One call alone is [book] *)

Lemma exec_alone (fails : Oracle) (now : Timestamp) (body : Body.t)
    (db : DB) :
  exec (mkWorld db [start fails (now, body)])
    [0%nat; 0%nat; 0%nat; 0%nat; 0%nat]
  = mkWorld (snd (book fails now body db))
      [mkCall fails now body (Done (fst (book fails now body db)))].
Proof.
  unfold book, book_try.
  unfold exec, start. cbn [fold_left fst snd].
  unfold sched_step at 5. cbn -[missing_field new_appointment bind_int4].
  destruct (missing_field body) eqn:Hv; [reflexivity |].
  unfold bind, query, ROLLBACK, ret, insert_appointment.
  destruct (fails BEGIN) eqn:F1.
  { cbn. rewrite rollback_to_same. reflexivity. }
  unfold sched_step at 4.
  cbn -[missing_field new_appointment bind_int4 select_slot].
  destruct (fails SELECT_SLOT_FOR_UPDATE) eqn:F2.
  { cbn. rewrite rollback_to_same. reflexivity. }
  destruct (bind_int4 (Body.slot_id body)) as [sid |] eqn:Hsid.
  2:{ cbn. rewrite rollback_to_same. reflexivity. }
  destruct (select_slot sid db) as [| slot rest] eqn:Hsel.
  { cbn. rewrite rollback_to_same. reflexivity. }
  unfold sched_step at 3.
  cbn -[missing_field new_appointment bind_int4 select_slot].
  destruct (Slot.is_booked slot) eqn:Hb.
  { cbn. rewrite rollback_to_same. reflexivity. }
  destruct (fails INSERT_APPOINTMENT) eqn:F3.
  { cbn. rewrite rollback_to_same. reflexivity. }
  destruct (new_appointment now body (appointments_id_seq db)) as [a |]
    eqn:Hnew.
  2:{ cbn. rewrite rollback_to_same. reflexivity. }
  unfold sched_step at 2.
  cbn -[missing_field new_appointment bind_int4 select_slot].
  destruct (fails UPDATE_SLOT_BOOKED) eqn:F4; [reflexivity |].
  rewrite Hsid.
  unfold sched_step at 1.
  cbn -[missing_field new_appointment bind_int4 select_slot].
  destruct (fails COMMIT) eqn:F5; [reflexivity |].
  destruct (new_appointment_fields _ _ _ _ Hnew) as (_ & Hslot & _).
  assert (Hsame : Appointment.slot_id a = sid) by congruence.
  rewrite Hsame. reflexivity.
Qed.

(** ** Concurrent calls for one slot *)

Lemma count_app {A : Type} (p : A -> bool) (l1 l2 : list A) :
  count p (l1 ++ l2) = (count p l1 + count p l2)%nat.
Proof. unfold count. rewrite filter_app, length_app. reflexivity. Qed.

Lemma count_mid {A : Type} (p : A -> bool) (l1 l2 : list A) (c : A) :
  count p (l1 ++ c :: l2)
  = (count p l1 + (if p c then 1 else 0) + count p l2)%nat.
Proof.
  rewrite count_app. unfold count. simpl. destruct (p c); simpl; lia.
Qed.

Lemma count_zero {A : Type} (p : A -> bool) (l : list A) :
  count p l = 0%nat <-> forall a, In a l -> p a = false.
Proof.
  split.
  - intros H a Ha. destruct (p a) eqn:E; [| reflexivity].
    assert (Hpos : (0 < count p l)%nat).
    { apply count_pos_iff. exists a. tauto. }
    lia.
  - intros H. unfold count. rewrite (filter_none p l H). reflexivity.
Qed.

Lemma existsb_false_count {A : Type} (p : A -> bool) (l : list A) :
  existsb p l = false -> count p l = 0%nat.
Proof.
  intros H. apply count_zero. intros a Ha.
  destruct (p a) eqn:E; [| reflexivity].
  assert (Ht : existsb p l = true) by (apply existsb_exists; eauto).
  congruence.
Qed.

Lemma Forall_mid {A : Type} (P : A -> Prop) (l1 l2 : list A) (c : A) :
  Forall P (l1 ++ c :: l2) <-> Forall P l1 /\ P c /\ Forall P l2.
Proof.
  rewrite Forall_app. split.
  - intros [H1 H2]. inversion H2; subst. tauto.
  - intros (H1 & Hc & H2). split; [exact H1 | constructor; assumption].
Qed.

Lemma nth_error_decompose {A : Type} (l : list A) (i : nat) (c : A) :
  nth_error l i = Some c -> l = firstn i l ++ c :: skipn (S i) l.
Proof.
  revert i. induction l as [| a l IH]; intros [| i] H; simpl in *;
    try discriminate.
  - inversion H. reflexivity.
  - f_equal. apply IH. exact H.
Qed.


Section OneSlot.

(** The slot the calls are for. *)
Variable sid : Z.

(** The id sequence before the calls. *)
Variable seq0 : Z.

Lemma select_slot_same (db db' : DB) :
  slots db' = slots db -> select_slot sid db' = select_slot sid db.
Proof. unfold select_slot. intros H. rewrite H. reflexivity. Qed.

Lemma uniform_flag (rows : list Slot.t) (b v : bool) :
  Forall (fun s => Slot.is_booked s = b) rows ->
  (exists s, In s rows /\ Slot.is_booked s = v) -> b = v.
Proof.
  intros Hall (s & Hs & Hv). rewrite Forall_forall in Hall.
  rewrite <- (Hall s Hs). exact Hv.
Qed.

Lemma invariant_local_step (db db' : DB) (l1 l2 : list Call)
    (c c' : Call) :
  lock_invariant seq0 sid db (l1 ++ c :: l2) ->
  slots db' = slots db -> appointments db' = appointments db ->
  call_body c' = call_body c ->
  call_fails c' = call_fails c ->
  (holds sid c' = true ->
   holds sid c = true \/ existsb (holds sid) (l1 ++ l2) = false) ->
  (forall rows, pc c' = Selected rows -> rows = select_slot sid db) ->
  (forall a, pc c' = Inserted a \/ pc c' = Updated a ->
             Appointment.slot_id a = sid
             /\ Appointment.status a = PENDING) ->
  answer_is is_Booked c = false -> answer_is is_Booked c' = false ->
  (writing c' = true ->
   writing c = true
   \/ exists s, In s (select_slot sid db) /\ Slot.is_booked s = false) ->
  (answer_is is_Conflict c' = true ->
   exists s, In s (select_slot sid db) /\ Slot.is_booked s = true) ->
  (seq0 <= INT4_MAX -> Forall (clean sid) (l1 ++ c :: l2) ->
   forall r, pc c' = Done r -> r = Conflict \/ exists a, r = Booked a) ->
  (Forall (clean sid) (l1 ++ c :: l2) ->
   appointments_id_seq db' + (if writing c then 1 else 0)
   <= appointments_id_seq db + (if writing c' then 1 else 0)) ->
  lock_invariant seq0 sid db' (l1 ++ c' :: l2).
Proof.
  intros [HT HS HL HR HN (b & Hb & Hst) HA HB HQ] Hslots Happs Hbody Hfails
    Hh Hrows Hnew Hbk Hbk' Hwr Hcf Hans Hseq.
  assert (Hclean : Forall (clean sid) (l1 ++ c' :: l2) ->
                   Forall (clean sid) (l1 ++ c :: l2)).
  { intros H. apply Forall_mid in H. destruct H as (H1 & Hc & H2).
    apply Forall_mid. split; [exact H1 | split; [| exact H2]].
    unfold clean in *. rewrite Hbody, Hfails in Hc. exact Hc. }
  apply Forall_mid in HB. destruct HB as (HB1 & HBc & HB2).
  apply Forall_mid in HT. destruct HT as (HT1 & HTc & HT2).
  apply Forall_mid in HR. destruct HR as (HR1 & HRc & HR2).
  apply Forall_mid in HN. destruct HN as (HN1 & HNc & HN2).
  rewrite count_mid in HL. rewrite !count_mid in Hst.
  pose proof (select_slot_same db db' Hslots) as Hsel.
  constructor.
  - apply Forall_mid. rewrite Hbody. tauto.
  - rewrite Hsel. exact HS.
  - rewrite count_mid. destruct (holds sid c') eqn:E; [| destruct (holds sid c); lia].
    destruct (Hh eq_refl) as [H | H].
    + rewrite H in HL. exact HL.
    + apply existsb_false_count in H. rewrite count_app in H. lia.
  - rewrite Hsel. apply Forall_mid. tauto.
  - apply Forall_mid. tauto.
  - exists b. rewrite Hsel, Happs. split; [exact Hb |].
    rewrite !count_mid. rewrite Hbk in Hst. rewrite Hbk'.
    destruct b.
    + destruct Hst as (H1 & H2 & H3). repeat split; try assumption.
      destruct (writing c') eqn:E; [| destruct (writing c); lia].
      destruct (Hwr eq_refl) as [H | H].
      * rewrite H in H3. lia.
      * pose proof (uniform_flag _ _ _ Hb H). discriminate.
    + destruct Hst as (H1 & H2 & H3). repeat split; try assumption.
      destruct (answer_is is_Conflict c') eqn:E;
        [| destruct (answer_is is_Conflict c); lia].
      pose proof (uniform_flag _ _ _ Hb (Hcf eq_refl)).
      discriminate.
  - intros Hroom Hcl. pose proof (Hclean Hcl) as Hcl0.
    specialize (HA Hroom Hcl0). apply Forall_mid in HA.
    destruct HA as (HA1 & _ & HA2). apply Forall_mid.
    split; [exact HA1 | split; [| exact HA2]]. exact (Hans Hroom Hcl0).
  - rewrite Happs. apply Forall_mid. split; [exact HB1 | split; [| exact HB2]].
    intros a Ha. unfold answer_is in Hbk'. rewrite Ha in Hbk'.
    discriminate Hbk'.
  - intros Hcl. pose proof (Hclean Hcl) as Hcl0.
    specialize (HQ Hcl0). specialize (Hseq Hcl0).
    rewrite !count_mid in HQ. rewrite !count_mid.
    rewrite Hbk in HQ. rewrite Hbk'.
    destruct (writing c), (writing c'); lia.
Qed.

Lemma select_slot_update (b : bool) (db : DB) :
  select_slot sid (update_slot_is_booked b sid db)
  = map (Slot.set_is_booked b) (select_slot sid db).
Proof.
  unfold select_slot, update_slot_is_booked. simpl.
  induction (slots db) as [| s l IH]; simpl; [reflexivity |].
  destruct (Slot.id s =? sid) eqn:E; simpl; rewrite E, IH; reflexivity.
Qed.

Lemma target_holds (c : Call) :
  bind_int4 (Body.slot_id (call_body c)) = Some sid ->
  holds sid c = locking c.
Proof.
  intros H. unfold holds. rewrite H, Z.eqb_refl. apply andb_true_r.
Qed.

Lemma no_holder_none_locking (l : list Call) :
  Forall (fun c => bind_int4 (Body.slot_id (call_body c)) = Some sid) l ->
  count (holds sid) l = 0%nat ->
  forall c, In c l -> locking c = false.
Proof.
  intros Ht H0 c Hc. rewrite count_zero in H0.
  rewrite Forall_forall in Ht.
  rewrite <- (target_holds c (Ht c Hc)). apply H0. exact Hc.
Qed.

Lemma none_locking_none_writing (l : list Call) :
  (forall c, In c l -> locking c = false) -> count writing l = 0%nat.
Proof.
  intros H. apply count_zero. intros c Hc. specialize (H c Hc).
  unfold locking in H. unfold writing.
  destruct (pc c); try reflexivity; discriminate H.
Qed.

Lemma none_locking_keeps_rows (P : list Slot.t -> Prop) (db : DB)
    (l : list Call) :
  select_slot sid db <> [] ->
  (forall c, In c l -> locking c = false) ->
  Forall (fun c => forall rows, pc c = Selected rows ->
                                rows = select_slot sid db) l ->
  Forall (fun c => forall rows, pc c = Selected rows -> P rows) l.
Proof.
  intros HS Hno Hrows. rewrite Forall_forall in *.
  intros c Hc rows Hpc. exfalso.
  specialize (Hno c Hc). specialize (Hrows c Hc rows Hpc).
  unfold locking in Hno. rewrite Hpc in Hno.
  destruct rows; [congruence | discriminate Hno].
Qed.

Lemma invariant_commit (db : DB) (l1 l2 : list Call) (c : Call)
    (a : Appointment.t) :
  lock_invariant seq0 sid db (l1 ++ c :: l2) ->
  pc c = Updated a ->
  lock_invariant seq0 sid
    (mkDB (slots (update_slot_is_booked true (Appointment.slot_id a) db))
       (appointments db ++ [a]) (appointments_id_seq db))
    (l1 ++ at_pc (Done (Booked a)) c :: l2).
Proof.
  intros [HT HS HL HR HN (b & Hb & Hst) HA HB HQ] Hpc.
  assert (Hclean : Forall (clean sid)
                     (l1 ++ at_pc (Done (Booked a)) c :: l2) ->
                   Forall (clean sid) (l1 ++ c :: l2)).
  { intros H. apply Forall_mid in H. destruct H as (H1 & Hc & H2).
    apply Forall_mid. split; [exact H1 | split; [exact Hc | exact H2]]. }
  apply Forall_mid in HB. destruct HB as (HB1 & HBc & HB2).
  apply Forall_mid in HT. destruct HT as (HT1 & HTc & HT2).
  apply Forall_mid in HR. destruct HR as (HR1 & HRc & HR2).
  apply Forall_mid in HN. destruct HN as (HN1 & HNc & HN2).
  rewrite count_mid in HL. rewrite !count_mid in Hst.
  destruct (HNc a (or_intror Hpc)) as [Hsid Hpend].
  assert (Hlock : locking c = true)
    by (unfold locking; rewrite Hpc; reflexivity).
  assert (Hw : writing c = true)
    by (unfold writing; rewrite Hpc; reflexivity).
  assert (Hk : answer_is is_Booked c = false)
    by (unfold answer_is; rewrite Hpc; reflexivity).
  rewrite (target_holds c HTc), Hlock in HL.
  rewrite Hw, Hk in Hst.
  destruct b; [destruct Hst as (_ & _ & H3); lia |].
  destruct Hst as (H1 & H2 & H3).
  assert (Hf1 := no_holder_none_locking l1 HT1 ltac:(lia)).
  assert (Hf2 := no_holder_none_locking l2 HT2 ltac:(lia)).
  assert (Hsel :
            select_slot sid
              (mkDB
                 (slots (update_slot_is_booked true (Appointment.slot_id a)
                           db))
                 (appointments db ++ [a]) (appointments_id_seq db))
            = map (Slot.set_is_booked true) (select_slot sid db)).
  { rewrite Hsid. rewrite <- select_slot_update. reflexivity. }
  constructor.
  - apply Forall_mid. tauto.
  - rewrite Hsel. destruct (select_slot sid db); [congruence | discriminate].
  - rewrite count_mid.
    rewrite (target_holds (at_pc (Done (Booked a)) c) HTc).
    simpl. lia.
  - apply Forall_mid. split; [| split].
    + exact (none_locking_keeps_rows _ db l1 HS Hf1 HR1).
    + simpl. discriminate.
    + exact (none_locking_keeps_rows _ db l2 HS Hf2 HR2).
  - apply Forall_mid. split; [exact HN1 | split; [| exact HN2]].
    simpl. intros ? [? | ?]; discriminate.
  - exists true. split.
    + rewrite Hsel. apply Forall_forall. intros s Hs.
      apply in_map_iff in Hs. destruct Hs as (s0 & Hs0 & _). subst s.
      reflexivity.
    + rewrite !count_mid. simpl appointments. rewrite count_app.
      unfold answer_is at 2, writing at 2. simpl.
      assert (Hp : count (pending_on sid) [a] = 1%nat).
      { unfold count, pending_on. simpl. rewrite Hsid, Hpend, Z.eqb_refl.
        reflexivity. }
      rewrite (none_locking_none_writing l1 Hf1).
      rewrite (none_locking_none_writing l2 Hf2). lia.
  - intros Hroom Hcl. specialize (HA Hroom (Hclean Hcl)).
    apply Forall_mid in HA. destruct HA as (HA1 & _ & HA2).
    apply Forall_mid. split; [exact HA1 | split; [| exact HA2]].
    simpl. intros r Hr. inversion Hr. right. eauto.
  - assert (Hmore : forall l,
              Forall (fun c => forall a, pc c = Done (Booked a) ->
                         In a (appointments db)
                         /\ Appointment.slot_id a = sid
                         /\ Appointment.status a = PENDING) l ->
              Forall (fun c => forall a0, pc c = Done (Booked a0) ->
                         In a0 (appointments db ++ [a])
                         /\ Appointment.slot_id a0 = sid
                         /\ Appointment.status a0 = PENDING) l).
    { intros l Hl. eapply Forall_impl; [| exact Hl].
      intros x Hx a0 Ha0. destruct (Hx a0 Ha0) as (H1' & H2' & H3').
      split; [apply in_or_app; left; exact H1' | tauto]. }
    apply Forall_mid. simpl appointments.
    split; [exact (Hmore l1 HB1) | split; [| exact (Hmore l2 HB2)]].
    simpl. intros a0 Ha0. inversion Ha0. subst a0.
    split; [apply in_or_app; right; left; reflexivity | tauto].
  - intros Hcl. specialize (HQ (Hclean Hcl)). simpl appointments_id_seq.
    rewrite !count_mid in HQ. rewrite !count_mid. rewrite Hw, Hk in HQ.
    assert (Hw' : writing (at_pc (Done (Booked a)) c) = false)
      by reflexivity.
    assert (Hk' : answer_is is_Booked (at_pc (Done (Booked a)) c) = true)
      by reflexivity.
    rewrite Hw', Hk'. lia.
Qed.

Lemma new_appointment_fits (body : Body.t) (now : Timestamp) (id : Z) :
  well_formed body = true -> id <= INT4_MAX ->
  exists a, new_appointment now body id = Some a.
Proof.
  unfold well_formed, new_appointment. rewrite andb_true_iff.
  intros [_ H] Hid. apply Z.leb_le in Hid. rewrite Hid.
  destruct (bind_int4 (Body.slot_id body)); [| discriminate].
  destruct (bind_varchar 255 (Body.patient_name body)); [| discriminate].
  destruct (bind_varchar 255 (Body.patient_email body)); [| discriminate].
  destruct (bind_varchar 20 (Body.patient_phone body)); [| discriminate].
  destruct (bind_int4 (Body.patient_age body)); [| discriminate].
  destruct (bind_text (Body.reason_for_visit body)); [| discriminate].
  eauto.
Qed.

Ltac local_step db db1 l1 l2 c HTc Hpc :=
  apply (invariant_local_step db db1 l1 l2 c);
  rewrite ?(target_holds c HTc);
  try match goal with
      | |- context [holds sid (at_pc ?p c)] =>
          rewrite (target_holds (at_pc p c) HTc)
      end;
  unfold locking;
  try reflexivity; try assumption;
  try (unfold answer_is, writing; rewrite ?Hpc; simpl; congruence);
  try (simpl; rewrite ?Hpc; intros; intuition discriminate);
  try (intros _; unfold writing; simpl; rewrite ?Hpc; simpl; lia).

Lemma call_step_preserves (db db' : DB) (l1 l2 : list Call) (c : Call)
    (p : PC) :
  lock_invariant seq0 sid db (l1 ++ c :: l2) ->
  call_step (fun s => existsb (holds s) (l1 ++ l2)) c db = Some (p, db') ->
  lock_invariant seq0 sid db' (l1 ++ at_pc p c :: l2).
Proof.
  intros Hinv Hstep.
  pose proof (inv_target _ _ _ _ Hinv) as HT.
  pose proof (inv_rows _ _ _ _ Hinv) as HR.
  pose proof (inv_new _ _ _ _ Hinv) as HN.
  pose proof (inv_slot _ _ _ _ Hinv) as HS.
  apply Forall_mid in HT. destruct HT as (_ & HTc & _).
  apply Forall_mid in HR. destruct HR as (_ & HRc & _).
  apply Forall_mid in HN. destruct HN as (_ & HNc & _).
  assert (Hcaught : forall st, call_fails c st = true ->
            answer_is is_Booked c = false ->
            lock_invariant seq0 sid db (l1 ++ at_pc (Done ErrorBooking) c :: l2)).
  { intros st F Hk.
    assert (Hno : Forall (clean sid) (l1 ++ c :: l2) -> False).
    { intros Hcl. apply Forall_mid in Hcl.
      destruct Hcl as (_ & (Hf & _) & _). rewrite Hf in F. discriminate. }
    local_step db db l1 l2 c HTc Hpc;
      first [intros _ Hcl; destruct (Hno Hcl)
            | intros Hcl; destruct (Hno Hcl)]. }
  assert (Hopen : answered c = false -> answer_is is_Booked c = false).
  { unfold answered, answer_is. destruct (pc c); congruence. }
  unfold call_step in Hstep.
  destruct (pc c) as [| | rows | a | a | r] eqn:Hpc.
  - (* AtStart *)
    destruct (missing_field (call_body c)) eqn:Hv.
    { inversion Hstep; subst p db'. local_step db db l1 l2 c HTc Hpc.
      intros _ Hcl r _. apply Forall_mid in Hcl.
      destruct Hcl as (_ & (_ & Hw & _) & _).
      unfold well_formed in Hw. rewrite Hv in Hw. discriminate. }
    destruct (call_fails c BEGIN) eqn:F.
    { inversion Hstep; subst p db'. apply (Hcaught _ F), Hopen.
      unfold answered. rewrite Hpc. reflexivity. }
    inversion Hstep; subst p db'. local_step db db l1 l2 c HTc Hpc.
  - (* AfterBegin *)
    destruct (call_fails c SELECT_SLOT_FOR_UPDATE) eqn:F.
    { inversion Hstep; subst p db'. apply (Hcaught _ F), Hopen.
      unfold answered. rewrite Hpc. reflexivity. }
    rewrite HTc in Hstep.
    destruct (select_slot sid db) as [| slot rest] eqn:Hsel;
      [congruence |].
    destruct (existsb (holds sid) (l1 ++ l2)) eqn:Hheld; [discriminate |].
    inversion Hstep; subst p db'. local_step db db l1 l2 c HTc Hpc.
  - (* Selected *)
    pose proof (HRc rows eq_refl) as Hrows.
    destruct rows as [| slot rest]; [congruence |].
    assert (Hin : In slot (select_slot sid db)).
    { rewrite <- Hrows. left. reflexivity. }
    destruct (Slot.is_booked slot) eqn:Hb.
    { inversion Hstep; subst p db'. local_step db db l1 l2 c HTc Hpc.
      - simpl. intros _. exists slot. tauto.
      - simpl. intros _ _ r Hr. inversion Hr. left. reflexivity. }
    destruct (call_fails c INSERT_APPOINTMENT) eqn:F.
    { inversion Hstep; subst p db'. apply (Hcaught _ F), Hopen.
      unfold answered. rewrite Hpc. reflexivity. }
    destruct (new_appointment (call_now c) (call_body c)
                (appointments_id_seq db)) as [a |] eqn:Hnew.
    + inversion Hstep; subst p db'.
      destruct (new_appointment_fields _ _ _ _ Hnew) as (_ & Hs & Hp & _).
      local_step db
        (mkDB (slots db) (appointments db) (appointments_id_seq db + 1))
        l1 l2 c HTc Hpc.
      * simpl. intros a0 [H | H]; inversion H; subst a0.
        split; congruence.
      * simpl. intros _. right. exists slot. tauto.
    + inversion Hstep; subst p db'. local_step db db l1 l2 c HTc Hpc.
      intros Hroom Hcl r _. exfalso.
      pose proof (inv_seq _ _ _ _ Hinv Hcl) as Hq.
      pose proof (inv_lock _ _ _ _ Hinv) as HL.
      destruct (inv_state _ _ _ _ Hinv) as (b & Hflag & Hst).
      pose proof (inv_target _ _ _ _ Hinv) as HT'.
      apply Forall_mid in HT'. destruct HT' as (HT1 & _ & HT2).
      assert (Hfree : b = false).
      { apply (uniform_flag _ _ _ Hflag). exists slot. tauto. }
      subst b. destruct Hst as (Hk & _ & _).
      rewrite count_mid in HL. rewrite (target_holds c HTc) in HL.
      assert (Hlock : locking c = true)
        by (unfold locking; rewrite Hpc; reflexivity).
      rewrite Hlock in HL.
      assert (Hf1 := no_holder_none_locking l1 HT1 ltac:(lia)).
      assert (Hf2 := no_holder_none_locking l2 HT2 ltac:(lia)).
      rewrite Hk, count_mid in Hq.
      rewrite (none_locking_none_writing l1 Hf1) in Hq.
      rewrite (none_locking_none_writing l2 Hf2) in Hq.
      assert (Hw0 : writing c = false)
        by (unfold writing; rewrite Hpc; reflexivity).
      rewrite Hw0 in Hq. simpl in Hq.
      apply Forall_mid in Hcl. destruct Hcl as (_ & (_ & Hw & _) & _).
      destruct (new_appointment_fits _ (call_now c)
                  (appointments_id_seq db) Hw ltac:(lia)) as (a & Ha).
      congruence.
  - (* Inserted *)
    destruct (call_fails c UPDATE_SLOT_BOOKED) eqn:F.
    { inversion Hstep; subst p db'. apply (Hcaught _ F), Hopen.
      unfold answered. rewrite Hpc. reflexivity. }
    rewrite HTc in Hstep. inversion Hstep; subst p db'.
    local_step db db l1 l2 c HTc Hpc.
    simpl. intros a0 [H | H]; inversion H; subst a0.
    apply HNc. left. reflexivity.
  - (* Updated *)
    destruct (call_fails c COMMIT) eqn:F.
    { inversion Hstep; subst p db'. apply (Hcaught _ F), Hopen.
      unfold answered. rewrite Hpc. reflexivity. }
    inversion Hstep; subst p db'.
    apply invariant_commit; assumption.
  - discriminate.
Qed.

Lemma sched_step_preserves (W : World) (i : nat) :
  lock_invariant seq0 sid (committed W) (calls W) ->
  lock_invariant seq0 sid (committed (sched_step W i)) (calls (sched_step W i)).
Proof.
  intros Hinv. unfold sched_step.
  destruct (nth_error (calls W) i) as [c |] eqn:E; [| exact Hinv].
  destruct (call_step _ c (committed W)) as [[p db'] |] eqn:Hstep;
    [| exact Hinv].
  simpl. unfold others in Hstep.
  rewrite (nth_error_decompose _ _ _ E) in Hinv.
  exact (call_step_preserves _ _ _ _ c p Hinv Hstep).
Qed.

Lemma exec_preserves (schedule : list nat) (W : World) :
  lock_invariant seq0 sid (committed W) (calls W) ->
  lock_invariant seq0 sid (committed (exec W schedule))
    (calls (exec W schedule)).
Proof.
  revert W. induction schedule as [| i schedule IH]; intros W Hinv;
    [exact Hinv |].
  simpl. apply IH. apply sched_step_preserves. exact Hinv.
Qed.

Lemma start_invariant (db : DB) (cs : list Call) :
  select_slot sid db <> [] ->
  Forall (fun s => Slot.is_booked s = false) (select_slot sid db) ->
  count (pending_on sid) (appointments db) = 0%nat ->
  Forall (fun c => pc c = AtStart
                   /\ bind_int4 (Body.slot_id (call_body c)) = Some sid)
    cs ->
  appointments_id_seq db <= seq0 ->
  lock_invariant seq0 sid db cs.
Proof.
  intros HS Hfree Hpend Hcs Hseq. rewrite Forall_forall in Hcs.
  assert (Hpc : forall c, In c cs -> pc c = AtStart).
  { intros c Hc. apply Hcs. exact Hc. }
  assert (Hzero : forall p : Call -> bool,
            (forall c, pc c = AtStart -> p c = false) ->
            count p cs = 0%nat).
  { intros p Hp. apply count_zero. intros c Hc. apply Hp, Hpc, Hc. }
  constructor.
  - apply Forall_forall. intros c Hc. apply Hcs. exact Hc.
  - exact HS.
  - rewrite Hzero; [lia |]. intros c Hc. unfold holds, locking.
    rewrite Hc. reflexivity.
  - apply Forall_forall. intros c Hc rows H. rewrite (Hpc c Hc) in H.
    discriminate H.
  - apply Forall_forall. intros c Hc a [H | H]; rewrite (Hpc c Hc) in H;
      discriminate H.
  - exists false. split; [exact Hfree |].
    rewrite !Hzero; [tauto | |]; intros c Hc; unfold answer_is;
      rewrite Hc; reflexivity.
  - intros _ _. apply Forall_forall. intros c Hc r H.
    rewrite (Hpc c Hc) in H. discriminate H.
  - apply Forall_forall. intros c Hc a H. rewrite (Hpc c Hc) in H.
    discriminate H.
  - intros _. rewrite !Hzero; [simpl; lia | |]; intros c Hc;
      unfold answer_is, writing; rewrite Hc; reflexivity.
Qed.


(** Whatever statements fail and whatever the patient fields are, calls
    for one free slot never answer success twice, and never leave two
    PENDING appointments on it. *)
Lemma at_most_one_booking (db : DB) (cs : list Call)
    (schedule : list nat) :
  select_slot sid db <> [] ->
  Forall (fun s => Slot.is_booked s = false) (select_slot sid db) ->
  count (pending_on sid) (appointments db) = 0%nat ->
  Forall (fun c => pc c = AtStart
                   /\ bind_int4 (Body.slot_id (call_body c)) = Some sid)
    cs ->
  appointments_id_seq db <= seq0 ->
  let W := exec (mkWorld db cs) schedule in
  (count (answer_is is_Booked) (calls W) <= 1)%nat
  /\ (count (pending_on sid) (appointments (committed W)) <= 1)%nat.
Proof.
  intros HS Hfree Hpend Hcs Hseq W.
  assert (Hinv : lock_invariant seq0 sid (committed W) (calls W)).
  { apply exec_preserves. apply start_invariant; assumption. }
  destruct (inv_state _ _ _ _ Hinv) as (b & _ & Hst).
  destruct b; destruct Hst as (H1 & H2 & _); lia.
Qed.

End OneSlot.

(** *** Every interleaving can be completed *)










(** *** What a completed run looks like *)








(** ** Where the invariant is kept

    [book], [confirm] and the sweeper keep the invariant, whatever fails;
    so does [cancel] of an appointment that is PENDING or CONFIRMED. *)

Lemma slot_consistent_count (apps : list Appointment.t) (s : Slot.t) :
  slot_consistent apps s
  <-> count (claims (Slot.id s)) apps
      = if Slot.is_booked s then 1%nat else 0%nat.
Proof.
  rewrite <- slot_consistentb_spec. unfold slot_consistentb.
  rewrite andb_true_iff, Nat.leb_le, eqb_true_iff.
  destruct (Slot.is_booked s); split.
  - intros [H1 H2]. symmetry in H1. apply Nat.ltb_lt in H1. lia.
  - intros H. rewrite H. split; [reflexivity | lia].
  - intros [H1 H2]. symmetry in H1. apply Nat.ltb_ge in H1. lia.
  - intros H. rewrite H. split; [reflexivity | lia].
Qed.

Lemma count_map {A B : Type} (p : B -> bool) (f : A -> B) (l : list A) :
  count p (map f l) = count (fun a => p (f a)) l.
Proof.
  unfold count. induction l as [| a l IH]; simpl; [reflexivity |].
  destruct (p (f a)); simpl; rewrite IH; reflexivity.
Qed.

Lemma count_ext_in {A : Type} (p q : A -> bool) (l : list A) :
  (forall a, In a l -> p a = q a) -> count p l = count q l.
Proof.
  unfold count. induction l as [| a l IH]; intros H; simpl; [reflexivity |].
  rewrite (H a (or_introl eq_refl)).
  assert (Hl : List.length (filter p l) = List.length (filter q l)).
  { apply IH. intros b Hb. apply H. right. exact Hb. }
  destruct (q a); simpl; rewrite Hl; reflexivity.
Qed.

Lemma count_split {A : Type} (p q : A -> bool) (l : list A) :
  count p l
  = (count (fun a => p a && q a) l
     + count (fun a => p a && negb (q a)) l)%nat.
Proof.
  unfold count. induction l as [| a l IH]; simpl; [reflexivity |].
  destruct (p a), (q a); simpl; lia.
Qed.

Lemma Consistent_tables (db db' : DB) :
  slots db' = slots db -> appointments db' = appointments db ->
  Consistent db -> Consistent db'.
Proof.
  unfold Consistent. intros Hs Ha H. rewrite Hs, Ha. exact H.
Qed.

Lemma book_keeps_invariant (fails : Oracle) (now : Timestamp)
    (body : Body.t) (db : DB) :
  Consistent db -> Consistent (snd (book fails now body db)).
Proof.
  intros Hc.
  destruct (book_outcomes fails now body db)
    as [Hv | sid Hsid Hsel | sid slot rest Hsid Hsel Hb | seq
        | sid slot rest a Hv Hsid Hsel Hb Hnew]; try exact Hc.
  destruct (new_appointment_fields _ _ _ _ Hnew) as (_ & Hslot & Hst & _).
    assert (Hsame : Appointment.slot_id a = sid) by congruence.
    assert (Hslotin : In slot (slots db) /\ Slot.id slot = sid).
    { assert (Hin : In slot (select_slot sid db)).
      { rewrite Hsel. left. reflexivity. }
      apply filter_In in Hin. rewrite Z.eqb_eq in Hin. exact Hin. }
    destruct Hslotin as [Hslotin Hslotid].
    pose proof (Hc slot Hslotin) as Hfree.
    apply slot_consistent_count in Hfree. rewrite Hb, Hslotid in Hfree.
    intros s' Hs'. simpl in Hs'. apply in_map_iff in Hs'.
    destruct Hs' as (s & Hs' & Hs).
    pose proof (Hc s Hs) as Hcs. apply slot_consistent_count in Hcs.
    apply slot_consistent_count. simpl appointments.
    rewrite count_app.
    destruct (Slot.id s =? sid) eqn:E; subst s'.
    + apply Z.eqb_eq in E. simpl. rewrite E in *. rewrite Hfree.
      unfold count, claims, active. simpl.
      rewrite Hsame, Hst, Z.eqb_refl. reflexivity.
    + assert (Hz : count (claims (Slot.id s)) [a] = 0%nat).
      { unfold count, claims. simpl. rewrite Hsame, Z.eqb_sym, E.
        reflexivity. }
      rewrite Hcs, Hz. lia.
Qed.

Lemma confirm_keeps_invariant (fails : Oracle) (now : Timestamp)
    (id : string) (db : DB) :
  Consistent db -> Consistent (snd (confirm fails now id db)).
Proof.
  intros Hc. unfold confirm, query.
  destruct (fails UPDATE_CONFIRM); [exact Hc |].
  destruct (int4in id) as [n |]; [| exact Hc].
  assert (Hgoal : Consistent (snd (update_confirm now n db))).
  { intros s Hs. simpl in Hs. apply slot_consistent_count.
    simpl appointments. rewrite count_map.
    rewrite (count_ext_in _ (claims (Slot.id s))).
    - apply slot_consistent_count. apply Hc. exact Hs.
    - intros a _. destruct (confirmable n a) eqn:E; [| reflexivity].
      apply confirmable_iff in E. destruct E as [_ E].
      unfold claims, active, confirm_row. simpl. rewrite E. reflexivity. }
  unfold update_confirm in *. simpl in *.
  destruct (map (confirm_row now) (filter (confirmable n) (appointments db)));
    exact Hgoal.
Qed.

Lemma sweep_keeps_invariant (fails : Oracle) (now : Timestamp) (db : DB) :
  Consistent db -> Consistent (snd (sweep_tick fails now db)).
Proof.
  intros Hc. destruct (sweep_tick_all_or_nothing fails now db) as [H | H];
    rewrite H; [| exact Hc].
  rewrite sweep_tick_ok. unfold expire_pending. cbn [snd].
  intros s' Hs'. cbn [slots] in Hs'. apply in_map_iff in Hs'.
  destruct Hs' as (s & Hs' & Hs).
  pose proof (Hc s Hs) as Hcs. apply slot_consistent_count in Hcs.
  apply slot_consistent_count. cbn [appointments].
  assert (Hid : Slot.id s' = Slot.id s).
  { subst s'. destruct (existsb _ _); reflexivity. }
  rewrite Hid, count_map.
  rewrite (count_ext_in _
             (fun a => claims (Slot.id s) a && negb (expired now a))).
  2:{ intros a _. destruct (expired now a) eqn:E.
      - unfold claims, active. simpl. rewrite !andb_false_r. reflexivity.
      - rewrite andb_true_r. reflexivity. }
  pose proof (count_split (claims (Slot.id s)) (expired now)
                (appointments db)) as Hsplit.
  destruct (existsb (Z.eqb (Slot.id s))
              (map Appointment.slot_id
                 (filter (expired now) (appointments db)))) eqn:Hhit;
    subst s'.
  - apply slot_hit_iff in Hhit. destruct Hhit as (a & Ha & Hstale & Hsl).
    assert (Hpos : (0 < count (fun a => claims (Slot.id s) a
                                        && expired now a)
                          (appointments db))%nat).
    { apply count_pos_iff. exists a. split; [exact Ha |].
      apply andb_true_iff. split.
      - apply claims_iff. split; [exact Hsl |].
        destruct Hstale as [Hp _]. unfold active. rewrite Hp. reflexivity.
      - apply expired_iff. exact Hstale. }
    simpl. destruct (Slot.is_booked s); lia.
  - assert (Hzero : count (fun a => claims (Slot.id s) a && expired now a)
                      (appointments db) = 0%nat).
    { apply count_zero. intros a Ha.
      destruct (claims (Slot.id s) a && expired now a) eqn:E;
        [| reflexivity].
      apply andb_true_iff in E. destruct E as [E1 E2].
      apply claims_iff in E1. apply expired_iff in E2.
      assert (Ht : existsb (Z.eqb (Slot.id s))
                     (map Appointment.slot_id
                        (filter (expired now) (appointments db))) = true).
      { apply slot_hit_iff. exists a. tauto. }
      congruence. }
    lia.
Qed.

Lemma cancel_active_keeps_invariant (fails : Oracle) (id : string)
    (db : DB) :
  NoDup (map Appointment.id (appointments db)) ->
  (forall a n, In a (appointments db) -> int4in id = Some n ->
               Appointment.id a = n -> active a = true) ->
  Consistent db -> Consistent (snd (cancel fails id db)).
Proof.
  intros Hnd Hact Hc. unfold cancel, cancel_try, bind, query, ROLLBACK, ret.
  destruct (fails BEGIN); [rewrite rollback_to_same; exact Hc |].
  destruct (fails SELECT_APPOINTMENT);
    [rewrite rollback_to_same; exact Hc |].
  destruct (int4in id) as [n |] eqn:Hid;
    [| rewrite rollback_to_same; exact Hc].
  destruct (select_appointment n db) as [| a rest] eqn:Hsel.
  { simpl. rewrite rollback_to_same. exact Hc. }
  destruct (fails UPDATE_CANCELLED);
    [eapply Consistent_tables; [| | exact Hc]; reflexivity |].
  destruct (fails UPDATE_SLOT_FREE);
    [eapply Consistent_tables; [| | exact Hc]; reflexivity |].
  destruct (fails COMMIT);
    [eapply Consistent_tables; [| | exact Hc]; reflexivity |].
  cbn [snd].
  assert (Hin : In a (appointments db) /\ Appointment.id a = n).
  { assert (H : In a (select_appointment n db)).
    { rewrite Hsel. left. reflexivity. }
    apply filter_In in H. rewrite Z.eqb_eq in H. exact H. }
  destruct Hin as [Hin Hn].
  pose proof (Hact a n Hin eq_refl Hn) as Hactive.
  intros s' Hs'. cbn in Hs'. apply in_map_iff in Hs'.
  destruct Hs' as (s & Hs' & Hs).
  pose proof (Hc s Hs) as Hcs. apply slot_consistent_count in Hcs.
  apply slot_consistent_count. cbn [appointments update_slot_is_booked
    with_slots update_cancelled with_appointments].
  assert (Hid' : Slot.id s' = Slot.id s).
  { subst s'. destruct (Slot.id s =? Appointment.slot_id a); reflexivity. }
  rewrite Hid', count_map.
  rewrite (count_ext_in _
             (fun b => claims (Slot.id s) b
                       && negb (Appointment.id b =? n))).
  2:{ intros b _. destruct (Appointment.id b =? n) eqn:E.
      - unfold claims, active. simpl. rewrite !andb_false_r. reflexivity.
      - rewrite andb_true_r. reflexivity. }
  pose proof (count_split (claims (Slot.id s))
                (fun b => Appointment.id b =? n) (appointments db))
    as Hsplit.
  cbv beta in Hsplit.
  destruct (Slot.id s =? Appointment.slot_id a) eqn:E; subst s'.
  - apply Z.eqb_eq in E.
    assert (Hpos : (0 < count (fun b => claims (Slot.id s) b
                                        && (Appointment.id b =? n)%Z)
                          (appointments db))%nat).
    { apply count_pos_iff. exists a. split; [exact Hin |].
      apply andb_true_iff. split.
      - apply claims_iff. split; [congruence | exact Hactive].
      - apply Z.eqb_eq. exact Hn. }
    simpl. destruct (Slot.is_booked s); lia.
  - assert (Hzero : count (fun b => claims (Slot.id s) b
                                    && (Appointment.id b =? n)%Z)
                      (appointments db) = 0%nat).
    { apply count_zero. intros b Hb.
      destruct (claims (Slot.id s) b && (Appointment.id b =? n)) eqn:E2;
        [| reflexivity].
      apply andb_true_iff in E2. destruct E2 as [E1 E2].
      apply claims_iff in E1. apply Z.eqb_eq in E2.
      assert (Hba : [b] = [a]).
      { rewrite <- (select_by_key Appointment.id _ b Hnd Hb).
        rewrite <- (select_by_key Appointment.id _ a Hnd Hin).
        rewrite E2, Hn. reflexivity. }
      inversion Hba. subst b. apply Z.eqb_neq in E. destruct E1 as [E1 _].
      congruence. }
    lia.
Qed.

(** Every sequence of [book], [confirm] and sweep ticks keeps the
    invariant. *)
Lemma run_without_cancel_keeps_invariant (ops : list Op) (db : DB) :
  forallb (fun o => negb (is_cancel o)) ops = true ->
  Consistent db -> Consistent (run db ops).
Proof.
  revert db. induction ops as [| o ops IH]; intros db Hops Hc;
    [exact Hc |].
  simpl in Hops. apply andb_true_iff in Hops. destruct Hops as [Ho Hops].
  simpl. apply IH; [exact Hops |].
  destruct o; simpl in *; try discriminate.
  - apply book_keeps_invariant. exact Hc.
  - apply confirm_keeps_invariant. exact Hc.
  - apply sweep_keeps_invariant. exact Hc.
Qed.

(** ** The scenarios of the interface *)

(** After the [cancel] of the expired appointment 1 the slot that
    appointment 2 holds is offered again, and a third booking succeeds:
    two PENDING appointments on slot 1. *)
Example stale_cancel_double_booking :
  let db := run db_free (history_stale ++ [OpCancel no_faults "1"]) in
  success (fst (book no_faults (5 * minute) patientA db)) = true
  /\ map Appointment.status
       (appointments (snd (book no_faults (5 * minute) patientA db)))
     = [CANCELLED; PENDING; PENDING]
  /\ count (claims 1)
       (appointments (snd (book no_faults (5 * minute) patientA db)))
     = 2%nat.
Proof. repeat split. Qed.

Example scenario_rebook :
  map Appointment.status (appointments (run db_free history_rebook))
  = [CANCELLED; PENDING]
  /\ map Slot.is_booked (slots (run db_free history_rebook)) = [true]
  /\ Consistent (run db_free history_rebook).
Proof.
  split; [reflexivity |]. split; [reflexivity |].
  apply consistentb_spec. reflexivity.
Qed.

Example scenario_expiry :
  let db := snd (sweep_tick no_faults (121 * second) db_pending) in
  map Appointment.status (appointments db) = [FAILED]
  /\ map Slot.is_booked (slots db) = [false]
  /\ fst (confirm no_faults (122 * second) "1" db)
     = NotFoundOrAlreadyProcessed.
Proof. repeat split. Qed.

(** A call that asks for a locked row waits: with [patientA] between its
    [SELECT ... FOR UPDATE] and its [COMMIT], turns given to [patientB]
    after its [BEGIN] change nothing. *)
Example second_call_waits :
  let W := exec (init db_free rush) [0%nat; 0%nat; 1%nat] in
  map pc (calls W) = [Selected [slot1]; AfterBegin]
  /\ exec W [1%nat; 1%nat; 1%nat] = W.
Proof. split; reflexivity. Qed.

(** ** What every run keeps *)

Lemma confirm_effect (fails : Oracle) (now : Timestamp) (id : string)
    (db : DB) :
  snd (confirm fails now id db) = db
  \/ exists n, int4in id = Some n
               /\ snd (confirm fails now id db)
                  = snd (update_confirm now n db).
Proof.
  unfold confirm, query. destruct (fails UPDATE_CONFIRM); [left; reflexivity |].
  destruct (int4in id) as [n |]; [| left; reflexivity].
  right. exists n. split; [reflexivity |].
  destruct (update_confirm now n db) as [[| row rows] w]; reflexivity.
Qed.

Lemma cancel_effect (fails : Oracle) (id : string) (db : DB) :
  snd (cancel fails id db) = db
  \/ exists n a rest,
       int4in id = Some n /\ select_appointment n db = a :: rest
       /\ cancel fails id db
          = (Cancelled,
             update_slot_is_booked false (Appointment.slot_id a)
               (update_cancelled n db)).
Proof.
  unfold cancel, cancel_try, bind, query, ROLLBACK, ret.
  destruct (fails BEGIN); [left; apply rollback_to_same |].
  destruct (fails SELECT_APPOINTMENT); [left; apply rollback_to_same |].
  destruct (int4in id) as [n |] eqn:Hid; [| left; apply rollback_to_same].
  destruct (select_appointment n db) as [| a rest] eqn:Hsel.
  { left. simpl. apply rollback_to_same. }
  destruct (fails UPDATE_CANCELLED); [left; destruct db; reflexivity |].
  destruct (fails UPDATE_SLOT_FREE); [left; destruct db; reflexivity |].
  destruct (fails COMMIT); [left; destruct db; reflexivity |].
  right. exists n, a, rest. split; [reflexivity |].
  split; [exact Hsel | reflexivity].
Qed.

Lemma book_effect (fails : Oracle) (now : Timestamp) (body : Body.t)
    (db : DB) :
  (slots (snd (book fails now body db)) = slots db
   /\ appointments (snd (book fails now body db)) = appointments db
   /\ (appointments_id_seq (snd (book fails now body db))
       = appointments_id_seq db
       \/ appointments_id_seq (snd (book fails now body db))
          = appointments_id_seq db + 1))
  \/ exists sid a,
       bind_int4 (Body.slot_id body) = Some sid
       /\ new_appointment now body (appointments_id_seq db) = Some a
       /\ book fails now body db
          = (Booked a,
             update_slot_is_booked true sid
               (mkDB (slots db) (appointments db ++ [a])
                  (appointments_id_seq db + 1))).
Proof.
  unfold book, book_try.
  destruct (missing_field body); [left; simpl; tauto |].
  unfold bind, query, ROLLBACK, ret, insert_appointment.
  destruct (fails BEGIN); [left; simpl; tauto |].
  destruct (fails SELECT_SLOT_FOR_UPDATE); [left; simpl; tauto |].
  destruct (bind_int4 (Body.slot_id body)) as [sid |] eqn:Hsid;
    [| left; simpl; tauto].
  destruct (select_slot sid db) as [| slot rest]; [left; simpl; tauto |].
  destruct (Slot.is_booked slot); [left; simpl; tauto |].
  destruct (fails INSERT_APPOINTMENT); [left; simpl; tauto |].
  destruct (new_appointment now body (appointments_id_seq db)) as [a |]
    eqn:Hnew; [| left; simpl; tauto].
  destruct (fails UPDATE_SLOT_BOOKED); [left; simpl; tauto |].
  destruct (fails COMMIT); [left; simpl; tauto |].
  right. exists sid, a. split; [reflexivity |].
  split; reflexivity.
Qed.

Lemma Forall2_same {A : Type} (R : A -> A -> Prop) (l : list A) :
  (forall a, R a a) -> Forall2 R l l.
Proof. intros H. induction l; constructor; auto. Qed.

Lemma Forall2_map_step {A : Type} (R : A -> A -> Prop) (f : A -> A)
    (l : list A) :
  (forall a, R a (f a)) -> Forall2 R l (map f l).
Proof. intros H. induction l; simpl; constructor; auto. Qed.

Lemma same_slot_refl (s : Slot.t) : same_slot s s.
Proof. unfold same_slot. destruct s; reflexivity. Qed.

Lemma same_slot_set (b : bool) (s : Slot.t) :
  same_slot s (Slot.set_is_booked b s).
Proof. reflexivity. Qed.

Lemma same_slot_trans (s1 s2 s3 : Slot.t) :
  same_slot s1 s2 -> same_slot s2 s3 -> same_slot s1 s3.
Proof.
  unfold same_slot. intros H1 H2. rewrite H2. rewrite H1 at 1. reflexivity.
Qed.

Lemma update_slot_same_slot (b : bool) (sid : Z) (db : DB) :
  Forall2 same_slot (slots db) (slots (update_slot_is_booked b sid db)).
Proof.
  unfold update_slot_is_booked. simpl. apply Forall2_map_step.
  intros s. destruct (Slot.id s =? sid);
    [apply same_slot_set | apply same_slot_refl].
Qed.

(** What one operation does to the tables. *)
Lemma apply_op_effect (db : DB) (o : Op) :
  exists kept more,
    appointments (apply_op db o) = kept ++ more
    /\ Forall2 row_step (appointments db) kept
    /\ Forall (fun a => Appointment.id a = appointments_id_seq db
                        /\ Appointment.status a = PENDING
                        /\ Appointment.confirmation_time a = None) more
    /\ (List.length more <= 1)%nat
    /\ appointments_id_seq db <= appointments_id_seq (apply_op db o)
    /\ (more <> [] ->
        appointments_id_seq (apply_op db o) = appointments_id_seq db + 1)
    /\ Forall2 same_slot (slots db) (slots (apply_op db o)).
Proof.
  assert (Hsame : forall db', slots db' = slots db ->
            appointments db' = appointments db ->
            appointments_id_seq db <= appointments_id_seq db' ->
            exists kept more,
              appointments db' = kept ++ more
              /\ Forall2 row_step (appointments db) kept
              /\ Forall (fun a => Appointment.id a = appointments_id_seq db
                                  /\ Appointment.status a = PENDING
                                  /\ Appointment.confirmation_time a = None)
                   more
              /\ (List.length more <= 1)%nat
              /\ appointments_id_seq db <= appointments_id_seq db'
              /\ (more <> [] ->
                  appointments_id_seq db' = appointments_id_seq db + 1)
              /\ Forall2 same_slot (slots db) (slots db')).
  { intros db' Hs Ha Hq. exists (appointments db), [].
    rewrite Ha, Hs, app_nil_r. repeat split; auto.
    - apply Forall2_same. apply row_same.
    - congruence.
    - apply Forall2_same. apply same_slot_refl. }
  destruct o as [fails now body | fails now id | fails id | fails now];
    simpl.
  - destruct (book_effect fails now body db)
      as [(Hs & Ha & Hq) | (sid & a & Hsid & Hnew & Hbook)].
    + apply Hsame; try assumption. destruct Hq as [Hq | Hq]; lia.
    + rewrite Hbook. simpl.
      destruct (new_appointment_fields _ _ _ _ Hnew)
        as (Hid & _ & Hst & _ & Hct).
      exists (appointments db), [a]. repeat split; auto; try lia.
      * apply Forall2_same. apply row_same.
      * apply (update_slot_same_slot true sid
                 (mkDB (slots db) (appointments db ++ [a])
                    (appointments_id_seq db + 1))).
  - destruct (confirm_effect fails now id db) as [H | (n & _ & H)];
      rewrite H.
    + apply Hsame; auto. lia.
    + simpl. exists (map (fun a => if confirmable n a
                                   then confirm_row now a else a)
                       (appointments db)), [].
      rewrite app_nil_r. repeat split; auto; try lia; try congruence.
      * apply Forall2_map_step. intros a.
        destruct (confirmable n a) eqn:E; [| apply row_same].
        apply confirmable_iff in E. apply row_confirmed. tauto.
      * apply Forall2_same. apply same_slot_refl.
  - destruct (cancel_effect fails id db)
      as [H | (n & a & rest & _ & _ & H)]; rewrite H.
    + apply Hsame; auto. lia.
    + simpl. exists (map (fun b => if Appointment.id b =? n
                                   then Appointment.set_status CANCELLED b
                                   else b) (appointments db)), [].
      rewrite app_nil_r. repeat split; auto; try lia; try congruence.
      * apply Forall2_map_step. intros b.
        destruct (Appointment.id b =? n);
          [apply row_cancelled | apply row_same].
      * apply (update_slot_same_slot false (Appointment.slot_id a)
                 (update_cancelled n db)).
  - destruct (sweep_tick_all_or_nothing fails now db) as [H | H];
      rewrite H.
    + rewrite sweep_tick_ok. unfold expire_pending. cbn [snd].
      cbn [slots appointments appointments_id_seq].
      exists (map (fun a => if expired now a
                            then Appointment.set_status FAILED a else a)
                (appointments db)), [].
      rewrite app_nil_r. repeat split; auto; try lia; try congruence.
      * apply Forall2_map_step. intros a.
        destruct (expired now a) eqn:E; [| apply row_same].
        apply expired_iff in E. apply row_failed. apply E.
      * apply Forall2_map_step. intros s.
        destruct (existsb _ _);
          [apply same_slot_set | apply same_slot_refl].
    + apply Hsame; auto. lia.
Qed.

Lemma Forall2_trans {A : Type} (R : A -> A -> Prop) (l1 l2 l3 : list A) :
  (forall a b c, R a b -> R b c -> R a c) ->
  Forall2 R l1 l2 -> Forall2 R l2 l3 -> Forall2 R l1 l3.
Proof.
  intros Ht H12. revert l3.
  induction H12 as [| a b l1 l2 Hab _ IH]; intros l3 H23;
    inversion H23; subst; constructor; eauto.
Qed.

Lemma grows_trans (R : Appointment.t -> Appointment.t -> Prop)
    (l1 l2 l3 : list Appointment.t) :
  (forall a b c, R a b -> R b c -> R a c) ->
  grows R l1 l2 -> grows R l2 l3 -> grows R l1 l3.
Proof.
  intros Ht (k & m & H2 & H12) (k' & m' & H3 & H23). subst l2.
  apply Forall2_app_inv_l in H23.
  destruct H23 as (k1 & k2 & Hk1 & _ & Hk'). subst k' l3.
  exists k1, (k2 ++ m'). split; [symmetry; apply app_assoc |].
  exact (Forall2_trans R _ _ _ Ht H12 Hk1).
Qed.

Lemma run_grows (R : Appointment.t -> Appointment.t -> Prop)
    (ops : list Op) (db : DB) :
  (forall a a', row_step a a' -> R a a') ->
  (forall a b c, R a b -> R b c -> R a c) ->
  grows R (appointments db) (appointments (run db ops)).
Proof.
  intros Hstep Ht. revert db.
  induction ops as [| o ops IH]; intros db.
  - exists (appointments db), []. split; [symmetry; apply app_nil_r |].
    apply Forall2_same. intros a. apply Hstep, row_same.
  - simpl. eapply grows_trans; [exact Ht | | apply IH].
    destruct (apply_op_effect db o) as (kept & more & Happ & Hrows & _).
    exists kept, more. split; [exact Happ |].
    eapply Forall2_impl; [| exact Hrows]. exact Hstep.
Qed.

Lemma row_step_same_booking (a a' : Appointment.t) :
  row_step a a' -> same_booking a a'.
Proof. intros H. destruct H; repeat split. Qed.

Lemma row_step_moves (a a' : Appointment.t) :
  row_step a a' ->
  moves (Appointment.status a) (Appointment.status a') = true.
Proof.
  intros H. destruct H as [a | a now Hp | a | a Hp]; simpl;
    try rewrite Hp; try reflexivity; destruct (Appointment.status a);
    reflexivity.
Qed.

(** X1. The history of bookings is append-only.  Whatever operations run
    and whatever fails in them, the appointments present before are still
    there afterwards, at the same positions and with the same id, slot,
    patient fields and booking time; rows are only ever added after
    them. *)
Theorem run_keeps_bookings (ops : list Op) (db : DB) :
  grows same_booking (appointments db) (appointments (run db ops)).
Proof.
  apply run_grows; [exact row_step_same_booking |].
  unfold same_booking. intros a b c H1 H2.
  repeat split; etransitivity; try apply H2; apply H1.
Qed.

(** X2. The status of an appointment only moves forward.  Through any run,
    a row that is no longer PENDING never becomes PENDING again, a
    CONFIRMED row stays CONFIRMED or becomes CANCELLED, a FAILED row stays
    FAILED or becomes CANCELLED, and a CANCELLED row stays CANCELLED. *)
Theorem run_status_moves (ops : list Op) (db : DB) :
  grows (fun a a' =>
           moves (Appointment.status a) (Appointment.status a') = true)
    (appointments db) (appointments (run db ops)).
Proof.
  apply run_grows; [exact row_step_moves |].
  intros a b c. destruct (Appointment.status a), (Appointment.status b),
    (Appointment.status c); simpl; congruence.
Qed.

(** X3. No operation adds, removes or reorders a slot, or changes anything
    of a slot but its [is_booked] flag. *)
Theorem run_keeps_slots (ops : list Op) (db : DB) :
  Forall2 same_slot (slots db) (slots (run db ops)).
Proof.
  revert db. induction ops as [| o ops IH]; intros db.
  - apply Forall2_same. apply same_slot_refl.
  - simpl. eapply Forall2_trans; [exact same_slot_trans | | apply IH].
    destruct (apply_op_effect db o) as (_ & _ & _ & _ & _ & _ & _ & _ & H).
    exact H.
Qed.

Lemma row_step_id (a a' : Appointment.t) :
  row_step a a' -> Appointment.id a' = Appointment.id a.
Proof. intros H. destruct H; reflexivity. Qed.

Lemma Forall2_map_eq {A B : Type} (R : A -> A -> Prop) (f : A -> B)
    (l l' : list A) :
  (forall a a', R a a' -> f a' = f a) ->
  Forall2 R l l' -> map f l' = map f l.
Proof.
  intros Hf H. induction H as [| a a' l l' Ha _ IH]; simpl;
    [reflexivity |].
  rewrite (Hf a a' Ha), IH. reflexivity.
Qed.

Lemma apply_op_keeps_keys (db : DB) (o : Op) :
  keys_ok db -> keys_ok (apply_op db o).
Proof.
  intros [Hnd Hlt].
  destruct (apply_op_effect db o)
    as (kept & more & Happ & Hrows & Hnew & Hlen & Hseq & Hseq' & _).
  pose proof (Forall2_map_eq _ Appointment.id _ _ row_step_id Hrows)
    as Hids.
  unfold keys_ok. rewrite Happ, map_app, Hids. split.
  - destruct more as [| a [| b more]]; simpl in *; try lia.
    + rewrite app_nil_r. exact Hnd.
    + inversion Hnew as [| x l (Hid & _) _]; subst.
      apply NoDup_app; [exact Hnd | repeat constructor; auto |].
      intros k Hk [Hk' | []]. subst k. rewrite Hid in Hk.
      apply in_map_iff in Hk. destruct Hk as (b & Hb & Hin).
      rewrite Forall_forall in Hlt. specialize (Hlt b Hin). lia.
  - apply Forall_app. split.
    + apply Forall_forall. intros a' Ha'.
      assert (Hin : In (Appointment.id a')
                      (map Appointment.id (appointments db))).
      { rewrite <- Hids. apply in_map. exact Ha'. }
      apply in_map_iff in Hin. destruct Hin as (a & Ha & Hin).
      rewrite Forall_forall in Hlt. specialize (Hlt a Hin). lia.
    + apply Forall_forall. intros a Ha.
      rewrite Forall_forall in Hnew. destruct (Hnew a Ha) as (Hid & _).
      assert (Hne : more <> []) by (intros E; subst more; destruct Ha).
      rewrite (Hseq' Hne). lia.
Qed.

(** X4. The primary key of [appointments] holds through every run: if the
    ids are distinct and below the next value of the sequence, they still
    are after any operations, whatever fails in them (a rolled-back booking
    only burns a sequence value). *)
Theorem run_keeps_keys (ops : list Op) (db : DB) :
  keys_ok db -> keys_ok (run db ops).
Proof.
  revert db. induction ops as [| o ops IH]; intros db H; [exact H |].
  simpl. apply IH. apply apply_op_keeps_keys. exact H.
Qed.

Lemma row_step_stamped (a a' : Appointment.t) :
  row_step a a' -> stamped a -> stamped a'.
Proof.
  unfold stamped. intros H. destruct H as [a | a now Hp | a | a Hp];
    simpl; try rewrite Hp; auto. discriminate.
Qed.

Lemma apply_op_keeps_stamps (db : DB) (o : Op) :
  Forall stamped (appointments db) ->
  Forall stamped (appointments (apply_op db o)).
Proof.
  intros H.
  destruct (apply_op_effect db o)
    as (kept & more & Happ & Hrows & Hnew & _).
  rewrite Happ. apply Forall_app. split.
  - clear Happ. induction Hrows as [| a a' l l' Ha _ IH];
      [constructor |].
    inversion H; subst. constructor; [| apply IH; assumption].
    eapply row_step_stamped; eassumption.
  - eapply Forall_impl; [| exact Hnew].
    intros a (_ & Hp & Hc). unfold stamped. rewrite Hp. exact Hc.
Qed.

(** X5. [confirmation_time] follows [status] through every run: it is NULL
    on every PENDING and every FAILED appointment and set on every
    CONFIRMED one. *)
Theorem run_keeps_stamps (ops : list Op) (db : DB) :
  Forall stamped (appointments db) ->
  Forall stamped (appointments (run db ops)).
Proof.
  revert db. induction ops as [| o ops IH]; intros db H; [exact H |].
  simpl. apply IH. apply apply_op_keeps_stamps. exact H.
Qed.

(** ** Edges of the handlers *)

Lemma key_injective {A : Type} (key : A -> Z) (l : list A) (a b : A) :
  NoDup (map key l) -> In a l -> In b l -> key b = key a -> b = a.
Proof.
  intros Hnd Ha Hb Hk.
  assert (Hin : In b (filter (fun x => key x =? key a) l)).
  { apply filter_In. split; [exact Hb | apply Z.eqb_eq; exact Hk]. }
  rewrite (select_by_key key l a Hnd Ha) in Hin.
  destruct Hin as [Hin | []]. symmetry. exact Hin.
Qed.


Lemma cancel_not_an_integer (fails : Oracle) (id : string) (db : DB) :
  int4in id = None -> cancel fails id db = (ErrorCancelling, db).
Proof.
  intros H.
  destruct (cancel_effect fails id db) as [Hs | (n & _ & _ & Hn & _)];
    [| congruence].
  unfold cancel, cancel_try, bind, query, ROLLBACK, ret in *.
  destruct (fails BEGIN); [rewrite rollback_to_same; reflexivity |].
  destruct (fails SELECT_APPOINTMENT);
    [rewrite rollback_to_same; reflexivity |].
  rewrite H. rewrite rollback_to_same. reflexivity.
Qed.

(** X7. An id in the path that PostgreSQL does not read as an [INTEGER] (a
    word, a fraction, an exponent form, a number beyond 2147483647; not
    the hexadecimal, octal, binary and underscore forms, which are
    integers) is answered 500 by [confirm] and by [cancel], not 404, and
    changes nothing. *)
Theorem path_id_not_an_integer (fails : Oracle) (now : Timestamp)
    (id : string) (db : DB) :
  int4in id = None ->
  confirm fails now id db = (ErrorConfirming, db)
  /\ cancel fails id db = (ErrorCancelling, db).
Proof.
  intros H. split.
  - apply confirm_not_an_integer. exact H.
  - apply cancel_not_an_integer. exact H.
Qed.

Lemma path_id_not_an_integer_witness :
  int4in "99999999999" = None
  /\ confirm no_faults minute "99999999999" db_pending
     = (ErrorConfirming, db_pending)
  /\ cancel no_faults "99999999999" db_pending
     = (ErrorCancelling, db_pending).
Proof.
  split; [reflexivity |].
  apply (path_id_not_an_integer no_faults minute "99999999999" db_pending).
  reflexivity.
Defined.



(** ** How the operations compose *)

Lemma update_confirm_leaves_none (now : Timestamp) (n : Z) (db : DB) :
  ~ pending_with_id n (snd (update_confirm now n db)).
Proof.
  unfold update_confirm. simpl. intros (a' & Ha' & Hid & Hst).
  simpl in Ha'. apply in_map_iff in Ha'. destruct Ha' as (a & Hf & _).
  destruct (confirmable n a) eqn:E; subst a'.
  - discriminate Hst.
  - assert (Hc : confirmable n a = true)
      by (apply confirmable_iff; tauto).
    congruence.
Qed.

Lemma confirm_success_effect (fails : Oracle) (now : Timestamp)
    (id : string) (db : DB) :
  success (fst (confirm fails now id db)) = true ->
  exists n, int4in id = Some n
            /\ snd (confirm fails now id db)
               = snd (update_confirm now n db).
Proof.
  unfold confirm, query.
  destruct (fails UPDATE_CONFIRM); [discriminate |].
  destruct (int4in id) as [n |]; [| discriminate].
  intros H. exists n. split; [reflexivity |].
  destruct (update_confirm now n db) as [[| row rows] w]; reflexivity.
Qed.

(** X9. An appointment is confirmed once.  After a [confirm] that
    succeeded, a second [confirm] of the same id answers
    NotFoundOrAlreadyProcessed and leaves the tables of the first as they
    are: the confirmation time is not moved. *)
Theorem confirm_again_rejected (fails : Oracle) (now1 now2 : Timestamp)
    (id : string) (db : DB) :
  success (fst (confirm fails now1 id db)) = true ->
  confirm no_faults now2 id (snd (confirm fails now1 id db))
  = (NotFoundOrAlreadyProcessed, snd (confirm fails now1 id db)).
Proof.
  intros Hs.
  destruct (confirm_success_effect fails now1 id db Hs) as (n & Hid & H).
  rewrite H. apply (confirm_rejected now2 id n _ Hid).
  apply update_confirm_leaves_none.
Qed.

Lemma confirm_again_rejected_witness :
  success (fst (confirm no_faults minute "1" db_pending)) = true
  /\ confirm no_faults (2 * minute) "1"
       (snd (confirm no_faults minute "1" db_pending))
     = (NotFoundOrAlreadyProcessed,
        snd (confirm no_faults minute "1" db_pending)).
Proof.
  split; [reflexivity |].
  apply (confirm_again_rejected no_faults minute (2 * minute) "1"
           db_pending).
  reflexivity.
Defined.

(** X10. An expired booking cannot be confirmed.  Once a tick has failed an
    appointment (ids being unique), [confirm] of its id answers
    NotFoundOrAlreadyProcessed and changes nothing. *)
Theorem expired_cannot_be_confirmed (now now' : Timestamp) (id : string)
    (db : DB) (a : Appointment.t) :
  NoDup (map Appointment.id (appointments db)) ->
  In a (appointments db) -> stale now a ->
  int4in id = Some (Appointment.id a) ->
  confirm no_faults now' id (snd (sweep_tick no_faults now db))
  = (NotFoundOrAlreadyProcessed, snd (sweep_tick no_faults now db)).
Proof.
  intros Hnd Ha Hstale Hid.
  apply (confirm_rejected now' id _ _ Hid).
  rewrite sweep_tick_ok. unfold expire_pending. cbn [snd].
  intros (b' & Hb' & Hidb & Hst). cbn [appointments] in Hb'.
  apply in_map_iff in Hb'. destruct Hb' as (b & Hf & Hb).
  assert (Hkey : Appointment.id b = Appointment.id a).
  { subst b'. destruct (expired now b); exact Hidb. }
  pose proof (key_injective Appointment.id _ a b Hnd Ha Hb Hkey) as E.
  subst b. apply expired_iff in Hstale. rewrite Hstale in Hf.
  subst b'. discriminate Hst.
Qed.

Lemma expired_cannot_be_confirmed_witness :
  stale (3 * minute) appointmentA
  /\ confirm no_faults (4 * minute) "1"
       (snd (sweep_tick no_faults (3 * minute) db_pending))
     = (NotFoundOrAlreadyProcessed,
        snd (sweep_tick no_faults (3 * minute) db_pending)).
Proof.
  assert (Hs : stale (3 * minute) appointmentA) by (split; reflexivity).
  split; [exact Hs |].
  apply (expired_cannot_be_confirmed (3 * minute) (4 * minute) "1"
           db_pending appointmentA).
  - repeat constructor. intros [].
  - left. reflexivity.
  - exact Hs.
  - reflexivity.
Defined.

Lemma apply_op_keeps_confirmed (db : DB) (o : Op) (a : Appointment.t) :
  is_cancel o = false ->
  In a (appointments db) -> Appointment.status a = CONFIRMED ->
  In a (appointments (apply_op db o)).
Proof.
  intros Ho Ha Hst.
  destruct o as [fails now body | fails now id | fails id | fails now];
    simpl in *; try discriminate.
  - destruct (book_effect fails now body db)
      as [(_ & H & _) | (sid & b & _ & _ & H)].
    + rewrite H. exact Ha.
    + rewrite H. simpl. apply in_or_app. left. exact Ha.
  - destruct (confirm_effect fails now id db) as [H | (n & _ & H)];
      rewrite H; [exact Ha |].
    simpl. apply in_map_iff. exists a. split; [| exact Ha].
    unfold confirmable. rewrite Hst, andb_false_r. reflexivity.
  - destruct (sweep_tick_all_or_nothing fails now db) as [H | H];
      rewrite H; [| exact Ha].
    rewrite sweep_tick_ok. unfold expire_pending. cbn [snd appointments].
    apply in_map_iff. exists a. split; [| exact Ha].
    unfold expired. rewrite Hst. reflexivity.
Qed.

(** X11. Only [cancel] takes a confirmed appointment away.  Through any run
    of bookings, confirmations and ticks, whatever fails, an appointment
    that is CONFIRMED stays in the table unchanged; and if the invariant
    held at the start, every row of its slot still has [is_booked] true at
    the end. *)
Theorem confirmed_stays_until_cancelled (ops : list Op) (db : DB)
    (a : Appointment.t) :
  forallb (fun o => negb (is_cancel o)) ops = true ->
  In a (appointments db) -> Appointment.status a = CONFIRMED ->
  In a (appointments (run db ops))
  /\ (Consistent db ->
      forall s, In s (slots (run db ops)) ->
                Slot.id s = Appointment.slot_id a ->
                Slot.is_booked s = true).
Proof.
  intros Hops Ha Hst.
  assert (Hin : In a (appointments (run db ops))).
  { revert db Ha. induction ops as [| o ops IH]; intros db Ha;
      [exact Ha |].
    simpl in Hops. apply andb_true_iff in Hops.
    destruct Hops as [Ho Hops]. simpl. apply IH; [exact Hops |].
    apply apply_op_keeps_confirmed; [| exact Ha | exact Hst].
    apply negb_true_iff. exact Ho. }
  split; [exact Hin |].
  intros Hc s Hs Hid.
  pose proof (run_without_cancel_keeps_invariant ops db Hops Hc s Hs)
    as [Hbooked _].
  apply Hbooked. exists a. split; [exact Hin |].
  split; [symmetry; exact Hid |]. unfold active. rewrite Hst. reflexivity.
Qed.

Lemma confirmed_stays_until_cancelled_witness :
  In appointmentA_confirmed (appointments (run db_confirmed history_quiet))
  /\ map Slot.is_booked (slots (run db_confirmed history_quiet)) = [true].
Proof.
  destruct (confirmed_stays_until_cancelled history_quiet db_confirmed
              appointmentA_confirmed eq_refl (or_introl eq_refl) eq_refl)
    as [Hin _].
  split; [exact Hin | reflexivity].
Defined.







(** ** From the client to the server *)

Lemma read_digits_digit (acc k : Z) (c : ascii) (s : string) :
  digit_in 10 c = Some k ->
  read_digits 10 acc (String c s) = read_digits 10 (10 * acc + k) s.
Proof. intros H. cbn [read_digits]. rewrite H. reflexivity. Qed.

Ltac read_digit :=
  match goal with
  | |- read_digits 10 _ (String ?c _) = _ =>
      let k := eval vm_compute in (digit_in 10 c) in
      match k with
      | Some ?k' => rewrite (read_digits_digit _ k' c) by reflexivity
      end
  end.

Lemma read_digits_pos (d : Decimal.uint) (p : positive) :
  read_digits 10 (Z.pos p) (NilEmpty.string_of_uint d)
  = Some (Z.pos (Pos.of_uint_acc d p), "").
Proof.
  revert p. induction d; intros p; cbn [NilEmpty.string_of_uint];
    [reflexivity | ..];
    read_digit; cbn [Pos.of_uint_acc];
    match goal with
    | |- read_digits 10 ?z _ = Some (Z.pos (Pos.of_uint_acc _ ?q), _) =>
        replace z with (Z.pos q) by lia
    end; apply IHd.
Qed.

Lemma read_digits_zero (d : Decimal.uint) :
  read_digits 10 0 (NilEmpty.string_of_uint d)
  = Some (Z.of_N (Pos.of_uint d), "").
Proof.
  induction d; cbn [NilEmpty.string_of_uint]; [reflexivity | ..];
    read_digit;
    cbn [Pos.of_uint Z.of_N]; first [exact IHd | apply read_digits_pos].
Qed.

Lemma read_magnitude_digits (d : Decimal.uint) :
  d <> Decimal.Nil ->
  read_magnitude (NilEmpty.string_of_uint d)
  = Some (Z.of_N (Pos.of_uint d), "").
Proof.
  intros Hd. rewrite <- read_digits_zero.
  destruct d as [| d | d | d | d | d | d | d | d | d | d];
    [congruence | | reflexivity ..].
  destruct d; reflexivity.
Qed.

Lemma int4in_magnitude (c : ascii) (r : string) (v : Z) :
  is_space c = false -> (c =? "-")%char = false ->
  (c =? "+")%char = false ->
  read_magnitude (String c r) = Some (v, "") ->
  int4in (String c r) = (if in_int4 v then Some v else None)
  /\ int4in (String "-" (String c r))
     = (if in_int4 (- v) then Some (- v) else None).
Proof.
  intros Hs Hm Hp Hr. unfold int4in, in_int4.
  cbn [skip_spaces]. rewrite Hs.
  change (is_space "-") with false. cbn iota.
  rewrite Hm, Hp. change ("-" =? "-")%char with true. cbn iota.
  rewrite Hr. cbn [skip_spaces]. split; reflexivity.
Qed.

Lemma int4in_digits (d : Decimal.uint) :
  d <> Decimal.Nil ->
  int4in (NilEmpty.string_of_uint d)
  = (if in_int4 (Z.of_N (Pos.of_uint d))
     then Some (Z.of_N (Pos.of_uint d)) else None)
  /\ int4in (String "-" (NilEmpty.string_of_uint d))
     = (if in_int4 (- Z.of_N (Pos.of_uint d))
        then Some (- Z.of_N (Pos.of_uint d)) else None).
Proof.
  intros Hd. pose proof (read_magnitude_digits d Hd) as Hr.
  destruct d; [congruence | ..];
    cbn [NilEmpty.string_of_uint] in *;
    apply int4in_magnitude; solve [reflexivity | exact Hr].
Qed.

Lemma int4in_decimal_text (n : Z) :
  int4in (decimal n) = if in_int4 n then Some n else None.
Proof.
  unfold decimal.
  destruct n as [| p | p]; [reflexivity | |]; simpl Z.to_int;
    cbn [NilZero.string_of_int];
    pose proof (Unsigned.to_uint_nonnil p) as Hnn;
    destruct (int4in_digits (Pos.to_uint p) Hnn) as [H1 H2];
    rewrite DecimalPos.Unsigned.of_to in H1, H2;
    unfold NilZero.string_of_uint;
    destruct (Pos.to_uint p) eqn:E; try congruence;
    first [exact H1 | exact H2].
Qed.

Lemma number_to_string_safe (n : Z) :
  Z.abs n < SAFE -> number_to_string n = decimal n.
Proof.
  intros H. unfold number_to_string.
  destruct (Z.ltb_spec (Z.abs n) SAFE); [reflexivity | lia].
Qed.

Lemma SAFE_value : SAFE = 9007199254740992.
Proof. reflexivity. Qed.

Lemma log2_large (v : Z) :
  SAFE <= v ->
  1 <= Z.log2 v - 52 /\ 2 ^ (Z.log2 v - 52) * 2 ^ 52 <= v
  /\ 2 <= 2 ^ (Z.log2 v - 52).
Proof.
  intros Hv. rewrite SAFE_value in Hv.
  assert (Hl : 53 <= Z.log2 v).
  { change 53 with (Z.log2 9007199254740992). apply Z.log2_le_mono. lia. }
  split; [lia |]. split.
  - rewrite <- Z.pow_add_r by lia.
    replace (Z.log2 v - 52 + 52) with (Z.log2 v) by lia.
    apply Z.log2_spec. lia.
  - change 2 with (2 ^ 1) at 1. apply Z.pow_le_mono_r; lia.
Qed.

Lemma nearest_double_large (a v : Z) :
  SAFE <= a -> nearest_double a = Some v -> SAFE <= v.
Proof.
  intros Ha. unfold nearest_double.
  destruct (Z.ltb_spec a SAFE) as [H | _]; [lia |].
  destruct (log2_large a Ha) as (He & Hq & Hp).
  set (e := Z.log2 a - 52) in *.
  set (P := 2 ^ e) in *.
  assert (Hdiv : 2 ^ 52 <= a / P).
  { apply Z.div_le_lower_bound; lia. }
  match goal with
  | |- (if ?b then _ else _) = _ -> _ => destruct b; [| discriminate]
  end.
  intros H. injection H as <-. rewrite SAFE_value.
  change (2 ^ 52) with 4503599627370496 in Hdiv.
  match goal with
  | |- _ <= (if ?b then _ else _) * _ => destruct b
  end; nia.
Qed.

Lemma rounds_to_large (v c : Z) :
  SAFE <= v -> rounds_to v c = true -> 2 ^ 52 <= c.
Proof.
  intros Hv. unfold rounds_to.
  destruct (log2_large v Hv) as (He & Hq & Hp).
  set (e := Z.log2 v - 52) in *.
  assert (Hup : 2 ^ (e + 1) = 2 * 2 ^ e).
  { rewrite Z.pow_add_r by lia. lia. }
  rewrite Hup. set (P := 2 ^ e) in *.
  rewrite SAFE_value in Hv.
  change (2 ^ 52) with 4503599627370496 in *.
  intros H.
  assert (Hlow : 4 * v - 2 * P <= 4 * c).
  { destruct (v =? 2 ^ Z.log2 v), (Z.even (v / P));
      apply andb_true_iff in H; destruct H as [H _];
      first [apply Z.leb_le in H | apply Z.ltb_lt in H]; lia. }
  lia.
Qed.

Lemma shortest_large (fuel : nat) (k p v : Z) :
  SAFE <= v -> 2 ^ 52 <= shortest fuel k p v.
Proof.
  intros Hv. revert k. induction fuel as [| fuel IH]; intros k.
  - simpl. rewrite SAFE_value in Hv.
    change (2 ^ 52) with 4503599627370496. lia.
  - cbn [shortest].
    set (scale := 10 ^ (p - k)).
    set (down := v / scale * scale).
    destruct (rounds_to v down) eqn:Hd,
             (rounds_to v (down + scale)) eqn:Hu;
      try apply IH;
      repeat match goal with
             | |- _ <= (if ?b then _ else _) => destruct b
             end;
      first [exact (rounds_to_large _ _ Hv Hd)
            | exact (rounds_to_large _ _ Hv Hu)].
Qed.

Lemma int4in_exponent (w : Z) :
  int4in (exponent_form w) = None
  /\ int4in ("-" ++ exponent_form w) = None.
Proof.
  assert (Hu : forall d,
            int4in (match NilZero.string_of_uint d with
                    | String c rest =>
                        String c
                          (match strip_zeros rest with
                           | EmptyString => ""
                           | fraction => "." ++ fraction
                           end
                           ++ "e+" ++ decimal (Z.of_nat (String.length rest)))
                    | EmptyString => ""
                    end) = None
            /\ int4in ("-" ++
                   match NilZero.string_of_uint d with
                    | String c rest =>
                        String c
                          (match strip_zeros rest with
                           | EmptyString => ""
                           | fraction => "." ++ fraction
                           end
                           ++ "e+" ++ decimal (Z.of_nat (String.length rest)))
                    | EmptyString => ""
                    end) = None).
  { intros d. destruct d; cbn [NilZero.string_of_uint NilEmpty.string_of_uint];
      match goal with
      | |- context [strip_zeros ?r] => destruct (strip_zeros r)
      end; split; reflexivity. }
  unfold exponent_form, decimal.
  destruct w as [| p | p]; simpl Z.to_int; cbn [NilZero.string_of_int].
  - split; reflexivity.
  - apply Hu.
  - match goal with
    | |- context [strip_zeros ?r] => destruct (strip_zeros r)
    end; split; reflexivity.
Qed.

Lemma int4in_decimal (n : Z) :
  int4in (number_to_string n) = if in_int4 n then Some n else None.
Proof.
  unfold number_to_string.
  destruct (Z.ltb_spec (Z.abs n) SAFE) as [Hs | Hs];
    [apply int4in_decimal_text |].
  assert (Hout : in_int4 n = false).
  { unfold in_int4, INT4_MIN, INT4_MAX. rewrite SAFE_value in Hs.
    apply andb_false_iff.
    destruct (Z.leb_spec (-2147483648) n); [right | left; reflexivity].
    apply Z.leb_gt. lia. }
  rewrite Hout.
  destruct (nearest_double (Z.abs n)) as [v |] eqn:Hv.
  - pose proof (nearest_double_large _ _ Hs Hv) as Hlarge.
    pose proof (shortest_large 17 1
                  (Z.of_nat (String.length (decimal v))) v Hlarge) as Hw.
    set (w := shortest 17 1 (Z.of_nat (String.length (decimal v))) v) in *.
    change (2 ^ 52) with 4503599627370496 in Hw.
    destruct (w <? 10 ^ 21).
    + rewrite int4in_decimal_text.
      assert (Hout' : in_int4 (Z.sgn n * w) = false).
      { unfold in_int4, INT4_MIN, INT4_MAX. rewrite SAFE_value in Hs.
        apply andb_false_iff.
        destruct (Z.leb_spec (-2147483648) (Z.sgn n * w));
          [right | left; reflexivity].
        apply Z.leb_gt. destruct n; cbn [Z.sgn Z.abs] in *; lia. }
      rewrite Hout'. reflexivity.
    + destruct (n <? 0); apply int4in_exponent.
  - destruct (n <? 0); reflexivity.
Qed.

Lemma int4in_of_id (n : Z) :
  in_int4 n = true -> int4in (number_to_string n) = Some n.
Proof. intros H. rewrite int4in_decimal, H. reflexivity. Qed.

(** X14. The id a client prints is the id the server reads.  The text of
    an integer, as a template string or a bound number yields it, is read
    by the [INTEGER] input as that integer when it lies between -2147483648
    and 2147483647, and is refused otherwise. *)
Theorem client_id_round_trip (n : Z) :
  int4in (number_to_string n) = (if in_int4 n then Some n else None)
  /\ bind_int4 (JNum n) = (if in_int4 n then Some n else None).
Proof. split; apply int4in_decimal. Qed.

Lemma actions_confirm (s : Status) :
  In ConfirmButton (actions (status_text s)) <-> s = PENDING.
Proof.
  destruct s; simpl; split; intros H; try discriminate;
    intuition discriminate.
Qed.

Lemma actions_cancel (s : Status) :
  In CancelButton (actions (status_text s))
  <-> s = PENDING \/ s = CONFIRMED.
Proof.
  destruct s; simpl; split; intros H; intuition discriminate.
Qed.

(** X15. Every Confirm button works.  For an appointment of the table whose
    card shows the Confirm button (its id an [INTEGER]), the request the
    button sends is answered with success when the statement does not
    fail, and the row comes back CONFIRMED. *)
Theorem offered_confirm_succeeds (now : Timestamp) (db : DB)
    (a : Appointment.t) :
  In a (appointments db) ->
  in_int4 (Appointment.id a) = true ->
  In ConfirmButton (actions (status_text (Appointment.status a))) ->
  exists row,
    fst (confirmAppointment no_faults now (Appointment.id a) db)
    = Confirmed row
    /\ Appointment.id row = Appointment.id a
    /\ Appointment.status row = CONFIRMED.
Proof.
  intros Ha Hid Hbtn. apply actions_confirm in Hbtn.
  unfold confirmAppointment.
  destruct (confirm_accepted now (number_to_string (Appointment.id a))
              (Appointment.id a) db (int4in_of_id _ Hid))
    as (b & _ & Hb & _ & E).
  { exists a. auto. }
  exists (confirm_row now b). rewrite E. repeat split. exact Hb.
Qed.

Lemma offered_confirm_succeeds_witness :
  exists row,
    fst (confirmAppointment no_faults minute 1 db_pending) = Confirmed row
    /\ Appointment.id row = 1
    /\ Appointment.status row = CONFIRMED.
Proof.
  apply (offered_confirm_succeeds minute db_pending appointmentA).
  - left. reflexivity.
  - reflexivity.
  - left. reflexivity.
Defined.

(** X16. A Cancel button on a card that is current keeps the invariant.
    The page draws a card from the copy of the appointment it fetched.  For
    a card that shows a Cancel button, when the row of the table with the
    id of the card still has the status the card shows (ids being unique
    and [INTEGER]s), the request the button sends keeps the invariant,
    whatever fails: the page offers Cancel only for PENDING and CONFIRMED,
    where the unguarded handler is safe.  A card whose row has changed
    since the page fetched it is not covered. *)
Theorem offered_cancel_keeps_invariant (fails : Oracle) (db : DB)
    (card a : Appointment.t) :
  Consistent db ->
  NoDup (map Appointment.id (appointments db)) ->
  In a (appointments db) ->
  Appointment.id a = Appointment.id card ->
  Appointment.status a = Appointment.status card ->
  in_int4 (Appointment.id card) = true ->
  In CancelButton (actions (status_text (Appointment.status card))) ->
  Consistent (snd (cancelAppointment fails (Appointment.id card) db)).
Proof.
  intros Hc Hnd Ha Hsame Hcurrent Hid Hbtn. apply actions_cancel in Hbtn.
  unfold cancelAppointment.
  apply cancel_active_keeps_invariant; [exact Hnd | | exact Hc].
  intros b n Hb Hn Hbn. rewrite (int4in_of_id _ Hid) in Hn.
  assert (Hkey : Appointment.id b = Appointment.id a) by congruence.
  rewrite (key_injective Appointment.id _ a b Hnd Ha Hb Hkey).
  unfold active. rewrite Hcurrent.
  destruct Hbtn as [E | E]; rewrite E; reflexivity.
Qed.

Lemma offered_cancel_keeps_invariant_witness :
  Consistent db_stale
  /\ In CancelButton (actions "PENDING")
  /\ Consistent (snd (cancelAppointment no_faults 2 db_stale))
  /\ ~ In CancelButton (actions "FAILED").
Proof.
  assert (Hc : Consistent db_stale) by (apply consistentb_spec; reflexivity).
  split; [exact Hc |]. split; [right; left; reflexivity |].
  split.
  - apply (offered_cancel_keeps_invariant no_faults db_stale
             (Appointment.mk 2 1 "Jane Roe" "jane@example.com"
                "+1987654321" 41 "Follow-up" PENDING (4 * minute) None)
             (Appointment.mk 2 1 "Jane Roe" "jane@example.com"
                "+1987654321" 41 "Follow-up" PENDING (4 * minute) None)).
    + exact Hc.
    + repeat constructor; simpl; intuition discriminate.
    + right. left. reflexivity.
    + reflexivity.
    + reflexivity.
    + reflexivity.
    + right. left. reflexivity.
  - simpl. intuition discriminate.
Defined.

(** ** The invariant and the lock, whatever fails *)

(** X17. Bookings, confirmations and ticks keep the invariant.  From a state
    where every slot is booked exactly when one PENDING or CONFIRMED
    appointment refers to it, any sequence of [book], [confirm] and sweep
    ticks, with any statements failing, ends in such a state. *)
Theorem invariant_kept_without_cancel (ops : list Op) (db : DB) :
  forallb (fun o => negb (is_cancel o)) ops = true ->
  Consistent db -> Consistent (run db ops).
Proof. apply run_without_cancel_keeps_invariant. Qed.

Lemma invariant_kept_without_cancel_witness :
  Consistent db_confirmed /\ Consistent (run db_confirmed history_quiet).
Proof.
  assert (Hc : Consistent db_confirmed)
    by (apply consistentb_spec; reflexivity).
  split; [exact Hc |].
  apply (invariant_kept_without_cancel history_quiet db_confirmed eq_refl Hc).
Defined.

(** X18. [cancel] of an appointment that is PENDING or CONFIRMED keeps the
    invariant, whatever fails, when the ids of the appointments are
    unique. *)
Theorem invariant_kept_by_cancel_of_active (fails : Oracle) (id : string)
    (db : DB) :
  NoDup (map Appointment.id (appointments db)) ->
  (forall a n, In a (appointments db) -> int4in id = Some n ->
               Appointment.id a = n -> active a = true) ->
  Consistent db -> Consistent (snd (cancel fails id db)).
Proof. apply cancel_active_keeps_invariant. Qed.

Lemma invariant_kept_by_cancel_of_active_witness :
  Consistent db_confirmed
  /\ Consistent (snd (cancel no_faults "1" db_confirmed)).
Proof.
  assert (Hc : Consistent db_confirmed)
    by (apply consistentb_spec; reflexivity).
  split; [exact Hc |].
  apply (invariant_kept_by_cancel_of_active no_faults "1" db_confirmed).
  - repeat constructor. intros [].
  - intros a n [Ha | []] _ _. subst a. reflexivity.
  - exact Hc.
Defined.

(** X19. Concurrent calls never book a slot twice, whatever fails.  For calls
    of [book] for one free slot with no PENDING appointment, under every
    interleaving, every pattern of failing statements and every content of
    the patient fields, at most one call has answered success and at most
    one PENDING appointment is on the slot. *)
Theorem one_success_whatever_fails (sid : Z) (db : DB) (cs : list Call)
    (schedule : list nat) :
  select_slot sid db <> [] ->
  Forall (fun s => Slot.is_booked s = false) (select_slot sid db) ->
  count (pending_on sid) (appointments db) = 0%nat ->
  Forall (fun c => pc c = AtStart
                   /\ bind_int4 (Body.slot_id (call_body c)) = Some sid)
    cs ->
  let W := exec (mkWorld db cs) schedule in
  (count (answer_is is_Booked) (calls W) <= 1)%nat
  /\ (count (pending_on sid) (appointments (committed W)) <= 1)%nat.
Proof.
  intros HS Hfree Hpend Hcs.
  apply (at_most_one_booking sid (appointments_id_seq db));
    try assumption.
  lia.
Qed.

Lemma one_success_whatever_fails_witness :
  map pc (calls (exec (mkWorld db_free rush_with_failure)
           one_after_the_other))
  = [Done ErrorBooking;
     Done (Booked
             (Appointment.mk 2 1 "Jane Roe" "jane@example.com"
                "+1987654321" 41 "Follow-up" PENDING 1 None))]
  /\ (count (answer_is is_Booked)
        (calls (exec (mkWorld db_free rush_with_failure)
           one_after_the_other)) <= 1)%nat.
Proof.
  split; [reflexivity |].
  apply (one_success_whatever_fails 1 db_free rush_with_failure
           one_after_the_other).
  - discriminate.
  - repeat constructor.
  - reflexivity.
  - repeat constructor.
Defined.

Lemma run_keeps_keys_witness :
  keys_ok db_free
  /\ keys_ok (run db_free history_mixed)
  /\ map Appointment.id (appointments (run db_free history_mixed)) = [2; 3].
Proof.
  assert (H : keys_ok db_free) by (split; constructor).
  split; [exact H |]. split; [| reflexivity].
  apply (run_keeps_keys history_mixed db_free H).
Defined.

Lemma run_keeps_stamps_witness :
  Forall stamped (appointments db_free)
  /\ Forall stamped (appointments (run db_free history_mixed)).
Proof.
  assert (H : Forall stamped (appointments db_free)) by constructor.
  split; [exact H |].
  apply (run_keeps_stamps history_mixed db_free H).
Defined.

(** ** The read endpoints and the catalogue *)

Lemma insert_by_perm {A : Type} (le : A -> A -> bool) (x : A) (l : list A) :
  Permutation (insert_by le x l) (x :: l).
Proof.
  induction l as [| y l IH]; simpl; [apply Permutation_refl |].
  destruct (le x y); [apply Permutation_refl |].
  eapply Permutation_trans; [apply perm_skip; exact IH | apply perm_swap].
Qed.

Lemma order_by_perm {A : Type} (le : A -> A -> bool) (l : list A) :
  Permutation (order_by le l) l.
Proof.
  induction l as [| x l IH]; simpl; [apply perm_nil |].
  eapply Permutation_trans; [apply insert_by_perm |].
  apply perm_skip. exact IH.
Qed.

Lemma order_by_In {A : Type} (le : A -> A -> bool) (l : list A) (x : A) :
  In x (order_by le l) <-> In x l.
Proof.
  split; apply Permutation_in;
    [| apply Permutation_sym]; apply order_by_perm.
Qed.

Lemma order_by_length {A : Type} (le : A -> A -> bool) (l : list A) :
  List.length (order_by le l) = List.length l.
Proof. apply Permutation_length, order_by_perm. Qed.

Section Order.

Context {A : Type} (le : A -> A -> bool).
Hypothesis le_total : forall x y, le x y = true \/ le y x = true.
Hypothesis le_trans :
  forall x y z, le x y = true -> le y z = true -> le x z = true.

Lemma insert_by_sorted (x : A) (l : list A) :
  StronglySorted (fun a b => le a b = true) l ->
  StronglySorted (fun a b => le a b = true) (insert_by le x l).
Proof.
  induction 1 as [| y l Hs IH Hall]; simpl.
  - constructor; constructor.
  - destruct (le x y) eqn:E.
    + constructor; [constructor; assumption |].
      constructor; [exact E |].
      eapply Forall_impl; [| exact Hall].
      intros z Hz. eapply le_trans; eassumption.
    + constructor; [exact IH |].
      assert (Hyx : le y x = true).
      { destruct (le_total x y) as [H | H]; [congruence | exact H]. }
      apply Forall_forall. intros z Hz.
      apply (Permutation_in _ (insert_by_perm le x l)) in Hz.
      destruct Hz as [Hz | Hz]; [subst z; exact Hyx |].
      rewrite Forall_forall in Hall. apply Hall. exact Hz.
Qed.

Lemma order_by_sorted (l : list A) :
  StronglySorted (fun a b => le a b = true) (order_by le l).
Proof.
  induction l as [| x l IH]; simpl; [constructor |].
  apply insert_by_sorted. exact IH.
Qed.

End Order.

Lemma slots_with_doctors_In (st : Store) (r : SlotRow) :
  In r (slots_with_doctors st)
  <-> exists s d,
        In s (slots (core st)) /\ In d (doctors st)
        /\ Slot.doctor_id s = Doctor.id d
        /\ r = mkSlotRow s (Doctor.name d) (Doctor.specialty d)
                 (Doctor.consultation_fee d).
Proof.
  unfold slots_with_doctors. rewrite in_flat_map. split.
  - intros (s & Hs & Hr). apply in_map_iff in Hr.
    destruct Hr as (d & Hr & Hd). apply filter_In in Hd.
    destruct Hd as [Hd He]. apply Z.eqb_eq in He.
    exists s, d. auto.
  - intros (s & d & Hs & Hd & He & Hr). exists s. split; [exact Hs |].
    apply in_map_iff. exists d. split; [auto |].
    apply filter_In. split; [exact Hd |]. apply Z.eqb_eq. exact He.
Qed.

Lemma appointments_with_slots_In (st : Store) (r : AppointmentRow) :
  In r (appointments_with_slots st)
  <-> exists a s d,
        In a (appointments (core st)) /\ In s (slots (core st))
        /\ In d (doctors st)
        /\ Appointment.slot_id a = Slot.id s
        /\ Slot.doctor_id s = Doctor.id d
        /\ r = mkAppointmentRow a (Slot.slot_date s) (Slot.start_time s)
                 (Slot.end_time s) (Doctor.name d) (Doctor.specialty d)
                 (Doctor.consultation_fee d).
Proof.
  unfold appointments_with_slots. rewrite in_flat_map. split.
  - intros (a & Ha & Hr). apply in_flat_map in Hr.
    destruct Hr as (s & Hs & Hr). apply filter_In in Hs.
    destruct Hs as [Hs Hes]. apply Z.eqb_eq in Hes.
    apply in_map_iff in Hr. destruct Hr as (d & Hr & Hd).
    apply filter_In in Hd. destruct Hd as [Hd He]. apply Z.eqb_eq in He.
    exists a, s, d. auto 10.
  - intros (a & s & d & Ha & Hs & Hd & Hes & He & Hr).
    exists a. split; [exact Ha |]. apply in_flat_map. exists s. split.
    + apply filter_In. split; [exact Hs |]. apply Z.eqb_eq. exact Hes.
    + apply in_map_iff. exists d. split; [auto |].
      apply filter_In. split; [exact Hd |]. apply Z.eqb_eq. exact He.
Qed.

Lemma newest_first_sorted (rows : list AppointmentRow) :
  StronglySorted
    (fun r1 r2 =>
       Appointment.booking_time (row_appointment r2)
       <= Appointment.booking_time (row_appointment r1))
    (order_by newest_first rows).
Proof.
  assert (H : StronglySorted (fun a b => newest_first a b = true)
                (order_by newest_first rows)).
  { apply order_by_sorted; unfold newest_first.
    - intros x y. rewrite !Z.leb_le. lia.
    - intros x y z. rewrite !Z.leb_le. lia. }
  induction H as [| r l Hs IH Hall]; constructor; [exact IH |].
  eapply Forall_impl; [| exact Hall].
  intros r' Hr. apply Z.leb_le. exact Hr.
Qed.

Lemma between_iff (lo hi : Z) (c : ascii) :
  between lo hi c = true <-> lo <= code_of c <= hi.
Proof. unfold between. rewrite andb_true_iff, !Z.leb_le. tauto. Qed.

Lemma lead_not_continues (lo hi : Z) (c : ascii) :
  between lo hi c = true -> hi < 128 \/ 191 < lo -> continues c = false.
Proof.
  intros H Hr. apply between_iff in H.
  destruct (continues c) eqn:E; [| reflexivity].
  apply between_iff in E. lia.
Qed.

(** What is kept of a text that is cut after whole characters is a text. *)
Lemma split_chars_utf8 (len : nat) :
  forall (s : string) (n : nat),
    (String.length s <= len)%nat -> utf8_ok s = true ->
    utf8_ok (fst (split_chars n s)) = true.
Proof.
  induction len as [| len IH]; intros s n Hlen Hok.
  { destruct s; [reflexivity | simpl in Hlen; lia]. }
  destruct s as [| c r]; [reflexivity |].
  cbn [utf8_ok] in Hok. cbn [split_chars].
  assert (Hkeep : forall (m : nat) (t : string) (c' : ascii),
            continues c' = true ->
            fst (split_chars m (String c' t))
            = String c' (fst (split_chars m t))).
  { intros m t c' Hc. cbn [split_chars]. rewrite Hc.
    destruct (split_chars m t). reflexivity. }
  destruct (between 1 127 c) eqn:B1.
  { rewrite (lead_not_continues _ _ _ B1) by lia.
    destruct n as [| m]; [reflexivity |].
    destruct (split_chars m r) as [h t] eqn:E. cbn [fst utf8_ok].
    rewrite B1. change h with (fst (h, t)). rewrite <- E.
    apply IH; [simpl in Hlen; lia | exact Hok]. }
  destruct (between 194 223 c) eqn:B2.
  { rewrite (lead_not_continues _ _ _ B2) by lia.
    destruct n as [| m]; [reflexivity |].
    destruct r as [| c1 r1]; [discriminate |].
    apply andb_true_iff in Hok. destruct Hok as [H1 Hok].
    pose proof (Hkeep m r1 c1 H1) as E1.
    destruct (split_chars m (String c1 r1)) as [h t]. cbn [fst] in *.
    subst h. cbn [utf8_ok]. rewrite B1, B2, H1.
    apply IH; [simpl in Hlen; lia | exact Hok]. }
  destruct (between 224 239 c) eqn:B3.
  { rewrite (lead_not_continues _ _ _ B3) by lia.
    destruct n as [| m]; [reflexivity |].
    destruct r as [| c1 [| c2 r2]]; try discriminate.
    apply andb_true_iff in Hok. destruct Hok as [Hok Hr].
    apply andb_true_iff in Hok. destruct Hok as [H1 H2].
    assert (H1' : continues c1 = true).
    { destruct (code_of c =? 224); [| destruct (code_of c =? 237)];
        [| | exact H1]; apply between_iff in H1; apply between_iff; lia. }
    pose proof (Hkeep m (String c2 r2) c1 H1') as E1.
    rewrite (Hkeep m r2 c2 H2) in E1.
    destruct (split_chars m (String c1 (String c2 r2))) as [h t].
    cbn [fst] in *. subst h. cbn [utf8_ok]. rewrite B1, B2, B3, H1, H2.
    apply IH; [simpl in Hlen; lia | exact Hr]. }
  destruct (between 240 244 c) eqn:B4; [| discriminate].
  rewrite (lead_not_continues _ _ _ B4) by lia.
  destruct n as [| m]; [reflexivity |].
  destruct r as [| c1 [| c2 [| c3 r3]]]; try discriminate.
  apply andb_true_iff in Hok. destruct Hok as [Hok Hr].
  apply andb_true_iff in Hok. destruct Hok as [Hok H3].
  apply andb_true_iff in Hok. destruct Hok as [H1 H2].
  assert (H1' : continues c1 = true).
  { destruct (code_of c =? 240); [| destruct (code_of c =? 244)];
      [| | exact H1]; apply between_iff in H1; apply between_iff; lia. }
  pose proof (Hkeep m (String c2 (String c3 r3)) c1 H1') as E1.
  rewrite (Hkeep m (String c3 r3) c2 H2) in E1.
  rewrite (Hkeep m r3 c3 H3) in E1.
  destruct (split_chars m (String c1 (String c2 (String c3 r3)))) as [h t].
  cbn [fst] in *. subst h. cbn [utf8_ok]. rewrite B1, B2, B3, B4, H1, H2, H3.
  apply IH; [simpl in Hlen; lia | exact Hr].
Qed.

Lemma textin_Some (s t : string) :
  textin s = Some t -> t = s /\ utf8_ok s = true.
Proof.
  unfold textin. destruct (utf8_ok s); [| discriminate].
  intros H. injection H as <-. auto.
Qed.

Lemma varcharin_text (n : nat) (s t : string) :
  varcharin n s = Some t -> utf8_ok t = true.
Proof.
  unfold varcharin. destruct (textin s) as [s' |] eqn:E; [| discriminate].
  apply textin_Some in E. destruct E as [_ Hok].
  pose proof (split_chars_utf8 (String.length s) s n (le_n _) Hok) as H.
  destruct (split_chars n s) as [kept excess]. cbn [fst] in H.
  destruct (all_spaces excess); [| discriminate].
  intros E. injection E as <-. exact H.
Qed.

Lemma bind_varchar_text (n : nat) (v : JValue) (t : string) :
  bind_varchar n v = Some t -> utf8_ok t = true.
Proof.
  unfold bind_varchar. destruct (prepareValue v); [| discriminate].
  apply varcharin_text.
Qed.

Lemma new_appointment_email (now : Timestamp) (body : Body.t) (id : Z)
    (a : Appointment.t) :
  new_appointment now body id = Some a ->
  utf8_ok (Appointment.patient_email a) = true.
Proof.
  unfold new_appointment. intros H.
  destruct (bind_int4 (Body.slot_id body)); [| discriminate].
  destruct (bind_varchar 255 (Body.patient_name body)); [| discriminate].
  destruct (bind_varchar 255 (Body.patient_email body)) as [email |] eqn:E;
    [| discriminate].
  destruct (bind_varchar 20 (Body.patient_phone body)); [| discriminate].
  destruct (bind_int4 (Body.patient_age body)); [| discriminate].
  destruct (bind_text (Body.reason_for_visit body)); [| discriminate].
  destruct (id <=? INT4_MAX); [| discriminate].
  inversion H. subst a. simpl. exact (bind_varchar_text _ _ _ E).
Qed.

Lemma listed_appointments (e : string) (st : Store) :
  e <> "" -> utf8_ok e = true ->
  getAppointments false (JStr e) st
  = mkReply 200 true None
      (Some (order_by newest_first
               (filter (fun r =>
                          (Appointment.patient_email (row_appointment r)
                           =? e)%string)
                  (appointments_with_slots st)))).
Proof.
  intros He Hok. unfold getAppointments, bind_text, textin. simpl.
  rewrite Hok.
  destruct (String.eqb_spec e ""); [contradiction | reflexivity].
Qed.

Lemma unlisted_appointments (e : string) (st : Store) :
  e <> "" -> utf8_ok e = false ->
  getAppointments false (JStr e) st
  = refused 500 "Error fetching appointments".
Proof.
  intros He Hok. unfold getAppointments, bind_text, textin. simpl.
  rewrite Hok.
  destruct (String.eqb_spec e ""); [contradiction | reflexivity].
Qed.

(** X20. What [GET /api/appointments?patient_email=e] answers for a
    non-empty [e].  When [e] is a text the server takes (UTF-8 without a
    zero byte) the answer is 200 with rows ordered by booking time, the
    newest first, and an appointment is among them exactly when it is in
    the table with that very email, its slot is in [slots] and the doctor
    of that slot is in [doctors].  When it is not, the query fails and the
    answer is 500. *)
Theorem appointments_listing_by_email (e : string) (st : Store) :
  e <> "" ->
  if utf8_ok e
  then
    exists rows,
      getAppointments false (JStr e) st = mkReply 200 true None (Some rows)
      /\ StronglySorted
           (fun r1 r2 =>
              Appointment.booking_time (row_appointment r2)
              <= Appointment.booking_time (row_appointment r1)) rows
      /\ forall a,
           In a (map row_appointment rows)
           <-> In a (appointments (core st))
               /\ Appointment.patient_email a = e
               /\ exists s d,
                    In s (slots (core st)) /\ In d (doctors st)
                    /\ Appointment.slot_id a = Slot.id s
                    /\ Slot.doctor_id s = Doctor.id d
  else
    getAppointments false (JStr e) st
    = refused 500 "Error fetching appointments".
Proof.
  intros He. destruct (utf8_ok e) eqn:Hok;
    [| apply unlisted_appointments; assumption].
  eexists. split; [apply listed_appointments; assumption |].
  split; [apply newest_first_sorted |].
  intros a. rewrite in_map_iff. split.
  - intros (r & Hr & Hin). apply order_by_In in Hin.
    apply filter_In in Hin. destruct Hin as [Hin Hm].
    apply String.eqb_eq in Hm.
    apply appointments_with_slots_In in Hin.
    destruct Hin as (a' & s & d & Ha & Hs & Hd & Hes & Hed & Heq).
    subst r. simpl in *. subst a'.
    split; [exact Ha |]. split; [exact Hm |]. exists s, d. auto.
  - intros (Ha & Hm & s & d & Hs & Hd & Hes & Hed).
    exists (mkAppointmentRow a (Slot.slot_date s) (Slot.start_time s)
              (Slot.end_time s) (Doctor.name d) (Doctor.specialty d)
              (Doctor.consultation_fee d)).
    split; [reflexivity |]. apply order_by_In. apply filter_In. split.
    + apply appointments_with_slots_In. exists a, s, d. auto 10.
    + simpl. apply String.eqb_eq. exact Hm.
Qed.

Lemma appointments_listing_by_email_witness :
  exists rows,
    getAppointments false (JStr "john@example.com") store_pending
    = mkReply 200 true None (Some rows)
    /\ StronglySorted
         (fun r1 r2 =>
            Appointment.booking_time (row_appointment r2)
            <= Appointment.booking_time (row_appointment r1)) rows
    /\ forall a,
         In a (map row_appointment rows)
         <-> In a (appointments (core store_pending))
             /\ Appointment.patient_email a = "john@example.com"
             /\ exists s d,
                  In s (slots (core store_pending))
                  /\ In d (doctors store_pending)
                  /\ Appointment.slot_id a = Slot.id s
                  /\ Slot.doctor_id s = Doctor.id d.
Proof.
  apply (appointments_listing_by_email "john@example.com" store_pending).
  discriminate.
Defined.

Lemma book_success (fails : Oracle) (now : Timestamp) (body : Body.t)
    (db : DB) (a : Appointment.t) :
  fst (book fails now body db) = Booked a ->
  exists slot,
    In slot (slots db) /\ Slot.id slot = Appointment.slot_id a
    /\ Slot.is_booked slot = false
    /\ new_appointment now body (appointments_id_seq db) = Some a
    /\ snd (book fails now body db)
       = update_slot_is_booked true (Appointment.slot_id a)
           (mkDB (slots db) (appointments db ++ [a])
              (appointments_id_seq db + 1)).
Proof.
  intros H. pose proof (book_outcomes fails now body db) as Ho.
  rewrite H in Ho.
  inversion Ho as [| | | | sid slot rest a' Hv Hsid Hsel Hfree Hnew Ha Hdb].
  destruct (new_appointment_fields _ _ _ _ Hnew) as (_ & Hs & _).
  assert (Hsid' : sid = Appointment.slot_id a) by congruence.
  subst sid.
  assert (Hin : In slot (select_slot (Appointment.slot_id a) db)).
  { rewrite Hsel. left. reflexivity. }
  apply filter_In in Hin. destruct Hin as [Hin Hid].
  apply Z.eqb_eq in Hid.
  exists slot. auto.
Qed.

(** X21. A booking shows up in the patient's list.  When every slot has
    its doctor and [book] answers success with the appointment [a], then
    [GET /api/appointments] asked with the email stored in [a] lists [a]. *)
Theorem booked_appointment_listed (fails : Oracle) (now : Timestamp)
    (body : Body.t) (st : Store) (a : Appointment.t) :
  references_ok st ->
  fst (book fails now body (core st)) = Booked a ->
  Appointment.patient_email a <> "" ->
  exists rows,
    getAppointments false (JStr (Appointment.patient_email a))
      (snd (on_core (book fails now body) st))
    = mkReply 200 true None (Some rows)
    /\ In a (map row_appointment rows).
Proof.
  intros [Href _] Hb He.
  destruct (book_success _ _ _ _ _ Hb)
    as (slot & Hin & Hid & _ & Hnew & Hdb).
  destruct (Href slot Hin) as (d & Hd & Hsd).
  eexists. split.
  { apply listed_appointments;
      [exact He | exact (new_appointment_email _ _ _ _ Hnew)]. }
  apply in_map_iff.
  exists (mkAppointmentRow a (Slot.slot_date slot) (Slot.start_time slot)
            (Slot.end_time slot) (Doctor.name d) (Doctor.specialty d)
            (Doctor.consultation_fee d)).
  split; [reflexivity |]. apply order_by_In. apply filter_In. split.
  - apply appointments_with_slots_In.
    exists a, (Slot.set_is_booked true slot), d.
    unfold on_core. cbn [snd with_core core doctors]. rewrite Hdb.
    split; [simpl; apply in_or_app; right; left; reflexivity |].
    split; [apply update_slot_keeps; [exact Hin | exact Hid] |].
    split; [exact Hd |]. split; [symmetry; exact Hid |].
    split; [exact Hsd | reflexivity].
  - simpl. apply String.eqb_refl.
Qed.

Lemma booked_appointment_listed_witness :
  exists rows,
    getAppointments false (JStr (Appointment.patient_email appointmentA))
      (snd (on_core (book no_faults 0 patientA) store_free))
    = mkReply 200 true None (Some rows)
    /\ In appointmentA (map row_appointment rows).
Proof.
  apply (booked_appointment_listed no_faults 0 patientA store_free
           appointmentA).
  - split.
    + intros s [Hs | []]. subst s. exists doctor1.
      split; [left; reflexivity | reflexivity].
    + intros a [].
  - reflexivity.
  - discriminate.
Defined.

Lemma available_rows (date_leb time_leb : string -> string -> bool)
    (today : string) (q : JValue) (st : Store) (rows : list SlotRow)
    (r : SlotRow) :
  reply_data (getAvailableSlots date_leb time_leb false today q st)
  = Some rows ->
  In r rows ->
  In r (slots_with_doctors st) /\ bookable date_leb today (row_slot r) = true.
Proof.
  unfold getAvailableSlots. simpl.
  destruct (truthy q); [destruct (bind_int4 q) as [n |] |]; simpl;
    intros Heq Hin; try discriminate;
    injection Heq as <-; apply order_by_In in Hin;
    repeat (apply filter_In in Hin; destruct Hin as [Hin ?]);
    auto.
Qed.

Lemma available_all (date_leb time_leb : string -> string -> bool)
    (today : string) (st : Store) :
  getAvailableSlots date_leb time_leb false today JUndefined st
  = mkReply 200 true (Some "Available slots retrieved")
      (Some (order_by (earliest_first date_leb time_leb)
               (filter (fun r => bookable date_leb today (row_slot r))
                  (slots_with_doctors st)))).
Proof. reflexivity. Qed.

(** X22. A booked slot is no longer offered.  After a [book] that answered
    success with the appointment [a], no row that [GET
    /api/slots/available] returns, asked with any [doctor_id] and on any
    day, is a row of the slot of [a]. *)
Theorem booked_slot_not_offered
    (date_leb time_leb : string -> string -> bool) (fails : Oracle)
    (now : Timestamp) (body : Body.t) (st : Store) (a : Appointment.t)
    (today : string) (q : JValue) (rows : list SlotRow) (r : SlotRow) :
  fst (book fails now body (core st)) = Booked a ->
  reply_data
    (getAvailableSlots date_leb time_leb false today q
       (snd (on_core (book fails now body) st))) = Some rows ->
  In r rows ->
  Slot.id (row_slot r) <> Appointment.slot_id a.
Proof.
  intros Hb Hrows Hin Hid.
  destruct (book_success _ _ _ _ _ Hb) as (_ & _ & _ & _ & _ & Hdb).
  destruct (available_rows _ _ _ _ _ _ _ Hrows Hin) as [Hjoin Hopen].
  apply slots_with_doctors_In in Hjoin.
  destruct Hjoin as (s & d & Hs & _ & _ & Hr). subst r.
  cbn [row_slot] in *.
  unfold on_core in Hs. cbn [snd with_core core] in Hs. rewrite Hdb in Hs.
  pose proof (update_slot_sets _ _ _ _ Hs Hid) as Hbooked.
  unfold bookable in Hopen. rewrite Hbooked in Hopen. discriminate.
Qed.

Lemma booked_slot_not_offered_witness :
  Slot.id (row_slot (mkSlotRow slot2 "Dr. Sarah Johnson" "Cardiology" 50000))
  <> Appointment.slot_id appointmentA.
Proof.
  apply (booked_slot_not_offered String.leb String.leb no_faults 0 patientA
           store_two appointmentA "2025-01-01" JUndefined
           [mkSlotRow slot2 "Dr. Sarah Johnson" "Cardiology" 50000]).
  - reflexivity.
  - reflexivity.
  - left. reflexivity.
Defined.

Lemma cancel_success (fails : Oracle) (id : string) (db : DB) :
  fst (cancel fails id db) = Cancelled ->
  exists n a rest,
    int4in id = Some n /\ select_appointment n db = a :: rest
    /\ snd (cancel fails id db)
       = update_slot_is_booked false (Appointment.slot_id a)
           (update_cancelled n db).
Proof.
  unfold cancel, cancel_try, bind, query, ROLLBACK, ret.
  destruct (fails BEGIN); [discriminate |].
  destruct (fails SELECT_APPOINTMENT); [discriminate |].
  destruct (int4in id) as [n |] eqn:Hid; [| discriminate].
  destruct (select_appointment n db) as [| a rest] eqn:Hsel.
  { simpl. discriminate. }
  destruct (fails UPDATE_CANCELLED); [discriminate |].
  destruct (fails UPDATE_SLOT_FREE); [discriminate |].
  destruct (fails COMMIT); [discriminate |].
  intros _. exists n, a, rest. split; [reflexivity |].
  split; [exact Hsel | reflexivity].
Qed.

(** X23. A cancelled slot is offered again.  When a [cancel] answers
    success for the appointment [a], whose id no other row has, then the
    slot of [a], if it is not in the past and its doctor is in [doctors],
    is a row of the unfiltered [GET /api/slots/available], free. *)
Theorem cancelled_slot_offered
    (date_leb time_leb : string -> string -> bool) (fails : Oracle)
    (id : string) (st : Store) (a : Appointment.t) (s : Slot.t)
    (d : Doctor.t) (today : string) :
  NoDup (map Appointment.id (appointments (core st))) ->
  In a (appointments (core st)) ->
  int4in id = Some (Appointment.id a) ->
  fst (cancel fails id (core st)) = Cancelled ->
  In s (slots (core st)) -> Slot.id s = Appointment.slot_id a ->
  In d (doctors st) -> Slot.doctor_id s = Doctor.id d ->
  date_leb today (Slot.slot_date s) = true ->
  exists rows,
    reply_data
      (getAvailableSlots date_leb time_leb false today JUndefined
         (snd (on_core (cancel fails id) st))) = Some rows
    /\ In (mkSlotRow (Slot.set_is_booked false s) (Doctor.name d)
             (Doctor.specialty d) (Doctor.consultation_fee d)) rows.
Proof.
  intros Hnd Ha Hid Hc Hs Hsid Hd Hsd Hday.
  rewrite available_all. eexists. split; [reflexivity |].
  apply order_by_In. apply filter_In. split.
  - apply slots_with_doctors_In. exists (Slot.set_is_booked false s), d.
    split; [| auto].
    unfold on_core. cbn [snd with_core core].
    destruct (cancel_success fails id (core st) Hc)
      as (n & a' & rest & Hn & Hsel & Heq).
    rewrite Heq.
    assert (Hn' : n = Appointment.id a) by congruence. subst n.
    unfold select_appointment in Hsel.
    rewrite (select_by_key Appointment.id _ a Hnd Ha) in Hsel.
    injection Hsel as <- _.
    apply update_slot_keeps; [exact Hs | exact Hsid].
  - cbn [row_slot]. unfold bookable. simpl. exact Hday.
Qed.

Lemma cancelled_slot_offered_witness :
  exists rows,
    reply_data
      (getAvailableSlots String.leb String.leb false "2025-01-01" JUndefined
         (snd (on_core (cancel no_faults "1") store_pending))) = Some rows
    /\ In (mkSlotRow (Slot.set_is_booked false (Slot.set_is_booked true slot1))
             (Doctor.name doctor1) (Doctor.specialty doctor1)
             (Doctor.consultation_fee doctor1)) rows.
Proof.
  apply (cancelled_slot_offered String.leb String.leb no_faults "1"
           store_pending appointmentA (Slot.set_is_booked true slot1)
           doctor1 "2025-01-01").
  - repeat constructor. intros [].
  - left. reflexivity.
  - reflexivity.
  - reflexivity.
  - left. reflexivity.
  - reflexivity.
  - left. reflexivity.
  - reflexivity.
  - reflexivity.
Defined.

Lemma one_doctor (l : list Doctor.t) (d : Doctor.t) (k : Z) :
  NoDup (map Doctor.id l) -> In d l -> k = Doctor.id d ->
  filter (fun d' => k =? Doctor.id d') l = [d].
Proof.
  intros Hnd Hin ->. rewrite <- (select_by_key Doctor.id l d Hnd Hin).
  apply filter_ext. intros d'. apply Z.eqb_sym.
Qed.

Lemma open_rows_length (p : Slot.t -> bool) (st : Store) :
  references_ok st -> NoDup (map Doctor.id (doctors st)) ->
  List.length (filter (fun r => p (row_slot r)) (slots_with_doctors st))
  = count p (slots (core st)).
Proof.
  intros [Href _] Hnd. unfold slots_with_doctors, count.
  induction (slots (core st)) as [| s l IH]; [reflexivity |].
  simpl. rewrite filter_app, length_app, IH
    by (intros s' Hs'; apply Href; right; exact Hs').
  destruct (Href s (or_introl eq_refl)) as (d & Hd & He).
  rewrite (one_doctor _ d _ Hnd Hd He). simpl.
  destruct (p s); reflexivity.
Qed.

(** X24. The dashboard counts what the listing shows.  When every slot has
    its doctor and no two doctors share an id, [available_slots] of [GET
    /api/dashboard/stats] is the number of rows of the unfiltered [GET
    /api/slots/available] of the same day. *)
Theorem stats_match_listing (date_leb time_leb : string -> string -> bool)
    (today : string) (st : Store) :
  references_ok st -> NoDup (map Doctor.id (doctors st)) ->
  exists stats rows,
    reply_data (getDashboardStats date_leb false today st) = Some stats
    /\ reply_data
         (getAvailableSlots date_leb time_leb false today JUndefined st)
       = Some rows
    /\ available_slots stats = List.length rows.
Proof.
  intros Href Hnd. eexists. eexists.
  split; [reflexivity |]. split; [reflexivity |].
  cbn [available_slots]. rewrite order_by_length.
  symmetry. apply (open_rows_length (bookable date_leb today) st Href Hnd).
Qed.

Lemma count_cons {A : Type} (p : A -> bool) (a : A) (l : list A) :
  count p (a :: l) = ((if p a then 1 else 0) + count p l)%nat.
Proof. unfold count. simpl. destruct (p a); reflexivity. Qed.

Lemma list_sum_add {A : Type} (f g : A -> nat) (l : list A) :
  list_sum (map (fun a => (f a + g a)%nat) l)
  = (list_sum (map f l) + list_sum (map g l))%nat.
Proof. induction l as [| a l IH]; simpl; [reflexivity | rewrite IH; lia]. Qed.

Lemma list_sum_indicator {A : Type} (p : A -> bool) (l : list A) :
  list_sum (map (fun a => if p a then 1%nat else 0%nat) l) = count p l.
Proof.
  induction l as [| a l IH]; [reflexivity |].
  rewrite count_cons. simpl. rewrite IH. reflexivity.
Qed.

Lemma list_sum_ext_in {A : Type} (f g : A -> nat) (l : list A) :
  (forall a, In a l -> f a = g a) ->
  list_sum (map f l) = list_sum (map g l).
Proof.
  intros H. f_equal. apply map_ext_in. exact H.
Qed.

(** Counting the active appointments slot by slot. *)
Lemma claims_by_slot (apps : list Appointment.t) (sl : list Slot.t) :
  NoDup (map Slot.id sl) ->
  (forall a, In a apps -> exists s, In s sl
                                    /\ Appointment.slot_id a = Slot.id s) ->
  list_sum (map (fun s => count (claims (Slot.id s)) apps) sl)
  = count active apps.
Proof.
  intros Hnd. induction apps as [| a apps IH]; intros Href.
  - clear Hnd Href. unfold count. simpl. induction sl; simpl; auto.
  - rewrite (list_sum_ext_in _
               (fun s => ((if claims (Slot.id s) a then 1 else 0)
                          + count (claims (Slot.id s)) apps)%nat))
      by (intros s _; apply count_cons).
    rewrite list_sum_add, list_sum_indicator, count_cons, IH
      by (intros b Hb; apply Href; right; exact Hb).
    f_equal. destruct (active a) eqn:Ha.
    + destruct (Href a (or_introl eq_refl)) as (s & Hs & Hid).
      rewrite (count_ext_in _ (fun s' => Slot.id s' =? Slot.id s)).
      * unfold count. rewrite (select_by_key Slot.id sl s Hnd Hs).
        reflexivity.
      * intros s' _. unfold claims. rewrite Ha, andb_true_r, Hid.
        apply Z.eqb_sym.
    + apply count_zero. intros s _. unfold claims. rewrite Ha.
      apply andb_false_r.
Qed.

Lemma booked_slots_are_active (db : DB) :
  Consistent db -> NoDup (map Slot.id (slots db)) ->
  (forall a, In a (appointments db) ->
     exists s, In s (slots db) /\ Appointment.slot_id a = Slot.id s) ->
  count Slot.is_booked (slots db) = count active (appointments db).
Proof.
  intros Hc Hnd Href. rewrite <- (claims_by_slot _ _ Hnd Href).
  rewrite <- list_sum_indicator. apply list_sum_ext_in.
  intros s Hs. symmetry. apply slot_consistent_count. apply Hc. exact Hs.
Qed.

Lemma count_active (apps : list Appointment.t) :
  count active apps
  = (count (fun a => Status_eqb (Appointment.status a) PENDING) apps
     + count (fun a => Status_eqb (Appointment.status a) CONFIRMED) apps)%nat.
Proof.
  induction apps as [| a apps IH]; [reflexivity |].
  rewrite !count_cons, IH. unfold active.
  destruct (Appointment.status a); simpl; lia.
Qed.

Lemma count_negb {A : Type} (p : A -> bool) (l : list A) :
  (count p l + count (fun a => negb (p a)) l)%nat = List.length l.
Proof.
  induction l as [| a l IH]; [reflexivity |].
  rewrite !count_cons. simpl. destruct (p a); simpl; lia.
Qed.

(** X25. The dashboard accounts for every slot.  In a database that
    satisfies the cross-table invariant, where slot ids are distinct, every
    appointment has its slot and no slot lies in the past, the numbers of
    available slots, of pending and of confirmed appointments of [GET
    /api/dashboard/stats] add up to the number of slots. *)
Theorem stats_account_for_every_slot (date_leb : string -> string -> bool)
    (today : string) (st : Store) (stats : Stats) :
  Consistent (core st) ->
  NoDup (map Slot.id (slots (core st))) ->
  (forall a, In a (appointments (core st)) ->
     exists s, In s (slots (core st))
               /\ Appointment.slot_id a = Slot.id s) ->
  (forall s, In s (slots (core st)) ->
     date_leb today (Slot.slot_date s) = true) ->
  reply_data (getDashboardStats date_leb false today st) = Some stats ->
  (available_slots stats + pending_appointments stats
   + confirmed_appointments stats)%nat
  = List.length (slots (core st)).
Proof.
  intros Hc Hnd Href Hday Hstats. simpl in Hstats.
  injection Hstats as <-. cbn [available_slots pending_appointments
    confirmed_appointments].
  rewrite <- Nat.add_assoc, <- count_active.
  rewrite <- (booked_slots_are_active _ Hc Hnd Href).
  rewrite (count_ext_in (bookable date_leb today)
             (fun s => negb (Slot.is_booked s))).
  - rewrite Nat.add_comm. apply count_negb.
  - intros s Hs. unfold bookable. rewrite (Hday s Hs). apply andb_true_r.
Qed.

Lemma stats_account_for_every_slot_witness :
  (available_slots (mkStats 1 0 1 0) + pending_appointments (mkStats 1 0 1 0)
   + confirmed_appointments (mkStats 1 0 1 0))%nat
  = List.length (slots (core store_pending)).
Proof.
  apply (stats_account_for_every_slot String.leb "2025-01-01" store_pending
           (mkStats 1 0 1 0)).
  - apply consistentb_spec. reflexivity.
  - repeat constructor. intros [].
  - intros a [Ha | []]. subst a. exists (Slot.set_is_booked true slot1).
    split; [left; reflexivity | reflexivity].
  - intros s [Hs | []]. subst s. reflexivity.
  - reflexivity.
Defined.

Lemma stats_match_listing_witness :
  exists stats rows,
    reply_data (getDashboardStats String.leb false "2025-01-01" store_two)
    = Some stats
    /\ reply_data
         (getAvailableSlots String.leb String.leb false "2025-01-01"
            JUndefined store_two)
       = Some rows
    /\ available_slots stats = List.length rows.
Proof.
  apply (stats_match_listing String.leb String.leb "2025-01-01" store_two).
  - split.
    + intros s [Hs | [Hs | []]]; subst s; exists doctor1;
        (split; [left; reflexivity | reflexivity]).
    + intros a [].
  - repeat constructor. intros [].
Defined.

Lemma createDoctor_effect (numeric_in : string -> option Z) (fails : bool)
    (now : Timestamp) (body : DoctorBody.t) (st : Store) :
  (reply_data (fst (createDoctor numeric_in fails now body st)) = None
   /\ exists seq,
        doctors_id_seq st <= seq
        /\ snd (createDoctor numeric_in fails now body st)
           = mkStore (doctors st) seq (slots_id_seq st) (core st))
  \/ exists d,
       Doctor.id d = doctors_id_seq st
       /\ existsb (fun d' => (Doctor.email d' =? Doctor.email d)%string)
            (doctors st) = false
       /\ createDoctor numeric_in fails now body st
          = (mkReply 201 true (Some "Doctor created successfully") (Some d),
             mkStore (doctors st ++ [d]) (doctors_id_seq st + 1)
               (slots_id_seq st) (core st)).
Proof.
  assert (Hsame : forall msg (c : Z),
            (reply_data (fst (@refused Doctor.t c msg, st)) = None
             /\ exists seq,
                  doctors_id_seq st <= seq
                  /\ snd (@refused Doctor.t c msg, st)
                     = mkStore (doctors st) seq (slots_id_seq st)
                         (core st))
            \/ exists d,
                 Doctor.id d = doctors_id_seq st
                 /\ existsb
                      (fun d' => (Doctor.email d' =? Doctor.email d)%string)
                      (doctors st) = false
                 /\ (@refused Doctor.t c msg, st)
                    = (mkReply 201 true (Some "Doctor created successfully")
                         (Some d),
                       mkStore (doctors st ++ [d]) (doctors_id_seq st + 1)
                         (slots_id_seq st) (core st))).
  { intros msg c. left. split; [reflexivity |].
    exists (doctors_id_seq st). split; [lia | destruct st; reflexivity]. }
  unfold createDoctor.
  destruct (falsy _ || falsy _ || falsy _ || falsy _); [apply Hsame |].
  destruct fails; [apply Hsame |].
  destruct (bind_varchar 255 (DoctorBody.name body)) as [name |];
    [| apply Hsame].
  destruct (bind_varchar 255 (DoctorBody.email body)) as [email |];
    [| apply Hsame].
  destruct (bind_varchar 100 (DoctorBody.specialty body)) as [specialty |];
    [| apply Hsame].
  destruct (match bind_text (DoctorBody.consultation_fee body) with
            | Some t => numeric_in t
            | None => None
            end) as [fee |]; [| apply Hsame].
  destruct (INT4_MAX <? doctors_id_seq st); [apply Hsame |].
  destruct (existsb _ (doctors st)) eqn:E.
  - left. split; [reflexivity |]. exists (doctors_id_seq st + 1).
    split; [lia | reflexivity].
  - right. eexists. split; [| split; [| reflexivity]];
      [reflexivity | exact E].
Qed.

Lemma createSlot_effect (date_in time_in : string -> option string)
    (fails : bool) (now : Timestamp) (body : SlotBody.t) (st : Store) :
  (reply_data (fst (createSlot date_in time_in fails now body st)) = None
   /\ exists seq,
        slots_id_seq st <= seq
        /\ snd (createSlot date_in time_in fails now body st)
           = mkStore (doctors st) (doctors_id_seq st) seq (core st))
  \/ exists s,
       Slot.id s = slots_id_seq st
       /\ Slot.is_booked s = false
       /\ Slot.created_at s = now
       /\ bind_int4 (SlotBody.doctor_id body) = Some (Slot.doctor_id s)
       /\ truthy (SlotBody.doctor_id body) = true
       /\ (exists d, In d (doctors st) /\ Slot.doctor_id s = Doctor.id d)
       /\ (forall s', In s' (slots (core st)) ->
             Slot.doctor_id s' = Slot.doctor_id s ->
             Slot.slot_date s' = Slot.slot_date s ->
             Slot.start_time s' <> Slot.start_time s)
       /\ createSlot date_in time_in fails now body st
          = (mkReply 201 true (Some "Slot created successfully") (Some s),
             mkStore (doctors st) (doctors_id_seq st) (slots_id_seq st + 1)
               (with_slots (slots (core st) ++ [s]) (core st))).
Proof.
  assert (Hsame :
            reply_data (fst (@refused Slot.t 0 "", st)) = None
            /\ exists seq,
                 slots_id_seq st <= seq
                 /\ st = mkStore (doctors st) (doctors_id_seq st) seq
                           (core st)).
  { split; [reflexivity |]. exists (slots_id_seq st).
    split; [lia | destruct st; reflexivity]. }
  unfold createSlot.
  destruct (falsy (SlotBody.doctor_id body)) eqn:Hq;
    [left; exact Hsame |].
  cbn [orb].
  destruct (falsy _ || falsy _ || falsy _); [left; exact Hsame |].
  destruct fails; [left; exact Hsame |].
  destruct (bind_int4 (SlotBody.doctor_id body)) as [doctor |] eqn:Hd;
    [| left; exact Hsame].
  destruct (match bind_text (SlotBody.slot_date body) with
            | Some t => date_in t
            | None => None
            end) as [date |]; [| left; exact Hsame].
  destruct (match bind_text (SlotBody.start_time body) with
            | Some t => time_in t
            | None => None
            end) as [start |]; [| left; exact Hsame].
  destruct (match bind_text (SlotBody.end_time body) with
            | Some t => time_in t
            | None => None
            end) as [finish |]; [| left; exact Hsame].
  destruct (INT4_MAX <? slots_id_seq st); [left; exact Hsame |].
  destruct (negb _ || existsb _ (slots (core st))) eqn:E.
  - left. split; [reflexivity |]. exists (slots_id_seq st + 1).
    split; [lia | reflexivity].
  - right. apply orb_false_iff in E. destruct E as [E1 E2].
    apply negb_false_iff in E1. apply existsb_exists in E1.
    destruct E1 as (d & Hin & He). apply Z.eqb_eq in He.
    exists (Slot.mk (slots_id_seq st) doctor date start finish false now).
    cbn [Slot.id Slot.is_booked Slot.created_at Slot.doctor_id
         Slot.slot_date Slot.start_time].
    split; [reflexivity |]. split; [reflexivity |]. split; [reflexivity |].
    split; [reflexivity |].
    split; [unfold falsy in Hq; apply negb_false_iff in Hq; exact Hq |].
    split; [exists d; auto |].
    split; [| reflexivity].
    intros s' Hs' H1 H2 H3.
    assert (Hex : existsb
                (fun s => (Slot.doctor_id s =? doctor)
                          && (Slot.slot_date s =? date)%string
                          && (Slot.start_time s =? start)%string)
                (slots (core st)) = true).
    { apply existsb_exists. exists s'. split; [exact Hs' |].
      rewrite H1, H2, H3, Z.eqb_refl, !String.eqb_refl. reflexivity. }
    congruence.
Qed.

Lemma filter_last_only {A : Type} (p : A -> bool) (l : list A) (a : A) :
  (forall b, In b l -> p b = false) -> p a = true ->
  filter p (l ++ [a]) = [a].
Proof.
  intros Hl Ha. rewrite filter_app, (filter_none p l Hl). simpl.
  rewrite Ha. reflexivity.
Qed.

(** X26. A doctor that was created is found.  When ids of [doctors] lie
    below the next value of their sequence and that value is an INTEGER,
    the doctor [POST /api/doctors] answers with is the one that [GET
    /api/doctors/:id] returns for the decimal text of its id, and is in the
    list of [GET /api/doctors]. *)
Theorem created_doctor_found (numeric_in : string -> option Z)
    (name_leb : string -> string -> bool) (fails : bool) (now : Timestamp)
    (body : DoctorBody.t) (st : Store) (d : Doctor.t) :
  Forall (fun d' => Doctor.id d' < doctors_id_seq st) (doctors st) ->
  in_int4 (doctors_id_seq st) = true ->
  reply_data (fst (createDoctor numeric_in fails now body st)) = Some d ->
  getDoctorById false (number_to_string (Doctor.id d))
    (snd (createDoctor numeric_in fails now body st))
  = mkReply 200 true None (Some d)
  /\ exists l,
       reply_data
         (getAllDoctors name_leb false
            (snd (createDoctor numeric_in fails now body st))) = Some l
       /\ In d l.
Proof.
  intros Hlt Hseq Hd.
  destruct (createDoctor_effect numeric_in fails now body st)
    as [[Hnone _] | (d' & Hid & _ & Heq)]; [congruence |].
  rewrite Heq in *. cbn [fst snd reply_data] in *.
  injection Hd as <-. split.
  - unfold getDoctorById. rewrite Hid, (int4in_of_id _ Hseq).
    cbn [doctors]. rewrite filter_last_only; [reflexivity | |].
    + intros b Hb. rewrite Forall_forall in Hlt.
      apply Z.eqb_neq. specialize (Hlt b Hb). lia.
    + apply Z.eqb_eq. exact Hid.
  - eexists. split; [reflexivity |]. apply order_by_In.
    cbn [doctors]. apply in_or_app. right. left. reflexivity.
Qed.

Lemma created_doctor_found_witness :
  getDoctorById false
    (number_to_string
       (Doctor.id
          (Doctor.mk 2 "Dr. Raj Patel" "raj.patel@hospital.com" "Neurology"
             75000 5)))
    (snd (createDoctor whole_amount false 5 doctor_form store_free))
  = mkReply 200 true None
      (Some (Doctor.mk 2 "Dr. Raj Patel" "raj.patel@hospital.com" "Neurology"
               75000 5))
  /\ exists l,
       reply_data
         (getAllDoctors String.leb false
            (snd (createDoctor whole_amount false 5 doctor_form store_free)))
       = Some l
       /\ In (Doctor.mk 2 "Dr. Raj Patel" "raj.patel@hospital.com" "Neurology"
                75000 5) l.
Proof.
  apply (created_doctor_found whole_amount String.leb false 5 doctor_form
           store_free).
  - repeat constructor.
  - reflexivity.
  - reflexivity.
Defined.



Lemma Forall2_In_r {A : Type} (R : A -> A -> Prop) (l l' : list A) (b : A) :
  Forall2 R l l' -> In b l' -> exists a, In a l /\ R a b.
Proof.
  induction 1 as [| x y l l' Hxy _ IH]; intros Hin; [destruct Hin |].
  destruct Hin as [<- | Hin]; [exists x; split; [left |]; auto |].
  destruct (IH Hin) as (a & Ha & HR). exists a. split; [right |]; auto.
Qed.

Lemma Forall2_In_l {A : Type} (R : A -> A -> Prop) (l l' : list A) (a : A) :
  Forall2 R l l' -> In a l -> exists b, In b l' /\ R a b.
Proof.
  induction 1 as [| x y l l' Hxy _ IH]; intros Hin; [destruct Hin |].
  destruct Hin as [<- | Hin]; [exists y; split; [left |]; auto |].
  destruct (IH Hin) as (b & Hb & HR). exists b. split; [right |]; auto.
Qed.

Lemma same_slot_columns (s s' : Slot.t) :
  same_slot s s' ->
  Slot.id s' = Slot.id s /\ Slot.doctor_id s' = Slot.doctor_id s.
Proof. unfold same_slot. intros ->. split; reflexivity. Qed.

(** The slot of an appointment of the later table: that of an earlier
    appointment, or a slot that was in the table. *)
Lemma apply_op_slot_known (db : DB) (o : Op) (a : Appointment.t) :
  In a (appointments (apply_op db o)) ->
  (exists a0, In a0 (appointments db)
              /\ Appointment.slot_id a = Appointment.slot_id a0)
  \/ exists s, In s (slots db) /\ Appointment.slot_id a = Slot.id s.
Proof.
  assert (Hmap : forall (p : Appointment.t -> bool) (f : Appointment.t ->
                   Appointment.t),
            (forall b, Appointment.slot_id (f b) = Appointment.slot_id b) ->
            In a (map (fun b => if p b then f b else b) (appointments db)) ->
            exists a0, In a0 (appointments db)
                       /\ Appointment.slot_id a = Appointment.slot_id a0).
  { intros p f Hf Hin. apply in_map_iff in Hin.
    destruct Hin as (b & Hb & Hin). exists b. split; [exact Hin |].
    subst a. destruct (p b); [apply Hf | reflexivity]. }
  destruct o as [fails now body | fails now id | fails id | fails now];
    simpl.
  - pose proof (book_outcomes fails now body db) as Ho.
    destruct Ho as [Hv | sid Hsid Hsel | sid slot rest Hsid Hsel Hb | seq
                   | sid slot rest a' Hv Hsid Hsel Hfree Hnew];
      try (intros Hin; left; exists a; split; [exact Hin | reflexivity]).
    cbn [update_slot_is_booked with_slots appointments]. intros Hin.
    apply in_app_or in Hin. destruct Hin as [Hin | [<- | []]].
    + left. exists a. split; [exact Hin | reflexivity].
    + right. exists slot.
      assert (Hs : In slot (select_slot sid db))
        by (rewrite Hsel; left; reflexivity).
      apply filter_In in Hs. destruct Hs as [Hs Hid].
      apply Z.eqb_eq in Hid.
      destruct (new_appointment_fields _ _ _ _ Hnew) as (_ & Hslot & _).
      split; [exact Hs | congruence].
  - destruct (confirm_effect fails now id db) as [H | (n & _ & H)];
      rewrite H; intros Hin.
    + left. exists a. split; [exact Hin | reflexivity].
    + left. revert Hin. apply Hmap. intros b. reflexivity.
  - destruct (cancel_effect fails id db)
      as [H | (n & a' & rest & _ & _ & H)]; rewrite H; intros Hin.
    + left. exists a. split; [exact Hin | reflexivity].
    + left. revert Hin. apply Hmap. intros b. reflexivity.
  - destruct (sweep_tick_all_or_nothing fails now db) as [H | H];
      rewrite H; intros Hin.
    + left. rewrite sweep_tick_ok in Hin. unfold expire_pending in Hin.
      cbn [snd appointments] in Hin. revert Hin. apply Hmap.
      intros b. reflexivity.
    + left. exists a. split; [exact Hin | reflexivity].
Qed.

Lemma apply_op_keeps_store (st : Store) (o : Op) :
  store_ok st -> store_ok (with_core (apply_op (core st) o) st).
Proof.
  intros ((Hdoc & Hslot) & (Hd1 & Hd2 & Hd3 & Hs1 & Hs2) & Hkeys).
  destruct (apply_op_effect (core st) o)
    as (_ & _ & _ & _ & _ & _ & _ & _ & Hsl).
  assert (Hids : map Slot.id (slots (apply_op (core st) o))
                 = map Slot.id (slots (core st))).
  { apply (Forall2_map_eq same_slot); [| exact Hsl].
    intros s s' H. apply (same_slot_columns _ _ H). }
  split; [split |]; [| | split; [| apply apply_op_keeps_keys; exact Hkeys]].
  - cbn [with_core core doctors]. intros s' Hs'.
    destruct (Forall2_In_r _ _ _ _ Hsl Hs') as (s & Hs & Hss).
    destruct (Hdoc s Hs) as (d & Hd & He). exists d.
    split; [exact Hd |].
    rewrite (proj2 (same_slot_columns _ _ Hss)). exact He.
  - cbn [with_core core]. intros a Ha.
    assert (Hs : exists s, In s (slots (core st))
                           /\ Appointment.slot_id a = Slot.id s).
    { destruct (apply_op_slot_known _ _ _ Ha)
        as [(a0 & Ha0 & He) | Hs]; [| exact Hs].
      rewrite He. apply Hslot. exact Ha0. }
    destruct Hs as (s & Hs & He).
    destruct (Forall2_In_l _ _ _ _ Hsl Hs) as (s' & Hs' & Hss).
    exists s'. split; [exact Hs' |].
    rewrite (proj1 (same_slot_columns _ _ Hss)). exact He.
  - unfold catalogue_keys_ok. cbn [with_core core doctors doctors_id_seq
      slots_id_seq]. rewrite Hids.
    repeat (split; [assumption |]).
    apply Forall_forall. intros s' Hs'.
    destruct (Forall2_In_r _ _ _ _ Hsl Hs') as (s & Hs & Hss).
    rewrite (proj1 (same_slot_columns _ _ Hss)).
    rewrite Forall_forall in Hs2. apply Hs2. exact Hs.
Qed.

Lemma NoDup_snoc {A : Type} (l : list A) (a : A) :
  NoDup l -> ~ In a l -> NoDup (l ++ [a]).
Proof.
  intros Hnd Hnot. apply NoDup_app; [exact Hnd | repeat constructor; auto |].
  intros x Hx [<- | []]. contradiction.
Qed.

Lemma createDoctor_keeps_store (numeric_in : string -> option Z)
    (fails : bool) (now : Timestamp) (body : DoctorBody.t) (st : Store) :
  store_ok st ->
  store_ok (snd (createDoctor numeric_in fails now body st)).
Proof.
  intros ((Hdoc & Hslot) & (Hd1 & Hd2 & Hd3 & Hs1 & Hs2) & Hkeys).
  destruct (createDoctor_effect numeric_in fails now body st)
    as [(_ & seq & Hseq & ->) | (d & Hid & Hmail & ->)]; cbn [snd].
  - split; [split; assumption |]. split; [| exact Hkeys].
    unfold catalogue_keys_ok. cbn [doctors doctors_id_seq slots_id_seq core].
    split; [assumption |]. split; [| repeat split; assumption].
    eapply Forall_impl; [| exact Hd2]. simpl. intros; lia.
  - split; [split |]; [| exact Hslot |].
    + cbn [doctors core]. intros s Hs.
      destruct (Hdoc s Hs) as (d' & Hd' & He). exists d'.
      split; [apply in_or_app; left; exact Hd' | exact He].
    + split; [| exact Hkeys]. unfold catalogue_keys_ok.
      cbn [doctors doctors_id_seq slots_id_seq core].
      rewrite !map_app. simpl.
      split; [| split; [| split; [| split; assumption]]].
      * apply NoDup_snoc; [exact Hd1 |]. intros Hin.
        apply in_map_iff in Hin. destruct Hin as (d' & He & Hd').
        rewrite Forall_forall in Hd2. specialize (Hd2 d' Hd'). lia.
      * apply Forall_app. split.
        -- eapply Forall_impl; [| exact Hd2]. simpl. intros; lia.
        -- repeat constructor. lia.
      * apply NoDup_snoc; [exact Hd3 |]. intros Hin.
        apply in_map_iff in Hin. destruct Hin as (d' & He & Hd').
        assert (Hex : existsb
                  (fun d' => (Doctor.email d' =? Doctor.email d)%string)
                  (doctors st) = true).
        { apply existsb_exists. exists d'. split; [exact Hd' |].
          apply String.eqb_eq. exact He. }
        congruence.
Qed.

Lemma createSlot_keeps_store (date_in time_in : string -> option string)
    (fails : bool) (now : Timestamp) (body : SlotBody.t) (st : Store) :
  store_ok st ->
  store_ok (snd (createSlot date_in time_in fails now body st)).
Proof.
  intros ((Hdoc & Hslot) & (Hd1 & Hd2 & Hd3 & Hs1 & Hs2) & Hkeys).
  destruct (createSlot_effect date_in time_in fails now body st)
    as [(_ & seq & Hseq & ->)
       | (s & Hid & _ & _ & _ & _ & Hd & _ & ->)]; cbn [snd].
  - split; [split; assumption |]. split; [| exact Hkeys].
    unfold catalogue_keys_ok. cbn [doctors doctors_id_seq slots_id_seq core].
    repeat (split; [assumption |]).
    eapply Forall_impl; [| exact Hs2]. simpl. intros; lia.
  - split; [split |].
    + cbn [doctors core with_slots slots]. intros s' Hs'.
      apply in_app_or in Hs'. destruct Hs' as [Hs' | [<- | []]];
        [apply Hdoc; exact Hs' | exact Hd].
    + cbn [core with_slots slots appointments]. intros a Ha.
      destruct (Hslot a Ha) as (s' & Hs' & He). exists s'.
      split; [apply in_or_app; left; exact Hs' | exact He].
    + split; [| exact Hkeys]. unfold catalogue_keys_ok.
      cbn [doctors doctors_id_seq slots_id_seq core with_slots slots].
      rewrite map_app. simpl.
      repeat (split; [assumption |]). split.
      * apply NoDup_snoc; [exact Hs1 |]. intros Hin.
        apply in_map_iff in Hin. destruct Hin as (s' & He & Hs').
        rewrite Forall_forall in Hs2. specialize (Hs2 s' Hs'). lia.
      * apply Forall_app. split.
        -- eapply Forall_impl; [| exact Hs2]. simpl. intros; lia.
        -- repeat constructor. lia.
Qed.

(** X28. Keys and references hold after any requests.  A database in which
    every slot has its doctor and every appointment its slot, ids of the
    three tables are distinct and below the next values of their sequences
    and no two doctors share an email, is such a database again after any
    sequence of [POST /api/doctors], [POST /api/slots], bookings,
    confirmations, cancellations and ticks, whichever of them fail. *)
Theorem requests_keep_store (numeric_in : string -> option Z)
    (date_in time_in : string -> option string) (reqs : list Request)
    (st : Store) :
  store_ok st ->
  store_ok (fold_left (serve numeric_in date_in time_in) reqs st).
Proof.
  revert st. induction reqs as [| r reqs IH]; intros st Hok; [exact Hok |].
  simpl. apply IH. destruct r as [fails now body | fails now body | o].
  - apply createDoctor_keeps_store. exact Hok.
  - apply createSlot_keeps_store. exact Hok.
  - apply apply_op_keeps_store. exact Hok.
Qed.

(** X29. The catalogue requests keep the cross-table invariant.  In a
    database where every appointment has its slot and slot ids lie below
    the next value of their sequence, [POST /api/doctors] and [POST
    /api/slots] lead from a database that satisfies the invariant to one
    that satisfies it: the slot that is added is free and no appointment
    refers to it. *)
Theorem catalogue_keeps_invariant (numeric_in : string -> option Z)
    (date_in time_in : string -> option string) (r : Request) (st : Store) :
  store_ok st -> Consistent (core st) ->
  is_core r = false ->
  Consistent (core (serve numeric_in date_in time_in st r)).
Proof.
  intros ((_ & Hslot) & (_ & _ & _ & _ & Hs2) & _) Hc Hr.
  destruct r as [fails now body | fails now body | o];
    [| | discriminate]; cbn [serve].
  - destruct (createDoctor_effect numeric_in fails now body st)
      as [(_ & seq & _ & ->) | (d & _ & _ & ->)]; exact Hc.
  - destruct (createSlot_effect date_in time_in fails now body st)
      as [(_ & seq & _ & ->)
         | (s & Hid & Hfree & _ & _ & _ & _ & _ & ->)]; [exact Hc |].
    cbn [snd core]. intros s' Hs'.
    cbn [with_slots slots appointments] in *.
    apply in_app_or in Hs'. destruct Hs' as [Hs' | [<- | []]];
      [apply Hc; exact Hs' |].
    apply slot_consistent_count. rewrite Hfree.
    apply count_zero. intros a Ha. unfold claims.
    destruct (Appointment.slot_id a =? Slot.id s) eqn:E; [| reflexivity].
    apply Z.eqb_eq in E. destruct (Hslot a Ha) as (s0 & Hs0 & He).
    rewrite Forall_forall in Hs2. specialize (Hs2 s0 Hs0). lia.
Qed.

Lemma requests_keep_store_witness :
  store_ok
    (fold_left (serve whole_amount as_written as_written) requests_mixed
       store_free).
Proof.
  apply (requests_keep_store whole_amount as_written as_written
           requests_mixed store_free).
  split; [split |].
  - intros s [Hs | []]. subst s. exists doctor1.
    split; [left; reflexivity | reflexivity].
  - intros a [].
  - split.
    + unfold catalogue_keys_ok. simpl.
      repeat split; repeat constructor; simpl; tauto.
    + split; simpl; constructor.
Defined.

Lemma catalogue_keeps_invariant_witness :
  Consistent
    (core (serve whole_amount as_written as_written store_pending
             (CreateSlot false 6 slot_form))).
Proof.
  apply (catalogue_keeps_invariant whole_amount as_written as_written
           (CreateSlot false 6 slot_form) store_pending).
  - split; [split |].
    + intros s [Hs | []]. subst s. exists doctor1.
      split; [left; reflexivity | reflexivity].
    + intros a [Ha | []]. subst a. exists (Slot.set_is_booked true slot1).
      split; [left; reflexivity | reflexivity].
    + split.
      * unfold catalogue_keys_ok. simpl.
        repeat split; repeat constructor; simpl; tauto.
      * split; simpl; repeat constructor; simpl; tauto.
  - apply consistentb_spec. reflexivity.
  - reflexivity.
Defined.

(** ** The doctor search *)

Lemma prefix_empty (s : string) : prefix "" s = true.
Proof. destruct s; reflexivity. Qed.

Lemma includes_empty (s : string) : includes "" s = true.
Proof. destruct s; simpl; [reflexivity |]. reflexivity. Qed.

Lemma seen_iff (seen : list string) (s : string) :
  existsb (String.eqb s) seen = true <-> In s seen.
Proof.
  rewrite existsb_exists. split.
  - intros (x & Hx & He). apply String.eqb_eq in He. subst x. exact Hx.
  - intros H. exists s. split; [exact H | apply String.eqb_refl].
Qed.

Lemma set_add_In (seen : list string) (s x : string) :
  In x (set_add seen s) <-> In x seen \/ x = s.
Proof.
  unfold set_add. destruct (existsb (String.eqb s) seen) eqn:E.
  - apply seen_iff in E. split; [auto |]. intros [H | ->]; assumption.
  - rewrite in_app_iff. simpl. split; intros [H | H]; auto.
    + destruct H as [<- | []]. right. reflexivity.
Qed.

Lemma set_add_NoDup (seen : list string) (s : string) :
  NoDup seen -> NoDup (set_add seen s).
Proof.
  intros Hnd. unfold set_add.
  destruct (existsb (String.eqb s) seen) eqn:E; [exact Hnd |].
  apply NoDup_snoc; [exact Hnd |]. intros Hin.
  apply seen_iff in Hin. congruence.
Qed.

Lemma fold_set_add (l seen : list string) :
  (NoDup seen -> NoDup (fold_left set_add l seen))
  /\ forall x, In x (fold_left set_add l seen) <-> In x seen \/ In x l.
Proof.
  revert seen. induction l as [| s l IH]; intros seen; simpl.
  - split; [auto |]. intros x. tauto.
  - destruct (IH (set_add seen s)) as [IH1 IH2]. split.
    + intros Hnd. apply IH1. apply set_add_NoDup. exact Hnd.
    + intros x. rewrite IH2, set_add_In. split;
        [intros [[H | H] | H] | intros [H | [H | H]]]; auto.
Qed.

(** X30. The specialty filter of the search page.  The dropdown holds each
    specialty of a doctor once; with the search box empty (the lower case
    of the empty text being empty), choosing an entry of the dropdown never
    gives an empty page, every doctor shown has the chosen specialty unless
    the entry is the empty text, and choosing no specialty shows every
    doctor. *)
Theorem specialty_filter (toLowerCase : string -> string)
    (doctors : list Doctor.t) :
  toLowerCase "" = "" ->
  NoDup (specialties doctors)
  /\ (forall d, In d doctors -> In (Doctor.specialty d) (specialties doctors))
  /\ filteredDoctors toLowerCase "" "" doctors = doctors
  /\ forall sp,
       In sp (specialties doctors) ->
       filteredDoctors toLowerCase "" sp doctors <> []
       /\ (sp <> "" ->
           filteredDoctors toLowerCase "" sp doctors
           = filter (fun d => (Doctor.specialty d =? sp)%string) doctors).
Proof.
  intros Hlow.
  destruct (fold_set_add (map Doctor.specialty doctors) []) as [Hnd Hin].
  assert (Hfilter : forall sp,
            filteredDoctors toLowerCase "" sp doctors
            = filter (fun d => (sp =? "")%string
                               || (Doctor.specialty d =? sp)%string)
                doctors).
  { intros sp. unfold filteredDoctors. apply filter_ext. intros d.
    rewrite Hlow, includes_empty. reflexivity. }
  split; [apply Hnd; constructor |].
  split.
  { intros d Hd. apply Hin. right. apply in_map. exact Hd. }
  split.
  { rewrite Hfilter. simpl. clear. induction doctors as [| d l IH];
      [reflexivity |]. simpl. f_equal. exact IH. }
  intros sp Hsp. apply Hin in Hsp. destruct Hsp as [[] | Hsp].
  apply in_map_iff in Hsp. destruct Hsp as (d & Hd & Hdin).
  rewrite Hfilter. split.
  - intros Hnil.
    assert (Hf : In d (filter (fun d => (sp =? "")%string
                                        || (Doctor.specialty d =? sp)%string)
                         doctors)).
    { apply filter_In. split; [exact Hdin |].
      rewrite Hd, String.eqb_refl. apply orb_true_r. }
    rewrite Hnil in Hf. destruct Hf.
  - intros Hne. apply filter_ext. intros d'.
    destruct (String.eqb_spec sp ""); [contradiction | reflexivity].
Qed.

Lemma specialty_filter_witness :
  NoDup (specialties [doctor1; doctor2; doctor3])
  /\ (forall d, In d [doctor1; doctor2; doctor3] ->
        In (Doctor.specialty d) (specialties [doctor1; doctor2; doctor3]))
  /\ filteredDoctors lower "" "" [doctor1; doctor2; doctor3]
     = [doctor1; doctor2; doctor3]
  /\ forall sp,
       In sp (specialties [doctor1; doctor2; doctor3]) ->
       filteredDoctors lower "" sp [doctor1; doctor2; doctor3] <> []
       /\ (sp <> "" ->
           filteredDoctors lower "" sp [doctor1; doctor2; doctor3]
           = filter (fun d => (Doctor.specialty d =? sp)%string)
               [doctor1; doctor2; doctor3]).
Proof.
  apply (specialty_filter lower [doctor1; doctor2; doctor3]).
  reflexivity.
Defined.
